(** * Statistics synchronisation of stats-explorer-datagouv

    A shallow embedding of the two synchronisation scripts
    [scripts/sync-stats.ts] (full rebuild) and [scripts/sync-incremental.ts]
    (monthly merge), together with the record types of [src/lib/types.ts],
    and the properties of the aggregation, merge and ranking code.

    Conventions of the embedding.
    - Visit and download counts are JavaScript numbers holding integers; they
      are modelled by [Z] (exact below 2^53, where the scripts operate).  The
      trend percentage is the only non-integral number: it is computed in
      IEEE-754 binary64 with the primitive floats.
    - A JavaScript [Map] is an association list in insertion order with
      unique keys; [Array.prototype.sort] is the stable sort of ECMAScript.
    - Network calls are replaced by their results: a request answered after
      the retries is [Some response], a request that still fails is [None].
    - [new Date()] is a parameter.  In the two scripts the process runs in
      UTC, so that the local calendar fields of a date are its UTC fields;
      [Zoned] has the computation of [getMonthsAgo] in any time zone.
    - The directory [datasets/] is listed in the order of the file names, as
      [fs.readdirSync] returns it.
    - Strings are sequences of bytes; on the ASCII strings that are compared
      with [<=] and [>=] (the months) the order of bytes is the order of
      UTF-16 code units.  [localeCompare] belongs to the host and is a
      parameter. *)

From Stdlib Require Import ZArith List String Ascii Bool Lia.
From Stdlib Require Import Permutation Sorted Floats Uint63.
Import ListNotations.

Local Open Scope Z_scope.
Local Notation "s1 +++ s2" := (String.append s1 s2)
  (at level 60, right associativity).

(* ================================================================== *)
(** * ECMAScript primitives used by the scripts *)
(* ================================================================== *)

Module JS.

(** ** Falsy values and the [||] operator *)

(** [x || d] for a number [x]: only [0] is falsy among the integers. *)
Definition num_or (x d : Z) : Z := if x =? 0 then d else x.

(** [x || d] for [x : number | null]. *)
Definition opt_num_or (x : option Z) (d : Z) : Z :=
  match x with
  | Some n => num_or n d
  | None => d
  end.

(** [s || d] for a string [s]: only the empty string is falsy. *)
Definition str_or (s d : string) : string :=
  if (s =? "")%string then d else s.

(** [o?.f || d] for [o : object | null | undefined] and a string field. *)
Definition opt_field_or {A : Type} (o : option A) (f : A -> string)
  (d : string) : string :=
  match o with
  | Some a => str_or (f a) d
  | None => d
  end.

(** ** Relational operators on strings (comparison by code units) *)

Definition str_le (a b : string) : bool := String.leb a b.
Definition str_ge (a b : string) : bool := String.leb b a.

(** ** Numbers that are not integers *)

Definition number := float.

(** The double that holds the integer [z]; exact below 2^53. *)
Definition number_of_Z (z : Z) : number :=
  if z <? 0 then PrimFloat.opp (PrimFloat.of_uint63 (Uint63.of_Z (- z)))
  else PrimFloat.of_uint63 (Uint63.of_Z z).

(** ** [Map<string, V>]: insertion-ordered, one entry per key *)

Definition Map (V : Type) : Type := list (string * V).

Fixpoint Map_get {V : Type} (m : Map V) (k : string) : option V :=
  match m with
  | [] => None
  | (k', v) :: m' => if (k' =? k)%string then Some v else Map_get m' k
  end.

(** [m.set(k, v)]: an existing key keeps its position, a new key is added
    last. *)
Fixpoint Map_set {V : Type} (m : Map V) (k : string) (v : V) : Map V :=
  match m with
  | [] => [(k, v)]
  | (k', v') :: m' =>
      if (k' =? k)%string then (k', v) :: m' else (k', v') :: Map_set m' k v
  end.

Definition Map_has {V : Type} (m : Map V) (k : string) : bool :=
  match Map_get m k with
  | Some _ => true
  | None => false
  end.

Definition Map_keys {V : Type} (m : Map V) : list string := map fst m.
Definition Map_values {V : Type} (m : Map V) : list V := map snd m.
Definition Map_size {V : Type} (m : Map V) : Z := Z.of_nat (List.length m).

(** ** [Set<string>]: insertion-ordered *)

Definition StrSet : Type := list string.

Definition Set_has (s : StrSet) (x : string) : bool :=
  existsb (fun y => (y =? x)%string) s.

Definition Set_add (s : StrSet) (x : string) : StrSet :=
  if Set_has s x then s else s ++ [x].

Definition Set_size (s : StrSet) : Z := Z.of_nat (List.length s).

(** ** Arrays *)

Section Arrays.
Context {A : Type}.

(** [Array.prototype.sort(compareFn)].  ECMAScript requires the sort to be
    stable; for a consistent comparator the result is therefore unique, and
    it is computed here by stable insertion: an element goes before the
    first later element that the comparator does not put in front of it. *)
Fixpoint insert (compareFn : A -> A -> Z) (x : A) (l : list A) : list A :=
  match l with
  | [] => [x]
  | y :: l' =>
      if compareFn x y <=? 0 then x :: l else y :: insert compareFn x l'
  end.

Fixpoint sort (compareFn : A -> A -> Z) (l : list A) : list A :=
  match l with
  | [] => []
  | x :: l' => insert compareFn x (sort compareFn l')
  end.

(** [a.slice(0, n)] *)
Definition slice0 (n : Z) (l : list A) : list A := firstn (Z.to_nat n) l.

(** [a.map((d, i) => f(d, i))], the index starting at [i]. *)
Fixpoint mapi_from {B : Type} (i : Z) (f : A -> Z -> B) (l : list A)
  : list B :=
  match l with
  | [] => []
  | x :: l' => f x i :: mapi_from (i + 1) f l'
  end.

Definition mapi {B : Type} (f : A -> Z -> B) (l : list A) : list B :=
  mapi_from 0 f l.

(** [a.find(p)] *)
Definition find (p : A -> bool) (l : list A) : option A := List.find p l.

(** [a.map(f).filter(d => d !== null)] *)
Fixpoint filter_nonnull (l : list (option A)) : list A :=
  match l with
  | [] => []
  | Some x :: l' => x :: filter_nonnull l'
  | None :: l' => filter_nonnull l'
  end.
End Arrays.

(** ** Dates

    Only the calendar fields that the scripts read are kept: the year, the
    zero-based month and the day of the month. *)

Record Date : Type := mkDate
  { getFullYear : Z;
    getMonth : Z;
    getDate : Z }.

Definition isLeapYear (y : Z) : bool :=
  (y mod 4 =? 0) && (negb (y mod 100 =? 0) || (y mod 400 =? 0)).

(** Number of days of the zero-based month [m] of year [y]. *)
Definition daysInMonth (y m : Z) : Z :=
  if m =? 1 then (if isLeapYear y then 29 else 28)
  else if (m =? 3) || (m =? 5) || (m =? 8) || (m =? 10) then 30
  else 31.

(** The date designated by year [y], month index [m] (any integer) and day
    [d] (between 1 and 31): the month index is reduced modulo 12 into the
    year, and a day beyond the end of the month runs over into the next
    month, as [MakeDay] counts days from the first of the month. *)
Definition MakeDate (y m d : Z) : Date :=
  let ym := y + m / 12 in
  let mn := m mod 12 in
  if d <=? daysInMonth ym mn then mkDate ym mn d
  else if mn =? 11 then mkDate (ym + 1) 0 (d - daysInMonth ym mn)
  else mkDate ym (mn + 1) (d - daysInMonth ym mn).

(** [date.setMonth(m)] *)
Definition setMonth (date : Date) (m : Z) : Date :=
  MakeDate (getFullYear date) m (getDate date).

(** [Date.UTC(year, month, 1)] read back as a date; years 0 to 99 denote
    1900 to 1999. *)
Definition Date_UTC (year month : Z) : Date :=
  let y := if (0 <=? year) && (year <=? 99) then 1900 + year else year in
  MakeDate y month 1.

Definition digit (n : Z) : ascii := ascii_of_nat (48 + Z.to_nat (n mod 10)).

Definition pad2 (n : Z) : string :=
  String (digit (n / 10)) (String (digit n) EmptyString).

Definition pad4 (n : Z) : string :=
  String (digit (n / 1000)) (String (digit (n / 100)) (pad2 n)).

Definition pad6 (n : Z) : string :=
  String (digit (n / 100000)) (String (digit (n / 10000)) (pad4 n)).

(** [date.toISOString().slice(0, 7)]: "YYYY-MM" for the years 0 to 9999;
    other years are printed with a sign and six digits, which fill the
    seven characters. *)
Definition toISOString_slice_0_7 (date : Date) : string :=
  let y := getFullYear date in
  if (0 <=? y) && (y <=? 9999)
  then pad4 y +++ "-" +++ pad2 (getMonth date + 1)
  else (if y <? 0 then "-"%string else "+"%string) +++ pad6 (Z.abs y).

(** ** Reading a "YYYY-MM" string: [month.split('-').map(Number)] *)

Definition digit_val (c : ascii) : option Z :=
  let n := Z.of_nat (nat_of_ascii c) in
  if (48 <=? n) && (n <=? 57) then Some (n - 48) else None.

(** The year and month numbers of a string of the fixed-width form
    "YYYY-MM".  [None] stands for a string outside that form, on which the
    behaviour of the script is not modelled. *)
Definition split_year_month (s : string) : option (Z * Z) :=
  match s with
  | String y3 (String y2 (String y1 (String y0
      (String sep (String m1 (String m0 EmptyString)))))) =>
      if Ascii.eqb sep "-"%char then
        match digit_val y3, digit_val y2, digit_val y1, digit_val y0,
              digit_val m1, digit_val m0 with
        | Some a, Some b, Some c, Some d, Some e, Some f =>
            Some (1000 * a + 100 * b + 10 * c + d, 10 * e + f)
        | _, _, _, _, _, _ => None
        end
      else None
  | _ => None
  end.

End JS.

(* ================================================================== *)
(** * Record types ([src/lib/types.ts]) *)
(* ================================================================== *)

(** Entry of the metric API for one dataset and one month. *)
Module MetricApiDatasetEntry.
Record t : Type := mk
  { __id : Z;
    dataset_id : string;
    metric_month : string;
    monthly_visit : Z;
    monthly_download_resource : option Z }.
End MetricApiDatasetEntry.

Module MetricApiLinks.
Record t : Type := mk
  { next : option string;
    prev : option string }.
End MetricApiLinks.

Module MetricApiMeta.
Record t : Type := mk
  { page : Z;
    page_size : Z;
    total : Z }.
End MetricApiMeta.

(** One page of the metric API. *)
Module MetricApiDatasetResponse.
Record t : Type := mk
  { data : list MetricApiDatasetEntry.t;
    links : MetricApiLinks.t;
    meta : MetricApiMeta.t }.
End MetricApiDatasetResponse.

Module Organization.
Record t : Type := mk
  { id : string;
    name : string;
    slug : string;
    logo : string }.
End Organization.

Module DatagouvMetrics.
Record t : Type := mk
  { views : Z;
    downloads : Z;
    followers : Z;
    reuses : Z }.
End DatagouvMetrics.

(** Dataset as served by the data.gouv.fr API. *)
Module DatagouvDataset.
Record t : Type := mk
  { id : string;
    title : string;
    slug : string;
    description : string;
    page : string;
    organization : option Organization.t;
    metrics : DatagouvMetrics.t;
    created_at : string;
    last_modified : string }.
End DatagouvDataset.

(** The object [{ visits: number; downloads: number }] held by the maps. *)
Module Counts.
Record t : Type := mk
  { visits : Z;
    downloads : Z }.
End Counts.

Module MonthlyStats.
Record t : Type := mk
  { month : string;
    visits : Z;
    downloads : Z }.
End MonthlyStats.

Module GlobalStats.
Record t : Type := mk
  { totalVisits : Z;
    totalDownloads : Z;
    totalDatasets : Z;
    startDate : string;
    lastUpdate : string;
    monthlyStats : list MonthlyStats.t }.
End GlobalStats.

Module DatasetSummary.
Record t : Type := mk
  { id : string;
    title : string;
    slug : string;
    organization : string;
    organizationId : string }.
End DatasetSummary.

(** [DatasetRanking extends DatasetSummary] *)
Module DatasetRanking.
Record t : Type := mk
  { id : string;
    title : string;
    slug : string;
    organization : string;
    organizationId : string;
    value : Z;
    previousValue : Z;
    trend : JS.number;
    rank : Z }.
End DatasetRanking.

(** [DatasetStats extends DatasetSummary] *)
Module DatasetStats.
Record t : Type := mk
  { id : string;
    title : string;
    slug : string;
    organization : string;
    organizationId : string;
    url : string;
    totalVisits : Z;
    totalDownloads : Z;
    monthlyStats : list MonthlyStats.t;
    firstMonth : string;
    lastMonth : string }.
End DatasetStats.

(** The object [{ visits: DatasetRanking[]; downloads: DatasetRanking[] }]
    of one period. *)
Module PeriodRankings.
Record t : Type := mk
  { visits : list DatasetRanking.t;
    downloads : list DatasetRanking.t }.
End PeriodRankings.

Module TopDatasetsData.
Record t : Type := mk
  { lastUpdate : string;
    week : PeriodRankings.t;
    month : PeriodRankings.t;
    year : PeriodRankings.t;
    allTime : PeriodRankings.t }.
End TopDatasetsData.

Module DatasetsIndex.
Record t : Type := mk
  { lastUpdate : string;
    datasets : list DatasetSummary.t }.
End DatasetsIndex.

Module Period.
Inductive t : Type := week | month | year | allTime.
End Period.

Module Metric.
Inductive t : Type := visits | downloads.
End Metric.

Module SyncOptions.
Record t : Type := mk
  { dryRun : bool;
    verbose : bool;
    maxDatasets : option Z }.
End SyncOptions.

(** The rankings of a period and a metric in a snapshot. *)
Definition rankingsOfPeriod (top : TopDatasetsData.t) (p : Period.t)
  : PeriodRankings.t :=
  match p with
  | Period.week => TopDatasetsData.week top
  | Period.month => TopDatasetsData.month top
  | Period.year => TopDatasetsData.year top
  | Period.allTime => TopDatasetsData.allTime top
  end.

Definition rankingsOf (top : TopDatasetsData.t) (p : Period.t)
  (k : Metric.t) : list DatasetRanking.t :=
  match k with
  | Metric.visits => PeriodRankings.visits (rankingsOfPeriod top p)
  | Metric.downloads => PeriodRankings.downloads (rankingsOfPeriod top p)
  end.

(* ================================================================== *)
(** * The files under [public/data] *)
(* ================================================================== *)

(** The JSON files that the scripts read and write.  [datasets_dir] holds
    [datasets/{id}.json], keyed by id; a file is looked up by its id, and
    the directory is listed by [readdir]. *)
Module Files.
Record t : Type := mk
  { global_stats : option GlobalStats.t;
    top_datasets : option TopDatasetsData.t;
    datasets_index : option DatasetsIndex.t;
    datasets_dir : JS.Map DatasetStats.t }.

Definition empty : t := mk None None None [].

(** The order of two files of [datasets/] in a listing of the directory:
    that of the bytes of their names [{id}.json]. *)
Definition byFileName (a b : string * DatasetStats.t) : Z :=
  match String.compare (fst a +++ ".json") (fst b +++ ".json") with
  | Lt => -1
  | Eq => 0
  | Gt => 1
  end.

(** [fs.readdirSync(datasetsDir)], each name with the content of its file:
    the entries of the directory come in the order of their names,
    whatever the order in which the files were written. *)
Definition readdir (fs : t) : JS.Map DatasetStats.t :=
  JS.sort byFileName (datasets_dir fs).
End Files.

(** What a call of [writeJsonFile(filePath, data, options)] is asked to
    write. *)
Inductive JsonFile : Type :=
| global_stats_json (data : GlobalStats.t)
| top_datasets_json (data : TopDatasetsData.t)
| datasets_index_json (data : DatasetsIndex.t)
| dataset_json (datasetId : string) (data : DatasetStats.t).

Definition writeJsonFile (file : JsonFile) (options : SyncOptions.t)
  (fs : Files.t) : Files.t :=
  if SyncOptions.dryRun options then fs
  else
    match file with
    | global_stats_json data =>
        Files.mk (Some data) (Files.top_datasets fs)
          (Files.datasets_index fs) (Files.datasets_dir fs)
    | top_datasets_json data =>
        Files.mk (Files.global_stats fs) (Some data)
          (Files.datasets_index fs) (Files.datasets_dir fs)
    | datasets_index_json data =>
        Files.mk (Files.global_stats fs) (Files.top_datasets fs)
          (Some data) (Files.datasets_dir fs)
    | dataset_json datasetId data =>
        Files.mk (Files.global_stats fs) (Files.top_datasets fs)
          (Files.datasets_index fs)
          (JS.Map_set (Files.datasets_dir fs) datasetId data)
    end.

(* ================================================================== *)
(** * [scripts/sync-stats.ts]: full synchronisation *)
(* ================================================================== *)

Module SyncStats.
Import JS.

Definition TOP_DATASETS_COUNT : Z := 100.

(** [getMonthsAgo(months)], with [now] the value of [new Date()]. *)
Definition getMonthsAgo (now : Date) (months : Z) : string :=
  let date := setMonth now (getMonth now - months) in
  toISOString_slice_0_7 date.

Definition getCurrentMonth (now : Date) : string :=
  toISOString_slice_0_7 now.

Module DatasetMetrics.
Record t : Type := mk
  { datasetId : string;
    monthlyStats : Map Counts.t;
    totalVisits : Z;
    totalDownloads : Z }.
End DatasetMetrics.

(** ** Reading the metric API *)

(** Body of the loop of [fetchAllDatasetIds] over one page. *)
Definition addDatasetIds (datasetIds : StrSet)
  (page : list MetricApiDatasetEntry.t) : StrSet :=
  fold_left (fun s entry => Set_add s (MetricApiDatasetEntry.dataset_id entry))
    page datasetIds.

Definition limitReached (options : SyncOptions.t) (datasetIds : StrSet)
  : bool :=
  match SyncOptions.maxDatasets options with
  | Some n => negb (n =? 0) && (n <=? Set_size datasetIds)
  | None => false
  end.

(** [fetchAllDatasetIds(options)]; [responses] are the answers to the
    successive page requests.  A request that fails after its retries, or
    that asks for a page the service does not have, makes the function
    throw ([None]). *)
Fixpoint fetchAllDatasetIds_pages (options : SyncOptions.t)
  (responses : list (option MetricApiDatasetResponse.t))
  (datasetIds : StrSet) : option StrSet :=
  match responses with
  | [] => None
  | None :: _ => None
  | Some response :: rest =>
      let datasetIds' :=
        addDatasetIds datasetIds (MetricApiDatasetResponse.data response) in
      if limitReached options datasetIds' then Some datasetIds'
      else
        match MetricApiLinks.next (MetricApiDatasetResponse.links response) with
        | Some _ => fetchAllDatasetIds_pages options rest datasetIds'
        | None => Some datasetIds'
        end
  end.

Definition fetchAllDatasetIds (options : SyncOptions.t)
  (responses : list (option MetricApiDatasetResponse.t))
  : option (list string) :=
  fetchAllDatasetIds_pages options responses [].

(** Body of the loop of [fetchDatasetMetrics] over one entry. *)
Definition storeEntry (monthlyStats : Map Counts.t)
  (entry : MetricApiDatasetEntry.t) : Map Counts.t :=
  Map_set monthlyStats (MetricApiDatasetEntry.metric_month entry)
    (Counts.mk
       (num_or (MetricApiDatasetEntry.monthly_visit entry) 0)
       (opt_num_or (MetricApiDatasetEntry.monthly_download_resource entry) 0)).

Fixpoint fetchDatasetMetrics_pages
  (responses : list (option MetricApiDatasetResponse.t))
  (monthlyStats : Map Counts.t) : option (Map Counts.t) :=
  match responses with
  | [] => None
  | None :: _ => None
  | Some response :: rest =>
      let monthlyStats' :=
        fold_left storeEntry (MetricApiDatasetResponse.data response)
          monthlyStats in
      match MetricApiLinks.next (MetricApiDatasetResponse.links response) with
      | Some _ => fetchDatasetMetrics_pages rest monthlyStats'
      | None => Some monthlyStats'
      end
  end.

Definition sumVisits (values : list Counts.t) : Z :=
  fold_left (fun total stats => total + Counts.visits stats) values 0.

Definition sumDownloads (values : list Counts.t) : Z :=
  fold_left (fun total stats => total + Counts.downloads stats) values 0.

(** [fetchDatasetMetrics(datasetId)]; [None] when a page request throws. *)
Definition fetchDatasetMetrics (datasetId : string)
  (responses : list (option MetricApiDatasetResponse.t))
  : option DatasetMetrics.t :=
  match fetchDatasetMetrics_pages responses [] with
  | None => None
  | Some monthlyStats =>
      Some (DatasetMetrics.mk datasetId monthlyStats
              (sumVisits (Map_values monthlyStats))
              (sumDownloads (Map_values monthlyStats)))
  end.

(** [fetchDatasetMetadata(datasetId)]: the dataset, or [null] when the
    request throws. *)
Definition fetchDatasetMetadata
  (metadataApi : string -> option DatagouvDataset.t) (datasetId : string)
  : option DatagouvDataset.t :=
  metadataApi datasetId.

(** ** Aggregates *)

Definition zeroCounts : Counts.t := Counts.mk 0 0.

(** Inner loop body of [calculateGlobalStats]. *)
Definition addToAggregates (monthlyAggregates : Map Counts.t)
  (entry : string * Counts.t) : Map Counts.t :=
  let current :=
    match Map_get monthlyAggregates (fst entry) with
    | Some c => c
    | None => zeroCounts
    end in
  Map_set monthlyAggregates (fst entry)
    (Counts.mk (Counts.visits current + Counts.visits (snd entry))
               (Counts.downloads current + Counts.downloads (snd entry))).

(** The two nested loops of [calculateGlobalStats], from the aggregates
    [monthlyAggregates]. *)
Definition aggregateFrom (monthlyAggregates : Map Counts.t)
  (allMetrics : list DatasetMetrics.t) : Map Counts.t :=
  fold_left
    (fun aggregates dataset =>
       fold_left addToAggregates (DatasetMetrics.monthlyStats dataset)
         aggregates)
    allMetrics monthlyAggregates.

Definition monthlyAggregatesOf (allMetrics : list DatasetMetrics.t)
  : Map Counts.t :=
  aggregateFrom [] allMetrics.

Definition toMonthlyStats (entry : string * Counts.t) : MonthlyStats.t :=
  MonthlyStats.mk (fst entry) (Counts.visits (snd entry))
    (Counts.downloads (snd entry)).

Section WithCollation.

(** [a.localeCompare(b, locales)] of the host; the first argument is the
    [locales] parameter, [None] when it is omitted. *)
Variable localeCompare : option string -> string -> string -> Z.

Definition byMonth (a b : string * Counts.t) : Z :=
  localeCompare None (fst a) (fst b).

(** [calculateGlobalStats(allMetrics)]; [lastUpdate] is
    [new Date().toISOString()]. *)
Definition calculateGlobalStats (lastUpdate : string)
  (allMetrics : list DatasetMetrics.t) : GlobalStats.t :=
  let totalVisits :=
    fold_left (fun total dataset => total + DatasetMetrics.totalVisits dataset)
      allMetrics 0 in
  let totalDownloads :=
    fold_left
      (fun total dataset => total + DatasetMetrics.totalDownloads dataset)
      allMetrics 0 in
  let sortedMonths := sort byMonth (monthlyAggregatesOf allMetrics) in
  GlobalStats.mk totalVisits totalDownloads
    (Z.of_nat (List.length allMetrics))
    (match sortedMonths with
     | first :: _ => str_or (fst first) "2022-07"
     | [] => "2022-07"%string
     end)
    lastUpdate
    (map toMonthlyStats sortedMonths).

End WithCollation.

(** ** Rankings *)

(** [getStatsForPeriod(metrics, startMonth, endMonth)] *)
Definition getStatsForPeriod (metrics : DatasetMetrics.t)
  (startMonth endMonth : string) : Counts.t :=
  fold_left
    (fun acc entry =>
       if str_ge (fst entry) startMonth && str_le (fst entry) endMonth
       then Counts.mk (Counts.visits acc + Counts.visits (snd entry))
                      (Counts.downloads acc + Counts.downloads (snd entry))
       else acc)
    (DatasetMetrics.monthlyStats metrics) zeroCounts.

(** The [trend] field of [createRanking]. *)
Definition trendOf (value previousValue : Z) : number :=
  if 0 <? previousValue
  then ((number_of_Z value - number_of_Z previousValue)
        / number_of_Z previousValue * number_of_Z 100)%float
  else number_of_Z 0.

Definition organizationName (metadata : DatagouvDataset.t) : string :=
  opt_field_or (DatagouvDataset.organization metadata) Organization.name
    "Inconnu".

Definition organizationIdOf (metadata : DatagouvDataset.t) : string :=
  opt_field_or (DatagouvDataset.organization metadata) Organization.id "".

Definition createRanking (metrics : DatasetMetrics.t)
  (metadata : DatagouvDataset.t) (value previousValue rank : Z)
  : DatasetRanking.t :=
  DatasetRanking.mk
    (DatasetMetrics.datasetId metrics)
    (DatagouvDataset.title metadata)
    (DatagouvDataset.slug metadata)
    (organizationName metadata)
    (organizationIdOf metadata)
    value
    previousValue
    (trendOf value previousValue)
    rank.

Module PeriodConfig.
Record t : Type := mk
  { start : string;
    prevStart : string;
    prevEnd : string }.
End PeriodConfig.

(** The [periods] table of [calculateTopDatasets]. *)
Definition periods (now : Date) (period : Period.t) : PeriodConfig.t :=
  match period with
  | Period.week =>
      PeriodConfig.mk (getMonthsAgo now 0) (getMonthsAgo now 1)
        (getMonthsAgo now 1)
  | Period.month =>
      PeriodConfig.mk (getMonthsAgo now 1) (getMonthsAgo now 2)
        (getMonthsAgo now 2)
  | Period.year =>
      PeriodConfig.mk (getMonthsAgo now 12) (getMonthsAgo now 24)
        (getMonthsAgo now 13)
  | Period.allTime => PeriodConfig.mk "2022-07" "2022-07" "2022-07"
  end.

Definition isAllTime (period : Period.t) : bool :=
  match period with
  | Period.allTime => true
  | _ => false
  end.

(** Element of [datasetsWithStats]. *)
Module WithStats.
Record t : Type := mk
  { metrics : DatasetMetrics.t;
    metadata : DatagouvDataset.t;
    current : Counts.t;
    previous : Counts.t }.
End WithStats.

(** The callback of the [map] of [datasetsWithStats]: [null] for a dataset
    without metadata. *)
Definition withStatsOf (now : Date) (metadataMap : Map DatagouvDataset.t)
  (period : Period.t) (m : DatasetMetrics.t) : option WithStats.t :=
  let currentMonth := getCurrentMonth now in
  let periodConfig := periods now period in
  match Map_get metadataMap (DatasetMetrics.datasetId m) with
  | None => None
  | Some metadata =>
      let current :=
        getStatsForPeriod m (PeriodConfig.start periodConfig) currentMonth in
      let previous :=
        if negb (isAllTime period)
        then getStatsForPeriod m (PeriodConfig.prevStart periodConfig)
               (PeriodConfig.prevEnd periodConfig)
        else zeroCounts in
      Some (WithStats.mk m metadata current previous)
  end.

Definition datasetsWithStats (now : Date)
  (allMetrics : list DatasetMetrics.t)
  (metadataMap : Map DatagouvDataset.t) (period : Period.t)
  : list WithStats.t :=
  filter_nonnull (map (withStatsOf now metadataMap period) allMetrics).

(** The accessor of a metric on the pair of counts. *)
Definition metricOf (k : Metric.t) (c : Counts.t) : Z :=
  match k with
  | Metric.visits => Counts.visits c
  | Metric.downloads => Counts.downloads c
  end.

(** The comparator [(a, b) => b.current.k - a.current.k]. *)
Definition byCurrent (k : Metric.t) (a b : WithStats.t) : Z :=
  metricOf k (WithStats.current b) - metricOf k (WithStats.current a).

(** The callback [(d, i) => createRanking(..., i + 1)]. *)
Definition rankingOf (k : Metric.t) (d : WithStats.t) (i : Z)
  : DatasetRanking.t :=
  createRanking (WithStats.metrics d) (WithStats.metadata d)
    (metricOf k (WithStats.current d))
    (metricOf k (WithStats.previous d)) (i + 1).

(** The list [result[period].k] for the metric [k]. *)
Definition topBy (k : Metric.t) (withStats : list WithStats.t)
  : list DatasetRanking.t :=
  let sorted :=
    slice0 TOP_DATASETS_COUNT (sort (byCurrent k) withStats) in
  mapi (rankingOf k) sorted.

Definition topOfPeriod (now : Date) (allMetrics : list DatasetMetrics.t)
  (metadataMap : Map DatagouvDataset.t) (period : Period.t)
  : PeriodRankings.t :=
  let withStats := datasetsWithStats now allMetrics metadataMap period in
  PeriodRankings.mk (topBy Metric.visits withStats)
    (topBy Metric.downloads withStats).

(** [calculateTopDatasets(allMetrics, metadataMap)] *)
Definition calculateTopDatasets (now : Date) (lastUpdate : string)
  (allMetrics : list DatasetMetrics.t)
  (metadataMap : Map DatagouvDataset.t) : TopDatasetsData.t :=
  TopDatasetsData.mk lastUpdate
    (topOfPeriod now allMetrics metadataMap Period.week)
    (topOfPeriod now allMetrics metadataMap Period.month)
    (topOfPeriod now allMetrics metadataMap Period.year)
    (topOfPeriod now allMetrics metadataMap Period.allTime).

(** ** Directory, per-dataset records and the main function *)

Definition summaryOf (entry : string * DatagouvDataset.t)
  : DatasetSummary.t :=
  DatasetSummary.mk
    (fst entry)
    (DatagouvDataset.title (snd entry))
    (DatagouvDataset.slug (snd entry))
    (organizationName (snd entry))
    (organizationIdOf (snd entry)).

Definition datasetUrl (metadata : DatagouvDataset.t) : string :=
  str_or (DatagouvDataset.page metadata)
    ("https://www.data.gouv.fr/fr/datasets/"
       +++ DatagouvDataset.slug metadata +++ "/").

(** [a[0]?.month || ''] and [a[a.length - 1]?.month || ''] *)
Definition firstMonthOf (monthlyStats : list MonthlyStats.t) : string :=
  match monthlyStats with
  | first :: _ => str_or (MonthlyStats.month first) ""
  | [] => ""%string
  end.

Definition lastMonthOf (monthlyStats : list MonthlyStats.t) : string :=
  match rev monthlyStats with
  | last :: _ => str_or (MonthlyStats.month last) ""
  | [] => ""%string
  end.

Section WithCollationOutputs.

Variable localeCompare : option string -> string -> string -> Z.

(** The comparator [(a, b) => a.title.localeCompare(b.title, 'fr')]. *)
Definition byTitle (a b : DatasetSummary.t) : Z :=
  localeCompare (Some "fr"%string) (DatasetSummary.title a)
    (DatasetSummary.title b).

(** [createDatasetsIndex(metadataMap)] *)
Definition createDatasetsIndex (lastUpdate : string)
  (metadataMap : Map DatagouvDataset.t) : DatasetsIndex.t :=
  let datasets := map summaryOf metadataMap in
  DatasetsIndex.mk lastUpdate (sort byTitle datasets).

(** [createDatasetStats(metrics, metadata)] *)
Definition createDatasetStats (metrics : DatasetMetrics.t)
  (metadata : DatagouvDataset.t) : DatasetStats.t :=
  let monthlyStats :=
    map toMonthlyStats
      (sort (byMonth localeCompare) (DatasetMetrics.monthlyStats metrics)) in
  DatasetStats.mk
    (DatasetMetrics.datasetId metrics)
    (DatagouvDataset.title metadata)
    (DatagouvDataset.slug metadata)
    (organizationName metadata)
    (organizationIdOf metadata)
    (datasetUrl metadata)
    (DatasetMetrics.totalVisits metrics)
    (DatasetMetrics.totalDownloads metrics)
    monthlyStats
    (firstMonthOf monthlyStats)
    (lastMonthOf monthlyStats).

(** Step 2 of [main]: a dataset whose metrics cannot be fetched is
    skipped. *)
Definition fetchAllMetrics
  (metricApi : string -> list (option MetricApiDatasetResponse.t))
  (datasetIds : list string) : list DatasetMetrics.t :=
  filter_nonnull
    (map (fun datasetId => fetchDatasetMetrics datasetId (metricApi datasetId))
       datasetIds).

(** Step 3 of [main]: only the datasets whose metadata is found enter the
    map. *)
Definition recordMetadata
  (metadataApi : string -> option DatagouvDataset.t)
  (metadataMap : Map DatagouvDataset.t) (metrics : DatasetMetrics.t)
  : Map DatagouvDataset.t :=
  match fetchDatasetMetadata metadataApi (DatasetMetrics.datasetId metrics)
  with
  | Some metadata =>
      Map_set metadataMap (DatasetMetrics.datasetId metrics) metadata
  | None => metadataMap
  end.

Definition fetchAllMetadata
  (metadataApi : string -> option DatagouvDataset.t)
  (allMetrics : list DatasetMetrics.t) : Map DatagouvDataset.t :=
  fold_left (recordMetadata metadataApi) allMetrics [].

(** The ids collected from the eight ranking lists, in order. *)
Definition topDatasetIdsOf (topDatasets : TopDatasetsData.t) : StrSet :=
  fold_left
    (fun ids period =>
       let ids' :=
         fold_left (fun s ranking => Set_add s (DatasetRanking.id ranking))
           (rankingsOf topDatasets period Metric.visits) ids in
       fold_left (fun s ranking => Set_add s (DatasetRanking.id ranking))
         (rankingsOf topDatasets period Metric.downloads) ids')
    [Period.week; Period.month; Period.year; Period.allTime] [].

Definition writeDetails (options : SyncOptions.t)
  (allMetrics : list DatasetMetrics.t)
  (metadataMap : Map DatagouvDataset.t) (topDatasetIds : StrSet)
  (fs : Files.t) : Files.t :=
  fold_left
    (fun fs datasetId =>
       match find (fun m => (DatasetMetrics.datasetId m =? datasetId)%string)
               allMetrics,
             Map_get metadataMap datasetId with
       | Some metrics, Some metadata =>
           writeJsonFile
             (dataset_json datasetId (createDatasetStats metrics metadata))
             options fs
       | _, _ => fs
       end)
    topDatasetIds fs.

(** [main()].  [now] and [lastUpdate] come from the clock, [listing],
    [metricApi] and [metadataApi] from the network, [fs] is the content of
    [public/data] before the run.  [None] is the fatal error of the
    [catch] handler. *)
Definition main (options : SyncOptions.t) (now : Date) (lastUpdate : string)
  (listing : list (option MetricApiDatasetResponse.t))
  (metricApi : string -> list (option MetricApiDatasetResponse.t))
  (metadataApi : string -> option DatagouvDataset.t)
  (fs : Files.t) : option Files.t :=
  match fetchAllDatasetIds options listing with
  | None => None
  | Some datasetIds =>
      let allMetrics := fetchAllMetrics metricApi datasetIds in
      let metadataMap := fetchAllMetadata metadataApi allMetrics in
      let globalStats :=
        calculateGlobalStats localeCompare lastUpdate allMetrics in
      let topDatasets :=
        calculateTopDatasets now lastUpdate allMetrics metadataMap in
      let datasetsIndex := createDatasetsIndex lastUpdate metadataMap in
      let fs1 := writeJsonFile (global_stats_json globalStats) options fs in
      let fs2 := writeJsonFile (top_datasets_json topDatasets) options fs1 in
      let fs3 :=
        writeJsonFile (datasets_index_json datasetsIndex) options fs2 in
      Some (writeDetails options allMetrics metadataMap
              (topDatasetIdsOf topDatasets) fs3)
  end.

End WithCollationOutputs.

End SyncStats.

(* ================================================================== *)
(** * [scripts/sync-incremental.ts]: incremental synchronisation *)
(* ================================================================== *)

Module SyncIncremental.
Import JS.

Definition TOP_DATASETS_COUNT : Z := 100.

Definition getCurrentMonth (now : Date) : string :=
  toISOString_slice_0_7 now.

(** [getNextMonth(month)]; [None] outside the fixed-width form (see
    [JS.split_year_month]). *)
Definition getNextMonth (month : string) : option string :=
  match split_year_month month with
  | Some (year, monthNum) =>
      let date := Date_UTC year monthNum in
      Some (toISOString_slice_0_7 date)
  | None => None
  end.

(** Result of a loop that is run with a bound on its iterations:
    [Done] when the loop ends with a result, [Undefined] when it meets a
    month that is not in the fixed-width form, [OutOfFuel] when the bound is
    reached first. *)
Inductive loop (A : Type) : Type :=
| Done (result : A)
| Undefined
| OutOfFuel.
Arguments Done {A} result.
Arguments Undefined {A}.
Arguments OutOfFuel {A}.

(** The [while (current <= now)] loop of [getMonthsToFetch], run for at most
    [fuel] tests of its condition. *)
Fixpoint getMonthsToFetch_loop (fuel : nat) (current now : string)
  : loop (list string) :=
  match fuel with
  | O => OutOfFuel
  | S fuel' =>
      if str_le current now then
        match getNextMonth current with
        | Some next =>
            match getMonthsToFetch_loop fuel' next now with
            | Done months => Done (current :: months)
            | Undefined => Undefined
            | OutOfFuel => OutOfFuel
            end
        | None => Undefined
        end
      else Done []
  end.

(** [getMonthsToFetch(lastMonth)], with [now] the current month. *)
Definition getMonthsToFetch_fuel (fuel : nat) (lastMonth now : string)
  : loop (list string) :=
  match getNextMonth lastMonth with
  | Some current => getMonthsToFetch_loop fuel current now
  | None => Undefined
  end.

(** The number of the month "YYYY-MM" counted from year 0, and a bound on
    the iterations of the loop between two months. *)
Definition monthNumber (s : string) : Z :=
  match split_year_month s with
  | Some (year, monthNum) => 12 * year + monthNum
  | None => 0
  end.

Definition fuelFor (lastMonth now : string) : nat :=
  S (Z.to_nat (monthNumber now - monthNumber lastMonth)).

Definition getMonthsToFetch (lastMonth now : string) : loop (list string) :=
  getMonthsToFetch_fuel (fuelFor lastMonth now) lastMonth now.

Module DatasetMonthlyUpdate.
Record t : Type := mk
  { datasetId : string;
    month : string;
    visits : Z;
    downloads : Z }.
End DatasetMonthlyUpdate.

(** ** New data *)

Definition updateOfEntry (entry : MetricApiDatasetEntry.t)
  : DatasetMonthlyUpdate.t :=
  DatasetMonthlyUpdate.mk
    (MetricApiDatasetEntry.dataset_id entry)
    (MetricApiDatasetEntry.metric_month entry)
    (num_or (MetricApiDatasetEntry.monthly_visit entry) 0)
    (opt_num_or (MetricApiDatasetEntry.monthly_download_resource entry) 0).

(** Loop of [fetchNewMonthData] over one page: the updates are appended and
    the ids recorded in [knownDatasetIds]. *)
Definition readPage (state : list DatasetMonthlyUpdate.t * StrSet)
  (page : list MetricApiDatasetEntry.t)
  : list DatasetMonthlyUpdate.t * StrSet :=
  fold_left
    (fun st entry =>
       (fst st ++ [updateOfEntry entry],
        Set_add (snd st) (MetricApiDatasetEntry.dataset_id entry)))
    page state.

(** [fetchNewMonthData(month, knownDatasetIds)]: the updates of the month
    and the set after the call; [None] when a page request throws. *)
Fixpoint fetchNewMonthData_pages
  (responses : list (option MetricApiDatasetResponse.t))
  (state : list DatasetMonthlyUpdate.t * StrSet)
  : option (list DatasetMonthlyUpdate.t * StrSet) :=
  match responses with
  | [] => None
  | None :: _ => None
  | Some response :: rest =>
      let state' := readPage state (MetricApiDatasetResponse.data response) in
      match MetricApiLinks.next (MetricApiDatasetResponse.links response) with
      | Some _ => fetchNewMonthData_pages rest state'
      | None => Some state'
      end
  end.

Definition fetchNewMonthData
  (monthApi : string -> list (option MetricApiDatasetResponse.t))
  (month : string) (knownDatasetIds : StrSet)
  : option (list DatasetMonthlyUpdate.t * StrSet) :=
  fetchNewMonthData_pages (monthApi month) ([], knownDatasetIds).

(** Step 3 of [main]: [allUpdates.push(...updates)] for each month. *)
Fixpoint fetchAllUpdates
  (monthApi : string -> list (option MetricApiDatasetResponse.t))
  (monthsToFetch : list string)
  (state : list DatasetMonthlyUpdate.t * StrSet)
  : option (list DatasetMonthlyUpdate.t * StrSet) :=
  match monthsToFetch with
  | [] => Some state
  | month :: rest =>
      match fetchNewMonthData monthApi month (snd state) with
      | Some (updates, knownDatasetIds) =>
          fetchAllUpdates monthApi rest (fst state ++ updates, knownDatasetIds)
      | None => None
      end
  end.

Definition fetchDatasetMetadata
  (metadataApi : string -> option DatagouvDataset.t) (datasetId : string)
  : option DatagouvDataset.t :=
  metadataApi datasetId.

(** [fetchMissingMetadata(newDatasetIds, existingDatasets)] *)
Definition fetchMissingMetadata
  (metadataApi : string -> option DatagouvDataset.t)
  (newDatasetIds : StrSet) (existingDatasets : Map DatasetSummary.t)
  : Map DatagouvDataset.t :=
  let missingIds :=
    filter (fun id => negb (Map_has existingDatasets id)) newDatasetIds in
  fold_left
    (fun metadataMap datasetId =>
       match fetchDatasetMetadata metadataApi datasetId with
       | Some metadata => Map_set metadataMap datasetId metadata
       | None => metadataMap
       end)
    missingIds [].

(** ** Merge *)

Definition zeroCounts : Counts.t := Counts.mk 0 0.

(** "Charger l'existant": each stored month is put in the map. *)
Definition loadMonth (monthMap : Map Counts.t) (stat : MonthlyStats.t)
  : Map Counts.t :=
  Map_set monthMap (MonthlyStats.month stat)
    (Counts.mk (MonthlyStats.visits stat) (MonthlyStats.downloads stat)).

(** "Ajouter/fusionner les nouvelles données": the counts of an update are
    added to those of its month. *)
Definition addUpdate (monthMap : Map Counts.t)
  (update : DatasetMonthlyUpdate.t) : Map Counts.t :=
  let current :=
    match Map_get monthMap (DatasetMonthlyUpdate.month update) with
    | Some c => c
    | None => zeroCounts
    end in
  Map_set monthMap (DatasetMonthlyUpdate.month update)
    (Counts.mk
       (Counts.visits current + DatasetMonthlyUpdate.visits update)
       (Counts.downloads current + DatasetMonthlyUpdate.downloads update)).

Definition toMonthlyStats (entry : string * Counts.t) : MonthlyStats.t :=
  MonthlyStats.mk (fst entry) (Counts.visits (snd entry))
    (Counts.downloads (snd entry)).

(** [a.reduce((sum, m) => sum + m.visits, 0)] and its twin. *)
Definition sumVisits (monthlyStats : list MonthlyStats.t) : Z :=
  fold_left (fun sum m => sum + MonthlyStats.visits m) monthlyStats 0.

Definition sumDownloads (monthlyStats : list MonthlyStats.t) : Z :=
  fold_left (fun sum m => sum + MonthlyStats.downloads m) monthlyStats 0.

Definition firstMonthOf (monthlyStats : list MonthlyStats.t) : string :=
  match monthlyStats with
  | first :: _ => str_or (MonthlyStats.month first) ""
  | [] => ""%string
  end.

Definition lastMonthOf (monthlyStats : list MonthlyStats.t) : string :=
  match rev monthlyStats with
  | last :: _ => str_or (MonthlyStats.month last) ""
  | [] => ""%string
  end.

Definition organizationName (metadata : DatagouvDataset.t) : string :=
  opt_field_or (DatagouvDataset.organization metadata) Organization.name
    "Inconnu".

Definition organizationIdOf (metadata : DatagouvDataset.t) : string :=
  opt_field_or (DatagouvDataset.organization metadata) Organization.id "".

Definition datasetUrl (metadata : DatagouvDataset.t) : string :=
  str_or (DatagouvDataset.page metadata)
    ("https://www.data.gouv.fr/fr/datasets/"
       +++ DatagouvDataset.slug metadata +++ "/").

Definition loadDatasetStats (fs : Files.t) (datasetId : string)
  : option DatasetStats.t :=
  Map_get (Files.datasets_dir fs) datasetId.

(** The map of a merge: the existing series is loaded, then the updates
    are added. *)
Definition mergedMap (series : list MonthlyStats.t)
  (updates : list DatasetMonthlyUpdate.t) : Map Counts.t :=
  let monthMap := fold_left loadMonth series [] in
  fold_left addUpdate updates monthMap.

Section WithCollation.

Variable localeCompare : option string -> string -> string -> Z.

Definition byMonth (a b : string * Counts.t) : Z :=
  localeCompare None (fst a) (fst b).

(** The end of both merges: the map is written as a list sorted by
    month. *)
Definition written (monthMap : Map Counts.t) : list MonthlyStats.t :=
  map toMonthlyStats (sort byMonth monthMap).

(** [mergeMonthlyData(existing, newUpdates)] *)
Definition mergeMonthlyData (existing : list MonthlyStats.t)
  (newUpdates : list DatasetMonthlyUpdate.t) : list MonthlyStats.t :=
  written (mergedMap existing newUpdates).

(** [updateGlobalStats(existing, allUpdates, totalDatasets)] *)
Definition updateGlobalStats (lastUpdate : string) (existing : GlobalStats.t)
  (allUpdates : list DatasetMonthlyUpdate.t) (totalDatasets : Z)
  : GlobalStats.t :=
  let mergedMonthly :=
    mergeMonthlyData (GlobalStats.monthlyStats existing) allUpdates in
  GlobalStats.mk (sumVisits mergedMonthly) (sumDownloads mergedMonthly)
    totalDatasets (GlobalStats.startDate existing) lastUpdate mergedMonthly.

(** [updateDatasetStats(datasetId, newData, metadata)]; [existing] is the
    result of [loadDatasetStats(datasetId)].  The function has the two loops
    and the sort of [mergeMonthlyData], run on the stored series of the
    dataset and on the updates of the dataset. *)
Definition updateDatasetStats (existing : option DatasetStats.t)
  (datasetId : string) (newData : list DatasetMonthlyUpdate.t)
  (metadata : DatagouvDataset.t) : DatasetStats.t :=
  let series :=
    match existing with
    | Some stats => DatasetStats.monthlyStats stats
    | None => []
    end in
  let monthlyStats :=
    written
      (mergedMap series
         (filter
            (fun u => (DatasetMonthlyUpdate.datasetId u =? datasetId)%string)
            newData)) in
  DatasetStats.mk
    datasetId
    (DatagouvDataset.title metadata)
    (DatagouvDataset.slug metadata)
    (organizationName metadata)
    (organizationIdOf metadata)
    (datasetUrl metadata)
    (sumVisits monthlyStats)
    (sumDownloads monthlyStats)
    monthlyStats
    (firstMonthOf monthlyStats)
    (lastMonthOf monthlyStats).

End WithCollation.

(** ** Rankings recomputed from the per-dataset files *)

Definition getMonthsAgo (now : Date) (n : Z) : string :=
  let date := setMonth now (getMonth now - n) in
  toISOString_slice_0_7 date.

(** [getStatsForPeriod(stats, startMonth, endMonth)] *)
Definition getStatsForPeriod (stats : DatasetStats.t)
  (startMonth endMonth : string) : Counts.t :=
  fold_left
    (fun acc m =>
       if str_ge (MonthlyStats.month m) startMonth
          && str_le (MonthlyStats.month m) endMonth
       then Counts.mk (Counts.visits acc + MonthlyStats.visits m)
                      (Counts.downloads acc + MonthlyStats.downloads m)
       else acc)
    (DatasetStats.monthlyStats stats) zeroCounts.

Definition trendOf (value previousValue : Z) : number :=
  if 0 <? previousValue
  then ((number_of_Z value - number_of_Z previousValue)
        / number_of_Z previousValue * number_of_Z 100)%float
  else number_of_Z 0.

Definition createRanking (stats : DatasetStats.t)
  (value previousValue rank : Z) : DatasetRanking.t :=
  DatasetRanking.mk
    (DatasetStats.id stats)
    (DatasetStats.title stats)
    (DatasetStats.slug stats)
    (DatasetStats.organization stats)
    (DatasetStats.organizationId stats)
    value
    previousValue
    (trendOf value previousValue)
    rank.

Module PeriodConfig.
Record t : Type := mk
  { start : string;
    prevStart : string;
    prevEnd : string }.
End PeriodConfig.

Definition periods (now : Date) (period : Period.t) : PeriodConfig.t :=
  match period with
  | Period.week =>
      PeriodConfig.mk (getMonthsAgo now 0) (getMonthsAgo now 1)
        (getMonthsAgo now 1)
  | Period.month =>
      PeriodConfig.mk (getMonthsAgo now 1) (getMonthsAgo now 2)
        (getMonthsAgo now 2)
  | Period.year =>
      PeriodConfig.mk (getMonthsAgo now 12) (getMonthsAgo now 24)
        (getMonthsAgo now 13)
  | Period.allTime => PeriodConfig.mk "2022-07" "2022-07" "2022-07"
  end.

Definition isAllTime (period : Period.t) : bool :=
  match period with
  | Period.allTime => true
  | _ => false
  end.

Module WithStats.
Record t : Type := mk
  { stats : DatasetStats.t;
    current : Counts.t;
    previous : Counts.t }.
End WithStats.

Definition datasetsWithStats (now : Date)
  (allDatasetStats : Map DatasetStats.t) (period : Period.t)
  : list WithStats.t :=
  let currentMonth := getCurrentMonth now in
  let periodConfig := periods now period in
  map
    (fun stats =>
       let current :=
         getStatsForPeriod stats (PeriodConfig.start periodConfig)
           currentMonth in
       let previous :=
         if negb (isAllTime period)
         then getStatsForPeriod stats (PeriodConfig.prevStart periodConfig)
                (PeriodConfig.prevEnd periodConfig)
         else zeroCounts in
       WithStats.mk stats current previous)
    (Map_values allDatasetStats).

Definition metricOf (k : Metric.t) (c : Counts.t) : Z :=
  match k with
  | Metric.visits => Counts.visits c
  | Metric.downloads => Counts.downloads c
  end.

Definition byCurrent (k : Metric.t) (a b : WithStats.t) : Z :=
  metricOf k (WithStats.current b) - metricOf k (WithStats.current a).

Definition topBy (k : Metric.t) (withStats : list WithStats.t)
  : list DatasetRanking.t :=
  let sorted :=
    slice0 TOP_DATASETS_COUNT (sort (byCurrent k) withStats) in
  mapi
    (fun d i =>
       createRanking (WithStats.stats d)
         (metricOf k (WithStats.current d))
         (metricOf k (WithStats.previous d)) (i + 1))
    sorted.

Definition topOfPeriod (now : Date) (allDatasetStats : Map DatasetStats.t)
  (period : Period.t) : PeriodRankings.t :=
  let withStats := datasetsWithStats now allDatasetStats period in
  PeriodRankings.mk (topBy Metric.visits withStats)
    (topBy Metric.downloads withStats).

(** [recalculateTopDatasets(allDatasetStats)] *)
Definition recalculateTopDatasets (now : Date) (lastUpdate : string)
  (allDatasetStats : Map DatasetStats.t) : TopDatasetsData.t :=
  TopDatasetsData.mk lastUpdate
    (topOfPeriod now allDatasetStats Period.week)
    (topOfPeriod now allDatasetStats Period.month)
    (topOfPeriod now allDatasetStats Period.year)
    (topOfPeriod now allDatasetStats Period.allTime).

(** ** Directory *)

Definition summaryOf (entry : string * DatagouvDataset.t)
  : DatasetSummary.t :=
  DatasetSummary.mk
    (fst entry)
    (DatagouvDataset.title (snd entry))
    (DatagouvDataset.slug (snd entry))
    (organizationName (snd entry))
    (organizationIdOf (snd entry)).

Section WithCollationOutputs.

Variable localeCompare : option string -> string -> string -> Z.

Definition byTitle (a b : DatasetSummary.t) : Z :=
  localeCompare (Some "fr"%string) (DatasetSummary.title a)
    (DatasetSummary.title b).

(** [updateDatasetsIndex(existing, newMetadata)] *)
Definition updateDatasetsIndex (lastUpdate : string)
  (existing : option DatasetsIndex.t) (newMetadata : Map DatagouvDataset.t)
  : DatasetsIndex.t :=
  let datasetsMap :=
    match existing with
    | Some index =>
        fold_left
          (fun m dataset => Map_set m (DatasetSummary.id dataset) dataset)
          (DatasetsIndex.datasets index) []
    | None => []
    end in
  let datasetsMap' :=
    fold_left
      (fun m entry => Map_set m (fst entry) (summaryOf entry))
      newMetadata datasetsMap in
  DatasetsIndex.mk lastUpdate (sort byTitle (Map_values datasetsMap')).

(** ** Main *)

(** The ids of the existing directory, as [loadExistingData] collects
    them. *)
Definition existingDatasetIdsOf (datasetsIndex : option DatasetsIndex.t)
  : StrSet :=
  match datasetsIndex with
  | Some index =>
      fold_left (fun s dataset => Set_add s (DatasetSummary.id dataset))
        (DatasetsIndex.datasets index) []
  | None => []
  end.

Definition existingDatasetsMapOf (datasetsIndex : option DatasetsIndex.t)
  : Map DatasetSummary.t :=
  match datasetsIndex with
  | Some index =>
      fold_left (fun m ds => Map_set m (DatasetSummary.id ds) ds)
        (DatasetsIndex.datasets index) []
  | None => []
  end.

(** The minimal metadata object rebuilt in step 7 from an existing
    per-dataset file; the fields that the cast leaves undefined are not
    read afterwards. *)
Definition metadataOfExisting (existing : DatasetStats.t)
  : DatagouvDataset.t :=
  DatagouvDataset.mk
    (DatasetStats.id existing)
    (DatasetStats.title existing)
    (DatasetStats.slug existing)
    ""
    (DatasetStats.url existing)
    (if (DatasetStats.organization existing =? "")%string then None
     else Some (Organization.mk (DatasetStats.organizationId existing)
                  (DatasetStats.organization existing) "" ""))
    (DatagouvMetrics.mk 0 0 0 0)
    ""
    "".

(** Step 7: body of the loop over [datasetsToUpdate]. *)
Definition updateOneDataset (options : SyncOptions.t)
  (metadataApi : string -> option DatagouvDataset.t)
  (newMetadata : Map DatagouvDataset.t)
  (allUpdates : list DatasetMonthlyUpdate.t)
  (fs : Files.t) (datasetId : string) : Files.t :=
  let metadata :=
    match Map_get newMetadata datasetId with
    | Some metadata => Some metadata
    | None =>
        match loadDatasetStats fs datasetId with
        | Some existing => Some (metadataOfExisting existing)
        | None => fetchDatasetMetadata metadataApi datasetId
        end
    end in
  match metadata with
  | Some metadata =>
      let updatedStats :=
        updateDatasetStats localeCompare (loadDatasetStats fs datasetId)
          datasetId allUpdates metadata in
      writeJsonFile (dataset_json datasetId updatedStats) options fs
  | None => fs
  end.

Definition datasetsToUpdateOf (allUpdates : list DatasetMonthlyUpdate.t)
  : StrSet :=
  fold_left (fun s u => Set_add s (DatasetMonthlyUpdate.datasetId u))
    allUpdates [].

(** How a run ends. *)
Inductive Exit : Type :=
| fatalError   (** [process.exit(1)] *)
| upToDate     (** "Aucune nouvelle donnée disponible": early return *)
| synchronised.

(** Steps 3 to 9 of [main], once the months to fetch are known. *)
Definition synchronise (options : SyncOptions.t) (now : Date)
  (lastUpdate : string)
  (monthApi : string -> list (option MetricApiDatasetResponse.t))
  (metadataApi : string -> option DatagouvDataset.t)
  (fs : Files.t) (globalStats : GlobalStats.t)
  (monthsToFetch : list string) : Exit * Files.t :=
  let datasetsIndex := Files.datasets_index fs in
  let existingDatasetIds := existingDatasetIdsOf datasetsIndex in
  match fetchAllUpdates monthApi monthsToFetch ([], existingDatasetIds) with
  | None => (fatalError, fs)
  | Some (allUpdates, knownDatasetIds) =>
      let existingDatasetsMap := existingDatasetsMapOf datasetsIndex in
      let newDatasetIds :=
        filter (fun id => negb (Set_has existingDatasetIds id))
          knownDatasetIds in
      let newMetadata :=
        fetchMissingMetadata metadataApi newDatasetIds existingDatasetsMap in
      let updatedGlobalStats :=
        updateGlobalStats localeCompare lastUpdate globalStats allUpdates
          (Set_size knownDatasetIds) in
      let updatedIndex :=
        updateDatasetsIndex lastUpdate datasetsIndex newMetadata in
      let fs7 :=
        fold_left (updateOneDataset options metadataApi newMetadata allUpdates)
          (datasetsToUpdateOf allUpdates) fs in
      let allDatasetStatsMap := Files.readdir fs7 in
      let updatedTopDatasets :=
        recalculateTopDatasets now lastUpdate allDatasetStatsMap in
      let fs9a :=
        writeJsonFile (global_stats_json updatedGlobalStats) options fs7 in
      let fs9b :=
        writeJsonFile (top_datasets_json updatedTopDatasets) options fs9a in
      let fs9c :=
        writeJsonFile (datasets_index_json updatedIndex) options fs9b in
      (synchronised,
       fold_left
         (fun fs entry =>
            writeJsonFile (dataset_json (fst entry) (snd entry)) options fs)
         allDatasetStatsMap fs9c)
  end.

(** [main()]: the exit and the files after the run. *)
Definition main (options : SyncOptions.t) (now : Date) (lastUpdate : string)
  (monthApi : string -> list (option MetricApiDatasetResponse.t))
  (metadataApi : string -> option DatagouvDataset.t)
  (fs : Files.t) : loop (Exit * Files.t) :=
  match Files.global_stats fs with
  | None => Done (fatalError, fs)
  | Some globalStats =>
      match rev (GlobalStats.monthlyStats globalStats) with
      | [] => Done (fatalError, fs)
      | last :: _ =>
          let lastMonth := MonthlyStats.month last in
          match getMonthsToFetch lastMonth (getCurrentMonth now) with
          | Done [] => Done (upToDate, fs)
          | Done monthsToFetch =>
              Done (synchronise options now lastUpdate monthApi metadataApi
                      fs globalStats monthsToFetch)
          | Undefined => Undefined
          | OutOfFuel => OutOfFuel
          end
      end
  end.

End WithCollationOutputs.

End SyncIncremental.

(* ================================================================== *)
(** * Vocabulary of the statements *)
(* ================================================================== *)

Module Spec.
Import JS.

Definition Zsum (l : list Z) : Z := fold_right Z.add 0 l.

(** A list of bindings is a [Map] when no key occurs twice. *)
Definition Map_wf {V : Type} (m : Map V) : Prop := NoDup (Map_keys m).

(** Sum of two pairs of counts, and of a list of them. *)
Definition plus (a b : Counts.t) : Counts.t :=
  Counts.mk (Counts.visits a + Counts.visits b)
    (Counts.downloads a + Counts.downloads b).

Definition zero : Counts.t := Counts.mk 0 0.

Definition sumCounts (l : list Counts.t) : Counts.t :=
  fold_right plus zero l.

(** The counts bound to [k], zero when [k] is absent. *)
Definition countsAt (m : Map Counts.t) (k : string) : Counts.t :=
  match Map_get m k with
  | Some c => c
  | None => zero
  end.

(** The bindings of [k] in a list of bindings. *)
Definition bindingsOf {V : Type} (k : string) (l : list (string * V))
  : list V :=
  map snd (filter (fun e => (fst e =? k)%string) l).

(** The entries of the pages that a paging loop reads: it stops after the
    first page without a [next] link. *)
Fixpoint entriesRead (responses : list (option MetricApiDatasetResponse.t))
  : list MetricApiDatasetEntry.t :=
  match responses with
  | Some response :: rest =>
      MetricApiDatasetResponse.data response
        ++ match MetricApiLinks.next
                   (MetricApiDatasetResponse.links response) with
           | Some _ => entriesRead rest
           | None => []
           end
  | _ => []
  end.

(** The visits and downloads that a dataset records for a month. *)
Definition visitsOf (d : SyncStats.DatasetMetrics.t) (m : string) : Z :=
  Counts.visits (countsAt (SyncStats.DatasetMetrics.monthlyStats d) m).

Definition downloadsOf (d : SyncStats.DatasetMetrics.t) (m : string) : Z :=
  Counts.downloads (countsAt (SyncStats.DatasetMetrics.monthlyStats d) m).

(** The record of month [m] in a stored series: the last one, should the
    month occur several times. *)
Definition recordOf (series : list MonthlyStats.t) (m : string)
  : option MonthlyStats.t :=
  List.find (fun s => (MonthlyStats.month s =? m)%string) (rev series).

Definition visitsIn (series : list MonthlyStats.t) (m : string) : Z :=
  match recordOf series m with
  | Some s => MonthlyStats.visits s
  | None => 0
  end.

Definition downloadsIn (series : list MonthlyStats.t) (m : string) : Z :=
  match recordOf series m with
  | Some s => MonthlyStats.downloads s
  | None => 0
  end.

Definition seriesOf (existing : option DatasetStats.t)
  : list MonthlyStats.t :=
  match existing with
  | Some stats => DatasetStats.monthlyStats stats
  | None => []
  end.

(** The updates of a batch that concern a dataset and a month, and the sums
    of their counts. *)
Definition updatesFor (datasetId m : string)
  (newData : list SyncIncremental.DatasetMonthlyUpdate.t)
  : list SyncIncremental.DatasetMonthlyUpdate.t :=
  filter
    (fun u =>
       (SyncIncremental.DatasetMonthlyUpdate.datasetId u =? datasetId)%string
       && (SyncIncremental.DatasetMonthlyUpdate.month u =? m)%string)
    newData.

Definition newVisits (datasetId m : string)
  (newData : list SyncIncremental.DatasetMonthlyUpdate.t) : Z :=
  Zsum (map SyncIncremental.DatasetMonthlyUpdate.visits
          (updatesFor datasetId m newData)).

Definition newDownloads (datasetId m : string)
  (newData : list SyncIncremental.DatasetMonthlyUpdate.t) : Z :=
  Zsum (map SyncIncremental.DatasetMonthlyUpdate.downloads
          (updatesFor datasetId m newData)).

(** The counts of a stored record and of an update. *)
Definition countsOfRecord (s : MonthlyStats.t) : Counts.t :=
  Counts.mk (MonthlyStats.visits s) (MonthlyStats.downloads s).

Definition countsOfUpdate (u : SyncIncremental.DatasetMonthlyUpdate.t)
  : Counts.t :=
  Counts.mk (SyncIncremental.DatasetMonthlyUpdate.visits u)
    (SyncIncremental.DatasetMonthlyUpdate.downloads u).

(** The updates of a batch for a month, whatever the dataset. *)
Definition updatesOfMonth (m : string)
  (updates : list SyncIncremental.DatasetMonthlyUpdate.t)
  : list SyncIncremental.DatasetMonthlyUpdate.t :=
  filter
    (fun u => (SyncIncremental.DatasetMonthlyUpdate.month u =? m)%string)
    updates.

(** A month is in a window when it is neither before its start nor after
    its end, as strings. *)
Definition inWindow (startMonth endMonth : string)
  (entry : string * Counts.t) : bool :=
  str_ge (fst entry) startMonth && str_le (fst entry) endMonth.

(** Months as numbers: the month [mm] (1 to 12) of year [y] has index
    [12 * y + mm - 1], and is written "YYYY-MM". *)
Definition formatMonth (y mm : Z) : string :=
  pad4 y +++ "-" +++ pad2 mm.

Definition monthOfIndex (i : Z) : string :=
  formatMonth (i / 12) (i mod 12 + 1).

(** The indices of the months written with a four-digit year from 0100 on,
    the last of them left out so that the next month can still be written:
    0100-01 to 9999-11. *)
Definition validIndex (i : Z) : Prop := 1200 <= i < 119999.

(** [n] consecutive integers from [i]. *)
Fixpoint Zseq (i : Z) (n : nat) : list Z :=
  match n with
  | O => []
  | S n' => i :: Zseq (i + 1) n'
  end.

(** The months after the month of index [i] up to the month of index [j]. *)
Definition monthsBetween (i j : Z) : list string :=
  map monthOfIndex (Zseq (i + 1) (Z.to_nat (j - i))).

Definition str_lt (a b : string) : bool := negb (str_le b a).

(** A consistent comparator, as [Array.prototype.sort] expects: swapping
    the arguments swaps the sign, and "not after" is transitive. *)
Definition consistent {A : Type} (compareFn : A -> A -> Z) : Prop :=
  (forall a b, compareFn a b < 0 <-> 0 < compareFn b a)
  /\ (forall a b c,
        compareFn a b <= 0 -> compareFn b c <= 0 -> compareFn a c <= 0).

End Spec.

(* ================================================================== *)
(** * A model of collation *)
(* ================================================================== *)

(** A model of collation, for the examples: accents and case are ignored
    (the primary strength of the French collation) and the folded strings
    are compared by code units. *)
Module Collation.

Definition sign (c : comparison) : Z :=
  match c with
  | Lt => -1
  | Eq => 0
  | Gt => 1
  end.

(** Comparison by code units, whatever the locale. *)
Definition codeUnits (locales : option string) (a b : string) : Z :=
  sign (String.compare a b).

Definition between (lo hi n : nat) : bool :=
  (Nat.leb lo n && Nat.leb n hi)%bool.

(** The base letter of the Latin-1 letter whose UTF-8 encoding is 0xC3
    followed by [c]. *)
Definition baseLetter (c : ascii) : ascii :=
  let n := nat_of_ascii c in
  if between 128 133 n then "A"%char
  else if Nat.eqb n 135 then "C"%char
  else if between 136 139 n then "E"%char
  else if between 140 143 n then "I"%char
  else if between 146 150 n then "O"%char
  else if between 153 156 n then "U"%char
  else if between 160 165 n then "a"%char
  else if Nat.eqb n 167 then "c"%char
  else if between 168 171 n then "e"%char
  else if between 172 175 n then "i"%char
  else if between 178 182 n then "o"%char
  else if between 185 188 n then "u"%char
  else c.

Fixpoint unaccent (s : string) : string :=
  match s with
  | EmptyString => EmptyString
  | String a t =>
      match t with
      | String b rest =>
          if Nat.eqb (nat_of_ascii a) 195
          then String (baseLetter b) (unaccent rest)
          else String a (unaccent t)
      | EmptyString => String a EmptyString
      end
  end.

Definition lower (c : ascii) : ascii :=
  let n := nat_of_ascii c in
  if between 65 90 n then ascii_of_nat (n + 32) else c.

Fixpoint lowercase (s : string) : string :=
  match s with
  | EmptyString => EmptyString
  | String a t => String (lower a) (lowercase t)
  end.

Definition key (s : string) : string := lowercase (unaccent s).

Definition primary (locales : option string) (a b : string) : Z :=
  sign (String.compare (key a) (key b)).

End Collation.

(* ================================================================== *)
(** * Sample data *)
(* ================================================================== *)

Module Sample.
Import JS.
Local Open Scope string_scope.

Definition entry (datasetId month : string) (visits : Z)
  (downloads : option Z) : MetricApiDatasetEntry.t :=
  MetricApiDatasetEntry.mk 0 datasetId month visits downloads.

Definition page (entries : list MetricApiDatasetEntry.t)
  (next : option string) : option MetricApiDatasetResponse.t :=
  Some (MetricApiDatasetResponse.mk entries (MetricApiLinks.mk next None)
          (MetricApiMeta.mk 1 50 3)).

(** The dataset E of the worked example, served on two pages; its first
    month has no download count. *)
Definition januaryE : MetricApiDatasetEntry.t := entry "E" "2024-01" 10 None.

Definition responsesE : list (option MetricApiDatasetResponse.t) :=
  [page [januaryE; entry "E" "2024-02" 20 (Some 5)] (Some "page=2");
   page [entry "E" "2024-03" 30 (Some 7)] None].

Definition metricsE : SyncStats.DatasetMetrics.t :=
  SyncStats.DatasetMetrics.mk "E"
    [("2024-01", Counts.mk 10 0); ("2024-02", Counts.mk 20 5);
     ("2024-03", Counts.mk 30 7)]
    60 12.

Definition metricsF : SyncStats.DatasetMetrics.t :=
  SyncStats.DatasetMetrics.mk "F"
    [("2024-02", Counts.mk 4 1); ("2024-03", Counts.mk 30 2)] 34 3.

(** A dataset whose metadata cannot be fetched. *)
Definition metricsG : SyncStats.DatasetMetrics.t :=
  SyncStats.DatasetMetrics.mk "G" [("2024-03", Counts.mk 5 5)] 5 5.

Definition allMetrics : list SyncStats.DatasetMetrics.t :=
  [metricsE; metricsG; metricsF].

Definition dataset (id title : string) (organization : option Organization.t)
  : DatagouvDataset.t :=
  DatagouvDataset.mk id title id "" "" organization
    (DatagouvMetrics.mk 0 0 0 0) "" "".

Definition insee : Organization.t := Organization.mk "o1" "INSEE" "insee" "".

Definition datasetE : DatagouvDataset.t := dataset "E" "Élection" None.
Definition datasetF : DatagouvDataset.t :=
  dataset "F" "Agriculture" (Some insee).

Definition metadataApi (datasetId : string) : option DatagouvDataset.t :=
  if datasetId =? "E" then Some datasetE
  else if datasetId =? "F" then Some datasetF
  else None.

Definition metadataMap : Map DatagouvDataset.t :=
  [("E", datasetE); ("F", datasetF)].

(** The three titles of the collation example, with their datasets. *)
Definition titledMap : Map DatagouvDataset.t :=
  [("E", datasetE); ("F", datasetF); ("H", dataset "H" "Énergie" None)].

(** The 15th and the 31st of March 2024. *)
Definition now : Date := mkDate 2024 2 15.

Definition endOfMarch : Date := mkDate 2024 2 31.

Definition lastUpdate : string := "2024-03-15T06:00:00.000Z".

(** The stored record of E before the merge of April 2024, and a batch for
    April 2024 in which E occurs twice. *)
Definition statsE : DatasetStats.t :=
  DatasetStats.mk "E" "Élection" "E" "Inconnu" "" ""
    60 12
    [MonthlyStats.mk "2024-01" 10 0; MonthlyStats.mk "2024-02" 20 5;
     MonthlyStats.mk "2024-03" 30 7]
    "2024-01" "2024-03".

Definition april : list SyncIncremental.DatasetMonthlyUpdate.t :=
  [SyncIncremental.DatasetMonthlyUpdate.mk "E" "2024-04" 40 3;
   SyncIncremental.DatasetMonthlyUpdate.mk "F" "2024-04" 8 1;
   SyncIncremental.DatasetMonthlyUpdate.mk "E" "2024-04" 2 0].

(** Files whose global series ends with March 2024. *)
Definition marchRecord : MonthlyStats.t := MonthlyStats.mk "2024-03" 65 14.

Definition globalStats : GlobalStats.t :=
  GlobalStats.mk 99 20 3 "2024-01" "2024-03-02T06:00:00.000Z"
    [MonthlyStats.mk "2024-01" 10 0; MonthlyStats.mk "2024-02" 24 6;
     marchRecord].

Definition files : Files.t :=
  Files.mk (Some globalStats) None None [("E", statsE)].

Definition options : SyncOptions.t := SyncOptions.mk false false None.

Definition monthApi (month : string)
  : list (option MetricApiDatasetResponse.t) :=
  [page [entry "E" month 40 (Some 3)] None].

End Sample.

(* ================================================================== *)
(** * [fetchWithRetry] (both scripts) *)
(* ================================================================== *)

Module Retry.

(** How a call of [fetchWithRetry] ends: with the body of a response, with
    the error of the last attempt, or with the error thrown after the
    loop. *)
Inductive result (T : Type) : Type :=
| Returned (body : T)
| Rethrown
| Unreachable.
Arguments Returned {T} body.
Arguments Rethrown {T}.
Arguments Unreachable {T}.

(** The loop of [fetchWithRetry(url, retries)] from iteration [i], with
    [remaining] iterations to go.  [attempt j] is the outcome of the [try]
    block of iteration [j]: the parsed body, or [None] when [fetch] throws
    or the response is not ok.  The second component lists the delays given
    to [sleep], in milliseconds. *)
Fixpoint fetchWithRetry_from {T : Type} (attempt : Z -> option T)
  (retries : Z) (remaining : nat) (i : Z) : result T * list Z :=
  match remaining with
  | O => (Unreachable, [])
  | S remaining' =>
      match attempt i with
      | Some body => (Returned body, [])
      | None =>
          if i =? retries - 1 then (Rethrown, [])
          else
            let next := fetchWithRetry_from attempt retries remaining' (i + 1)
            in (fst next, 1000 * (i + 1) :: snd next)
      end
  end.

Definition fetchWithRetry {T : Type} (attempt : Z -> option T) (retries : Z)
  : result T * list Z :=
  fetchWithRetry_from attempt retries (Z.to_nat retries) 0.

(** What the callers see: the body, or an exception. *)
Definition outcome {T : Type} (r : result T * list Z) : option T :=
  match fst r with
  | Returned body => Some body
  | _ => None
  end.

End Retry.

(* ================================================================== *)
(** * Further vocabulary *)
(* ================================================================== *)

Module More.
Import JS Spec.

(** The delays of [k] failed attempts that are followed by another
    attempt: 1000, 2000, ... *)
Definition delays (k : nat) : list Z :=
  map (fun j => 1000 * (j + 1)) (Zseq 0 k).

Definition isSome {A : Type} (o : option A) : bool :=
  match o with
  | Some _ => true
  | None => false
  end.

(** Sums over a stored series. *)
Definition seriesVisits (series : list MonthlyStats.t) : Z :=
  Zsum (map MonthlyStats.visits series).

Definition seriesDownloads (series : list MonthlyStats.t) : Z :=
  Zsum (map MonthlyStats.downloads series).

(** The stored value of a download count. *)
Definition downloadsOfEntry (entry : MetricApiDatasetEntry.t) : Z :=
  match MetricApiDatasetEntry.monthly_download_resource entry with
  | Some n => n
  | None => 0
  end.

(** The bindings of a stored series, as the merge loads them. *)
Definition bindingOfRecord (s : MonthlyStats.t) : string * Counts.t :=
  (MonthlyStats.month s, countsOfRecord s).

(** The index of the month of a date. *)
Definition indexOfDate (date : Date) : Z :=
  12 * getFullYear date + getMonth date.

(** A date of the calendar. *)
Definition validDate (date : Date) : Prop :=
  0 <= getMonth date <= 11
  /\ 1 <= getDate date <= daysInMonth (getFullYear date) (getMonth date).

(** The binding stored for an entry of the metric API. *)
Definition bindingOfEntry (entry : MetricApiDatasetEntry.t)
  : string * Counts.t :=
  (MetricApiDatasetEntry.metric_month entry,
   Counts.mk (MetricApiDatasetEntry.monthly_visit entry)
     (downloadsOfEntry entry)).

(** The datasets that pass the filter of [calculateTopDatasets]. *)
Definition hasMetadata (metadataMap : Map DatagouvDataset.t)
  (m : SyncStats.DatasetMetrics.t) : bool :=
  Map_has metadataMap (SyncStats.DatasetMetrics.datasetId m).

(** The entry that [recalculateTopDatasets] makes of the dataset at
    index [i] of a sorted list. *)
Definition rankingOfStats (k : Metric.t) (d : SyncIncremental.WithStats.t)
  (i : Z) : DatasetRanking.t :=
  SyncIncremental.createRanking (SyncIncremental.WithStats.stats d)
    (SyncIncremental.metricOf k (SyncIncremental.WithStats.current d))
    (SyncIncremental.metricOf k (SyncIncremental.WithStats.previous d))
    (i + 1).

(** The map that [updateDatasetsIndex] builds before it sorts. *)
Definition indexMap (existing : option DatasetsIndex.t)
  (newMetadata : Map DatagouvDataset.t) : Map DatasetSummary.t :=
  fold_left
    (fun m entry => Map_set m (fst entry) (SyncIncremental.summaryOf entry))
    newMetadata
    (match existing with
     | Some index =>
         fold_left
           (fun m dataset => Map_set m (DatasetSummary.id dataset) dataset)
           (DatasetsIndex.datasets index) []
     | None => []
     end).

Definition existingEntries (existing : option DatasetsIndex.t)
  : list DatasetSummary.t :=
  match existing with
  | Some index => DatasetsIndex.datasets index
  | None => []
  end.

(** The metadata that step 7 of the incremental [main] uses for a
    dataset: the new one, else the one rebuilt from the file of the
    dataset, else the one fetched. *)
Definition metadataFor
  (metadataApi : string -> option DatagouvDataset.t)
  (newMetadata : Map DatagouvDataset.t) (fs : Files.t) (datasetId : string)
  : option DatagouvDataset.t :=
  match Map_get newMetadata datasetId with
  | Some metadata => Some metadata
  | None =>
      match SyncIncremental.loadDatasetStats fs datasetId with
      | Some existing => Some (SyncIncremental.metadataOfExisting existing)
      | None => SyncIncremental.fetchDatasetMetadata metadataApi datasetId
      end
  end.

(** Step 7 of the incremental [main]: the loop over [datasetsToUpdate]. *)
Definition step7
  (localeCompare : option string -> string -> string -> Z)
  (options : SyncOptions.t)
  (metadataApi : string -> option DatagouvDataset.t)
  (newMetadata : Map DatagouvDataset.t)
  (allUpdates : list SyncIncremental.DatasetMonthlyUpdate.t)
  (datasetsToUpdate : StrSet) (fs : Files.t) : Files.t :=
  fold_left
    (SyncIncremental.updateOneDataset localeCompare options metadataApi
       newMetadata allUpdates)
    datasetsToUpdate fs.

(** The per-dataset record that step 5 of the full [main] writes for an
    id: none when the metrics or the metadata of the id are missing. *)
Definition detailsOf
  (localeCompare : option string -> string -> string -> Z)
  (allMetrics : list SyncStats.DatasetMetrics.t)
  (metadataMap : Map DatagouvDataset.t) (datasetId : string)
  : option DatasetStats.t :=
  match find
          (fun m =>
             (SyncStats.DatasetMetrics.datasetId m =? datasetId)%string)
          allMetrics,
        Map_get metadataMap datasetId with
  | Some metrics, Some metadata =>
      Some (SyncStats.createDatasetStats localeCompare metrics metadata)
  | _, _ => None
  end.

End More.

(* ================================================================== *)
(** * [getMonthsAgo] in a time zone *)
(* ================================================================== *)

(** [getMonthsAgo] reads and sets the month of a date in local time and
    prints the date in UTC.  Here the time zone is explicit. *)
Module Zoned.
Import JS.

Definition msPerDay : Z := 86400000.

(** A time value: its calendar date and the milliseconds since the start
    of that day. *)
Record Instant : Type := mkInstant
  { dateOf : Date;
    timeWithinDay : Z }.

Definition nextDay (date : Date) : Date :=
  MakeDate (getFullYear date) (getMonth date) (getDate date + 1).

Definition previousDay (date : Date) : Date :=
  if 1 <? getDate date
  then mkDate (getFullYear date) (getMonth date) (getDate date - 1)
  else
    let y :=
      if getMonth date =? 0 then getFullYear date - 1
      else getFullYear date in
    let m := if getMonth date =? 0 then 11 else getMonth date - 1 in
    mkDate y m (daysInMonth y m).

(** [t + offset], for an offset of less than a day either way. *)
Definition plus (t : Instant) (offset : Z) : Instant :=
  let ms := timeWithinDay t + offset in
  if ms <? 0 then mkInstant (previousDay (dateOf t)) (ms + msPerDay)
  else if ms <? msPerDay then mkInstant (dateOf t) ms
  else mkInstant (nextDay (dateOf t)) (ms - msPerDay).

(** [LocalTime(t)] and [UTC(t)] of ECMAScript, for the offset of the time
    zone in milliseconds, positive east of Greenwich. *)
Definition LocalTime (t : Instant) (offset : Z) : Instant := plus t offset.

Definition UTC (t : Instant) (offset : Z) : Instant := plus t (- offset).

(** [getMonthsAgo(months)] of both scripts:
    [const date = new Date(); date.setMonth(date.getMonth() - months);
     return date.toISOString().slice(0, 7)].
    [now] is the time value of [new Date()], in UTC; [offsetNow] is the
    offset of the time zone at [now], and [offsetThen] the offset that the
    host applies to the local time made by [setMonth]. *)
Definition getMonthsAgo (now : Instant) (offsetNow offsetThen : Z)
  (months : Z) : string :=
  let local := LocalTime now offsetNow in
  let date := setMonth (dateOf local) (getMonth (dateOf local) - months) in
  let utc := UTC (mkInstant date (timeWithinDay local)) offsetThen in
  toISOString_slice_0_7 (dateOf utc).

End Zoned.

(* ================================================================== *)
(** * Further sample data *)
(* ================================================================== *)

Module MoreSample.
Import JS Sample.
Local Open Scope string_scope.

(** A request that succeeds at its third attempt, and one that never
    does. *)
Definition flaky (i : Z) : option string :=
  if (i =? 2)%Z then Some "body" else None.

Definition down (i : Z) : option string := None.

(** The listing of the datasets: E is met twice. *)
Definition listing : list (option MetricApiDatasetResponse.t) :=
  [page [entry "E" "2024-01" 10 None; entry "F" "2024-02" 4 (Some 1)]
     (Some "page=2");
   page [entry "E" "2024-02" 20 (Some 5); entry "G" "2024-03" 5 (Some 5)]
     None].

(** The metric API per dataset: the requests for G fail. *)
Definition metricApi (datasetId : string)
  : list (option MetricApiDatasetResponse.t) :=
  if datasetId =? "E" then responsesE
  else if datasetId =? "F" then
    [page [entry "F" "2024-02" 4 (Some 1); entry "F" "2024-03" 30 (Some 2)]
       None]
  else [None].

Definition dryOptions : SyncOptions.t := SyncOptions.mk true false None.

(** The 15th of April 2024. *)
Definition midApril : Date := mkDate 2024 3 15.

(** The update of E that [Sample.monthApi] serves for April 2024. *)
Definition aprilE : SyncIncremental.DatasetMonthlyUpdate.t :=
  SyncIncremental.DatasetMonthlyUpdate.mk "E" "2024-04" 40 3.

(** A directory that lists E. *)
Definition summaryE : DatasetSummary.t :=
  DatasetSummary.mk "E" "Élection" "E" "Inconnu" "".

Definition directory : Map DatasetSummary.t := [("E", summaryE)].

(** A hundred and two datasets, all with metadata: the dataset of number
    [i] has [i / 2] visits in March 2024, so that the datasets 2 and 3 have
    one visit each. *)
Definition numbered (i : Z) : SyncStats.DatasetMetrics.t :=
  SyncStats.DatasetMetrics.mk (pad4 i) [("2024-03", Counts.mk (i / 2) 0)]
    (i / 2) 0.

Definition manyMetrics : list SyncStats.DatasetMetrics.t :=
  map numbered (Spec.Zseq 1 102).

Definition manyMetadata : Map DatagouvDataset.t :=
  map (fun i => (pad4 i, dataset (pad4 i) (pad4 i) None)) (Spec.Zseq 1 102).

(** A stored record without organization that still has an organization
    id. *)
Definition statsH : DatasetStats.t :=
  DatasetStats.mk "H" "Énergie" "energie" "" "o1"
    "https://www.data.gouv.fr/fr/datasets/energie/"
    0 0 [] "" "".

(** Files of E and Z, and an April in which a new dataset A and the
    datasets E and Z have 40 visits each. *)
Definition statsZ : DatasetStats.t :=
  DatasetStats.mk "Z" "Zoo" "Z" "Inconnu" "" "" 5 0
    [MonthlyStats.mk "2024-03" 5 0] "2024-03" "2024-03".

Definition filesEZ : Files.t :=
  Files.mk (Some globalStats) None None [("E", statsE); ("Z", statsZ)].

Definition monthApiAEZ (month : string)
  : list (option MetricApiDatasetResponse.t) :=
  [page [entry "A" month 40 None; entry "E" month 40 (Some 3);
         entry "Z" month 40 None] None].

Definition metadataApiA (datasetId : string) : option DatagouvDataset.t :=
  if datasetId =? "A" then Some (dataset "A" "Abeilles" None)
  else metadataApi datasetId.

Definition aprilAEZ : list SyncIncremental.DatasetMonthlyUpdate.t :=
  [SyncIncremental.DatasetMonthlyUpdate.mk "A" "2024-04" 40 0;
   SyncIncremental.DatasetMonthlyUpdate.mk "E" "2024-04" 40 3;
   SyncIncremental.DatasetMonthlyUpdate.mk "Z" "2024-04" 40 0].

(** 2 o'clock UTC on the 1st of March 2024, and the offset of New York in
    winter: five hours west. *)
Definition earlyMarch : Zoned.Instant :=
  Zoned.mkInstant (mkDate 2024 2 1) (2 * 3600000).

Definition newYork : Z := - (5 * 3600000).

(** Noon UTC on the 31st of March 2024. *)
Definition noonEndOfMarch : Zoned.Instant :=
  Zoned.mkInstant endOfMarch (12 * 3600000).

End MoreSample.

(* ================================================================== *)
(** * Facts about the primitives *)
(* ================================================================== *)

Module JSFacts.
Import JS Spec.

(** ** The [||] operator *)

Lemma num_or_0 (x : Z) : num_or x 0 = x.
Proof.
  unfold num_or. destruct (Z.eqb_spec x 0) as [-> | _]; reflexivity.
Qed.

Lemma opt_num_or_0 (x : option Z) :
  opt_num_or x 0 = match x with Some n => n | None => 0 end.
Proof.
  destruct x as [n | ]; simpl; [apply num_or_0 | reflexivity].
Qed.

(** ** Maps *)

Section MapFacts.
Context {V : Type}.
Implicit Types (m : Map V) (k : string) (v : V).

Lemma Map_get_set_same m k v : Map_get (Map_set m k v) k = Some v.
Proof.
  induction m as [ | [k' v'] m IH]; simpl.
  - now rewrite String.eqb_refl.
  - destruct (String.eqb_spec k' k) as [-> | Hne]; simpl.
    + now rewrite String.eqb_refl.
    + destruct (String.eqb_spec k' k); [contradiction | exact IH].
Qed.

Lemma Map_get_set_other m k k' v :
  k <> k' -> Map_get (Map_set m k v) k' = Map_get m k'.
Proof.
  intros Hne.
  induction m as [ | [k0 v0] m IH]; simpl.
  - destruct (String.eqb_spec k k'); [contradiction | reflexivity].
  - destruct (String.eqb_spec k0 k) as [-> | Hk]; simpl.
    + destruct (String.eqb_spec k k'); [contradiction | reflexivity].
    + now rewrite IH.
Qed.

Lemma Map_get_set m k k' v :
  Map_get (Map_set m k v) k'
  = if (k =? k')%string then Some v else Map_get m k'.
Proof.
  destruct (String.eqb_spec k k') as [-> | Hne].
  - apply Map_get_set_same.
  - now apply Map_get_set_other.
Qed.

Lemma Map_get_None m k : Map_get m k = None <-> ~ In k (Map_keys m).
Proof.
  induction m as [ | [k' v'] m IH]; simpl.
  - tauto.
  - destruct (String.eqb_spec k' k) as [-> | Hne].
    + split; [discriminate | intros H; exfalso; apply H; now left].
    + rewrite IH. tauto.
Qed.

Lemma Map_get_Some_In m k v : Map_get m k = Some v -> In (k, v) m.
Proof.
  induction m as [ | [k' v'] m IH]; simpl; [discriminate | ].
  destruct (String.eqb_spec k' k) as [-> | Hne].
  - intros [= ->]. now left.
  - intros H. right. now apply IH.
Qed.

Lemma In_Map_get m k v : Map_wf m -> In (k, v) m -> Map_get m k = Some v.
Proof.
  unfold Map_wf.
  induction m as [ | [k' v'] m IH]; simpl; [tauto | ].
  intros Hnd [[= -> ->] | Hin].
  - now rewrite String.eqb_refl.
  - inversion Hnd as [ | ? ? Hnotin Hnd']; subst.
    destruct (String.eqb_spec k' k) as [-> | Hne].
    + exfalso. apply Hnotin. change k with (fst (k, v)).
      now apply in_map.
    + now apply IH.
Qed.

Lemma Map_keys_set m k v :
  Map_keys (Map_set m k v)
  = if Map_has m k then Map_keys m else Map_keys m ++ [k].
Proof.
  unfold Map_has.
  induction m as [ | [k' v'] m IH]; simpl; [reflexivity | ].
  destruct (String.eqb_spec k' k) as [-> | Hne]; simpl; [reflexivity | ].
  rewrite IH. now destruct (Map_get m k).
Qed.

Lemma In_Map_keys_set m k v k' :
  In k' (Map_keys (Map_set m k v)) <-> k' = k \/ In k' (Map_keys m).
Proof.
  rewrite Map_keys_set. unfold Map_has.
  destruct (Map_get m k) as [v0 | ] eqn:Hget.
  - split; [tauto | ]. intros [-> | H]; [ | exact H].
    apply Map_get_Some_In in Hget. change k with (fst (k, v0)).
    now apply in_map.
  - rewrite in_app_iff. simpl. intuition.
Qed.

Lemma Map_set_wf m k v : Map_wf m -> Map_wf (Map_set m k v).
Proof.
  unfold Map_wf. intros Hnd. rewrite Map_keys_set. unfold Map_has.
  destruct (Map_get m k) eqn:Hget; [exact Hnd | ].
  apply Map_get_None in Hget.
  apply NoDup_rev in Hnd. rewrite <- (rev_involutive (_ ++ _)).
  apply NoDup_rev. rewrite rev_app_distr. simpl.
  constructor; [ | exact Hnd]. now rewrite <- in_rev.
Qed.

Lemma Map_wf_perm m m' : Permutation m m' -> Map_wf m -> Map_wf m'.
Proof.
  unfold Map_wf, Map_keys. intros Hp.
  apply Permutation_NoDup. now apply Permutation_map.
Qed.

Lemma Map_get_perm m m' k :
  Map_wf m -> Permutation m m' -> Map_get m' k = Map_get m k.
Proof.
  intros Hwf Hp.
  assert (Hwf' : Map_wf m') by now apply (Map_wf_perm m).
  destruct (Map_get m k) as [v | ] eqn:Hget.
  - apply In_Map_get; [exact Hwf' | ].
    apply (Permutation_in _ Hp). now apply Map_get_Some_In.
  - apply Map_get_None. apply Map_get_None in Hget.
    intros Hin. apply Hget. unfold Map_keys in *.
    apply (Permutation_in _ (Permutation_map fst (Permutation_sym Hp))).
    exact Hin.
Qed.

(** Under well-formedness a key has at most one binding. *)
Lemma bindingsOf_wf m k :
  Map_wf m ->
  bindingsOf k m = match Map_get m k with Some v => [v] | None => [] end.
Proof.
  unfold Map_wf, bindingsOf.
  induction m as [ | [k' v'] m IH]; simpl; [reflexivity | ].
  intros Hnd. inversion Hnd as [ | ? ? Hnotin Hnd']; subst.
  destruct (String.eqb_spec k' k) as [-> | Hne]; simpl.
  - f_equal. rewrite (IH Hnd').
    apply Map_get_None in Hnotin. now rewrite Hnotin.
  - now apply IH.
Qed.
End MapFacts.

Lemma Map_wf_nil {V : Type} : Map_wf (@nil (string * V)).
Proof. constructor. Qed.

(** ** Sorting *)

Section SortFacts.
Context {A : Type}.
Variable compareFn : A -> A -> Z.

Lemma insert_perm (x : A) (l : list A) :
  Permutation (insert compareFn x l) (x :: l).
Proof.
  induction l as [ | y l IH]; simpl; [reflexivity | ].
  destruct (compareFn x y <=? 0); [reflexivity | ].
  rewrite IH. apply perm_swap.
Qed.

Lemma sort_perm (l : list A) : Permutation (sort compareFn l) l.
Proof.
  induction l as [ | x l IH]; simpl; [reflexivity | ].
  rewrite insert_perm. now constructor.
Qed.

Lemma sort_In (l : list A) (x : A) : In x (sort compareFn l) <-> In x l.
Proof.
  split; apply Permutation_in;
    [apply sort_perm | apply Permutation_sym, sort_perm].
Qed.

Lemma sort_length (l : list A) :
  List.length (sort compareFn l) = List.length l.
Proof. apply Permutation_length, sort_perm. Qed.

(** Stability: the elements of a class that the comparator does not
    separate keep their relative order. *)
Lemma insert_filter (p : A -> bool) (x : A) (l : list A) :
  (forall a b, p a = true -> p b = true -> compareFn a b <= 0) ->
  filter p (insert compareFn x l) = filter p (x :: l).
Proof.
  intros Htie.
  induction l as [ | y l IH]; [reflexivity | ].
  simpl insert. destruct (Z.leb_spec (compareFn x y) 0) as [Hle | Hgt].
  - reflexivity.
  - simpl filter at 1. rewrite IH. simpl.
    destruct (p x) eqn:Hx, (p y) eqn:Hy; try reflexivity.
    specialize (Htie x y Hx Hy). lia.
Qed.

Lemma sort_filter (p : A -> bool) (l : list A) :
  (forall a b, p a = true -> p b = true -> compareFn a b <= 0) ->
  filter p (sort compareFn l) = filter p l.
Proof.
  intros Htie.
  induction l as [ | x l IH]; [reflexivity | ].
  simpl sort. rewrite insert_filter by exact Htie.
  simpl. now rewrite IH.
Qed.

(** Order: for a consistent comparator no element is put after one that
    the comparator wants behind it. *)
Hypothesis compareFn_consistent : consistent compareFn.

Lemma insert_sorted (x : A) (l : list A) :
  StronglySorted (fun a b => compareFn a b <= 0) l ->
  StronglySorted (fun a b => compareFn a b <= 0) (insert compareFn x l).
Proof.
  destruct compareFn_consistent as [Hanti Htrans].
  induction l as [ | y l IH]; intros Hs; simpl.
  - constructor; constructor.
  - inversion Hs as [ | ? ? Hs' Hall]; subst.
    destruct (Z.leb_spec (compareFn x y) 0) as [Hle | Hgt].
    + constructor; [exact Hs | ].
      constructor; [exact Hle | ].
      eapply Forall_impl; [ | exact Hall].
      intros z Hz. exact (Htrans _ _ _ Hle Hz).
    + constructor; [now apply IH | ].
      apply Forall_forall. intros z Hz.
      apply (Permutation_in _ (insert_perm x l)) in Hz.
      destruct Hz as [<- | Hz].
      * pose proof (proj2 (Hanti y x) Hgt). lia.
      * rewrite Forall_forall in Hall. now apply Hall.
Qed.

Lemma sort_sorted (l : list A) :
  StronglySorted (fun a b => compareFn a b <= 0) (sort compareFn l).
Proof.
  induction l as [ | x l IH]; simpl; [constructor | ].
  now apply insert_sorted.
Qed.
End SortFacts.

(** ** Slices, indexed maps and non-null filters *)

Section ArrayFacts.
Context {A B : Type}.

Lemma slice0_length (n : Z) (l : list A) :
  0 <= n -> Z.of_nat (List.length (slice0 n l)) <= n.
Proof.
  intros Hn. unfold slice0. rewrite length_firstn. lia.
Qed.

Lemma slice0_In (n : Z) (l : list A) (x : A) :
  In x (slice0 n l) -> In x l.
Proof.
  unfold slice0. intros H.
  rewrite <- (firstn_skipn (Z.to_nat n) l). apply in_or_app. now left.
Qed.

Lemma slice0_filter (p : A -> bool) (n : Z) (l : list A) :
  exists rest, filter p l = filter p (slice0 n l) ++ rest.
Proof.
  exists (filter p (skipn (Z.to_nat n) l)). unfold slice0.
  rewrite <- filter_app. now rewrite firstn_skipn.
Qed.

Lemma slice0_sorted (R : A -> A -> Prop) (n : Z) (l : list A) :
  StronglySorted R l -> StronglySorted R (slice0 n l).
Proof.
  unfold slice0. generalize (Z.to_nat n) as k.
  intros k Hs. revert k.
  induction Hs as [ | x l Hs IH Hall]; intros [ | k]; simpl;
    try constructor.
  - apply IH.
  - apply Forall_forall. intros y Hy.
    rewrite Forall_forall in Hall. apply Hall.
    rewrite <- (firstn_skipn k l). apply in_or_app. now left.
Qed.

Lemma mapi_from_length (f : A -> Z -> B) (l : list A) (i : Z) :
  List.length (mapi_from i f l) = List.length l.
Proof.
  revert i. induction l as [ | x l IH]; intros i; simpl;
    [reflexivity | now rewrite IH].
Qed.

Lemma mapi_from_nth_error (f : A -> Z -> B) (l : list A) (i : Z) (n : nat) :
  nth_error (mapi_from i f l) n
  = option_map (fun x => f x (i + Z.of_nat n)) (nth_error l n).
Proof.
  revert i n. induction l as [ | x l IH]; intros i [ | n]; simpl;
    try reflexivity.
  - now rewrite Z.add_0_r.
  - rewrite IH. destruct (nth_error l n); simpl; [ | reflexivity].
    do 2 f_equal. lia.
Qed.

Lemma mapi_from_In (f : A -> Z -> B) (l : list A) (i : Z) (y : B) :
  In y (mapi_from i f l) -> exists x j, In x l /\ y = f x j.
Proof.
  revert i. induction l as [ | x l IH]; intros i; simpl; [tauto | ].
  intros [<- | Hin].
  - exists x, i. auto.
  - destruct (IH _ Hin) as (x' & j & Hx' & ->). exists x', j. auto.
Qed.

(** A projection that ignores the index turns [mapi] into [map]. *)
Lemma map_mapi_from {C : Type} (g : B -> C) (h : A -> C)
  (f : A -> Z -> B) (l : list A) (i : Z) :
  (forall x j, g (f x j) = h x) ->
  map g (mapi_from i f l) = map h l.
Proof.
  intros Hgf. revert i.
  induction l as [ | x l IH]; intros i; simpl; [reflexivity | ].
  now rewrite Hgf, IH.
Qed.

Lemma filter_nonnull_In (l : list (option A)) (x : A) :
  In x (filter_nonnull l) <-> In (Some x) l.
Proof.
  induction l as [ | [y | ] l IH]; simpl.
  - tauto.
  - rewrite IH. split; intros [H | H]; auto.
    + left. now f_equal.
    + left. now injection H.
  - rewrite IH. split; [auto | ]. intros [H | H]; [discriminate | exact H].
Qed.
End ArrayFacts.

Lemma filter_map_comm {A B : Type} (f : A -> B) (p : B -> bool)
  (l : list A) :
  filter p (map f l) = map f (filter (fun x => p (f x)) l).
Proof.
  induction l as [ | x l IH]; simpl; [reflexivity | ].
  destruct (p (f x)); simpl; now rewrite IH.
Qed.

Lemma StronglySorted_map {A B : Type} (R : B -> B -> Prop) (f : A -> B)
  (l : list A) :
  StronglySorted (fun a b => R (f a) (f b)) l -> StronglySorted R (map f l).
Proof.
  induction 1 as [ | x l Hs IH Hall]; simpl; constructor; [exact IH | ].
  apply Forall_forall. intros y Hy. apply in_map_iff in Hy.
  destruct Hy as (a & <- & Ha). rewrite Forall_forall in Hall. now apply Hall.
Qed.

End JSFacts.

(* ================================================================== *)
(** * Sums of counts *)
(* ================================================================== *)

Module SumFacts.
Import JS Spec JSFacts.

Lemma plus_zero_r (a : Counts.t) : plus a zero = a.
Proof. destruct a; unfold plus; simpl; f_equal; lia. Qed.

Lemma plus_zero_l (a : Counts.t) : plus zero a = a.
Proof. destruct a; unfold plus; simpl; f_equal; lia. Qed.

Lemma plus_assoc (a b c : Counts.t) : plus (plus a b) c = plus a (plus b c).
Proof. unfold plus; simpl; f_equal; lia. Qed.

Lemma sumCounts_app (l1 l2 : list Counts.t) :
  sumCounts (l1 ++ l2) = plus (sumCounts l1) (sumCounts l2).
Proof.
  induction l1 as [ | a l1 IH]; simpl.
  - now rewrite plus_zero_l.
  - now rewrite IH, plus_assoc.
Qed.

Lemma visits_sumCounts (l : list Counts.t) :
  Counts.visits (sumCounts l) = Zsum (map Counts.visits l).
Proof.
  induction l as [ | a l IH]; simpl; [reflexivity | now rewrite IH].
Qed.

Lemma downloads_sumCounts (l : list Counts.t) :
  Counts.downloads (sumCounts l) = Zsum (map Counts.downloads l).
Proof.
  induction l as [ | a l IH]; simpl; [reflexivity | now rewrite IH].
Qed.

Lemma Zsum_app (l1 l2 : list Z) : Zsum (l1 ++ l2) = Zsum l1 + Zsum l2.
Proof.
  induction l1 as [ | a l1 IH]; simpl; [reflexivity | rewrite IH; lia].
Qed.

(** A running total kept in an accumulator is the sum of the terms. *)
Lemma fold_left_total {A : Type} (f : A -> Z) (l : list A) (a : Z) :
  fold_left (fun total x => total + f x) l a = a + Zsum (map f l).
Proof.
  revert a. induction l as [ | x l IH]; intros a; simpl; [lia | ].
  rewrite IH. lia.
Qed.

Lemma bindingsOf_app {V : Type} (k : string) (l1 l2 : list (string * V)) :
  bindingsOf k (l1 ++ l2) = bindingsOf k l1 ++ bindingsOf k l2.
Proof. unfold bindingsOf. now rewrite filter_app, map_app. Qed.

Lemma sumCounts_bindingsOf_wf (m : Map Counts.t) (k : string) :
  Map_wf m -> sumCounts (bindingsOf k m) = countsAt m k.
Proof.
  intros Hwf. rewrite bindingsOf_wf by exact Hwf. unfold countsAt.
  destruct (Map_get m k); simpl; [apply plus_zero_r | reflexivity].
Qed.

End SumFacts.

(* ================================================================== *)
(** * The full synchronisation *)
(* ================================================================== *)

Module SyncStatsFacts.
Import JS Spec JSFacts SumFacts SyncStats.

(** ** Reading the pages *)

Lemma fetchDatasetMetrics_pages_entriesRead responses :
  forall monthlyStats result,
    fetchDatasetMetrics_pages responses monthlyStats = Some result ->
    result = fold_left storeEntry (entriesRead responses) monthlyStats.
Proof.
  induction responses as [ | [response | ] rest IH]; simpl;
    intros monthlyStats result H; try discriminate.
  rewrite fold_left_app.
  destruct (MetricApiLinks.next (MetricApiDatasetResponse.links response)).
  - now apply IH.
  - injection H as <-. reflexivity.
Qed.

Lemma storeEntry_other monthlyStats entry k :
  MetricApiDatasetEntry.metric_month entry <> k ->
  Map_get (storeEntry monthlyStats entry) k = Map_get monthlyStats k.
Proof. intros Hne. unfold storeEntry. now apply Map_get_set_other. Qed.

Lemma fold_storeEntry_other entries :
  forall monthlyStats k,
    (forall e, In e entries -> MetricApiDatasetEntry.metric_month e <> k) ->
    Map_get (fold_left storeEntry entries monthlyStats) k
    = Map_get monthlyStats k.
Proof.
  induction entries as [ | e entries IH]; intros monthlyStats k Hne; simpl;
    [reflexivity | ].
  rewrite IH by (intros e' He'; apply Hne; now right).
  apply storeEntry_other. apply Hne. now left.
Qed.

(** The map holds, for a month, what the last entry of that month says. *)
Lemma fold_storeEntry_last before entry after monthlyStats :
  (forall e, In e after ->
     MetricApiDatasetEntry.metric_month e
     <> MetricApiDatasetEntry.metric_month entry) ->
  Map_get (fold_left storeEntry (before ++ entry :: after) monthlyStats)
    (MetricApiDatasetEntry.metric_month entry)
  = Some (Counts.mk
            (MetricApiDatasetEntry.monthly_visit entry)
            (match MetricApiDatasetEntry.monthly_download_resource entry with
             | Some n => n
             | None => 0
             end)).
Proof.
  intros Hlast. rewrite fold_left_app. simpl.
  rewrite fold_storeEntry_other by exact Hlast.
  unfold storeEntry. rewrite Map_get_set_same.
  now rewrite num_or_0, opt_num_or_0.
Qed.

Lemma storeEntry_wf monthlyStats entry :
  Map_wf monthlyStats -> Map_wf (storeEntry monthlyStats entry).
Proof. apply Map_set_wf. Qed.

Lemma fold_storeEntry_wf entries :
  forall monthlyStats,
    Map_wf monthlyStats -> Map_wf (fold_left storeEntry entries monthlyStats).
Proof.
  induction entries as [ | e entries IH]; intros m Hwf; simpl;
    [exact Hwf | ].
  apply IH. now apply storeEntry_wf.
Qed.

(** The scripts only build well-formed maps. *)
Lemma fetchDatasetMetrics_wf datasetId responses metrics :
  fetchDatasetMetrics datasetId responses = Some metrics ->
  Map_wf (DatasetMetrics.monthlyStats metrics).
Proof.
  unfold fetchDatasetMetrics.
  destruct (fetchDatasetMetrics_pages responses []) as [m | ] eqn:Hp;
    [ | discriminate].
  intros [= <-]. simpl.
  rewrite (fetchDatasetMetrics_pages_entriesRead _ _ _ Hp).
  apply fold_storeEntry_wf, Map_wf_nil.
Qed.

(** ** The monthly aggregates *)

Lemma addToAggregates_eq monthlyAggregates entry :
  addToAggregates monthlyAggregates entry
  = Map_set monthlyAggregates (fst entry)
      (plus (countsAt monthlyAggregates (fst entry)) (snd entry)).
Proof. reflexivity. Qed.

Lemma countsAt_addToAggregates monthlyAggregates entry k :
  countsAt (addToAggregates monthlyAggregates entry) k
  = if (fst entry =? k)%string
    then plus (countsAt monthlyAggregates k) (snd entry)
    else countsAt monthlyAggregates k.
Proof.
  rewrite addToAggregates_eq. unfold countsAt at 1.
  rewrite Map_get_set.
  destruct (String.eqb_spec (fst entry) k) as [-> | Hne]; reflexivity.
Qed.

Lemma countsAt_fold_addToAggregates entries :
  forall monthlyAggregates k,
    countsAt (fold_left addToAggregates entries monthlyAggregates) k
    = plus (countsAt monthlyAggregates k) (sumCounts (bindingsOf k entries)).
Proof.
  induction entries as [ | e entries IH]; intros agg k; simpl.
  - now rewrite plus_zero_r.
  - rewrite IH, countsAt_addToAggregates. unfold bindingsOf. simpl.
    destruct (fst e =? k)%string; simpl; [ | reflexivity].
    now rewrite plus_assoc.
Qed.

Lemma keys_fold_addToAggregates entries :
  forall monthlyAggregates k,
    In k (Map_keys (fold_left addToAggregates entries monthlyAggregates))
    <-> In k (Map_keys monthlyAggregates) \/ In k (map fst entries).
Proof.
  induction entries as [ | e entries IH]; intros agg k; simpl.
  - tauto.
  - rewrite IH, addToAggregates_eq, In_Map_keys_set.
    intuition (subst; auto).
Qed.

Lemma fold_addToAggregates_wf entries :
  forall monthlyAggregates,
    Map_wf monthlyAggregates ->
    Map_wf (fold_left addToAggregates entries monthlyAggregates).
Proof.
  induction entries as [ | e entries IH]; intros agg Hwf; simpl;
    [exact Hwf | ].
  apply IH. rewrite addToAggregates_eq. now apply Map_set_wf.
Qed.

Lemma countsAt_aggregateFrom allMetrics :
  forall monthlyAggregates k,
    countsAt (aggregateFrom monthlyAggregates allMetrics) k
    = plus (countsAt monthlyAggregates k)
        (sumCounts
           (map (fun d =>
                   sumCounts (bindingsOf k (DatasetMetrics.monthlyStats d)))
              allMetrics)).
Proof.
  unfold aggregateFrom.
  induction allMetrics as [ | d ds IH]; intros agg k; simpl.
  - now rewrite plus_zero_r.
  - now rewrite IH, countsAt_fold_addToAggregates, plus_assoc.
Qed.

Lemma keys_aggregateFrom allMetrics :
  forall monthlyAggregates k,
    In k (Map_keys (aggregateFrom monthlyAggregates allMetrics))
    <-> In k (Map_keys monthlyAggregates)
        \/ exists d, In d allMetrics
                     /\ In k (Map_keys (DatasetMetrics.monthlyStats d)).
Proof.
  unfold aggregateFrom.
  induction allMetrics as [ | d ds IH]; intros agg k; simpl.
  - split; [auto | ]. intros [H | (d & [] & _)]. exact H.
  - rewrite IH, keys_fold_addToAggregates. split.
    + intros [[H | H] | (d' & Hd' & Hk)].
      * now left.
      * right. exists d. auto.
      * right. exists d'. auto.
    + intros [H | (d' & [<- | Hd'] & Hk)].
      * auto.
      * left. now right.
      * right. exists d'. auto.
Qed.

Lemma aggregateFrom_wf allMetrics :
  forall monthlyAggregates,
    Map_wf monthlyAggregates ->
    Map_wf (aggregateFrom monthlyAggregates allMetrics).
Proof.
  unfold aggregateFrom.
  induction allMetrics as [ | d ds IH]; intros agg Hwf; simpl;
    [exact Hwf | ].
  apply IH. now apply fold_addToAggregates_wf.
Qed.

Lemma countsAt_monthlyAggregatesOf allMetrics k :
  Forall (fun d => Map_wf (DatasetMetrics.monthlyStats d)) allMetrics ->
  countsAt (monthlyAggregatesOf allMetrics) k
  = sumCounts
      (map (fun d => countsAt (DatasetMetrics.monthlyStats d) k) allMetrics).
Proof.
  intros Hwf. unfold monthlyAggregatesOf.
  rewrite countsAt_aggregateFrom. unfold countsAt at 1. simpl.
  rewrite plus_zero_l. f_equal.
  apply map_ext_in. intros d Hd. rewrite Forall_forall in Hwf.
  apply sumCounts_bindingsOf_wf. now apply Hwf.
Qed.

End SyncStatsFacts.

(* ================================================================== *)
(** * The global series *)
(* ================================================================== *)

Module GlobalSeries.
Import JS Spec JSFacts SumFacts SyncStats SyncStatsFacts.

Section WithCollation.
Variable localeCompare : option string -> string -> string -> Z.

Lemma monthlyStats_calculateGlobalStats lastUpdate allMetrics :
  GlobalStats.monthlyStats
    (calculateGlobalStats localeCompare lastUpdate allMetrics)
  = map toMonthlyStats
      (sort (byMonth localeCompare) (monthlyAggregatesOf allMetrics)).
Proof. reflexivity. Qed.

Lemma months_calculateGlobalStats lastUpdate allMetrics :
  Permutation
    (map MonthlyStats.month
       (GlobalStats.monthlyStats
          (calculateGlobalStats localeCompare lastUpdate allMetrics)))
    (Map_keys (monthlyAggregatesOf allMetrics)).
Proof.
  rewrite monthlyStats_calculateGlobalStats, map_map. simpl.
  apply (Permutation_map fst), sort_perm.
Qed.

Lemma monthlyAggregatesOf_wf allMetrics :
  Map_wf (monthlyAggregatesOf allMetrics).
Proof. apply (aggregateFrom_wf allMetrics []), Map_wf_nil. Qed.

Lemma In_monthlyStats_calculateGlobalStats lastUpdate allMetrics s :
  In s (GlobalStats.monthlyStats
          (calculateGlobalStats localeCompare lastUpdate allMetrics)) ->
  countsAt (monthlyAggregatesOf allMetrics) (MonthlyStats.month s)
  = Counts.mk (MonthlyStats.visits s) (MonthlyStats.downloads s).
Proof.
  rewrite monthlyStats_calculateGlobalStats, in_map_iff.
  intros ([k c] & <- & Hin). apply sort_In in Hin. simpl.
  unfold countsAt.
  rewrite (In_Map_get _ _ _ (monthlyAggregatesOf_wf allMetrics) Hin).
  now destruct c.
Qed.

(** The visits and downloads of a month of the global series are the sums
    of what the datasets record for that month. *)
Lemma global_month_sums lastUpdate allMetrics s :
  Forall (fun d => Map_wf (DatasetMetrics.monthlyStats d)) allMetrics ->
  In s (GlobalStats.monthlyStats
          (calculateGlobalStats localeCompare lastUpdate allMetrics)) ->
  MonthlyStats.visits s
  = Zsum (map (fun d => visitsOf d (MonthlyStats.month s)) allMetrics)
  /\ MonthlyStats.downloads s
     = Zsum (map (fun d => downloadsOf d (MonthlyStats.month s)) allMetrics).
Proof.
  intros Hwf Hin.
  apply In_monthlyStats_calculateGlobalStats in Hin.
  rewrite (countsAt_monthlyAggregatesOf _ _ Hwf) in Hin.
  split.
  - apply (f_equal Counts.visits) in Hin. simpl in Hin. rewrite <- Hin.
    rewrite visits_sumCounts, map_map. reflexivity.
  - apply (f_equal Counts.downloads) in Hin. simpl in Hin. rewrite <- Hin.
    rewrite downloads_sumCounts, map_map. reflexivity.
Qed.

Lemma global_months_present lastUpdate allMetrics m :
  In m (map MonthlyStats.month
          (GlobalStats.monthlyStats
             (calculateGlobalStats localeCompare lastUpdate allMetrics)))
  <-> exists d, In d allMetrics
                /\ In m (Map_keys (DatasetMetrics.monthlyStats d)).
Proof.
  split.
  - intros H.
    apply (Permutation_in _ (months_calculateGlobalStats _ _)) in H.
    apply (keys_aggregateFrom allMetrics []) in H.
    destruct H as [[] | H]. exact H.
  - intros H.
    apply (Permutation_in _
             (Permutation_sym (months_calculateGlobalStats _ _))).
    apply (keys_aggregateFrom allMetrics []). now right.
Qed.

Lemma global_months_NoDup lastUpdate allMetrics :
  NoDup (map MonthlyStats.month
           (GlobalStats.monthlyStats
              (calculateGlobalStats localeCompare lastUpdate allMetrics))).
Proof.
  apply (Permutation_NoDup
           (Permutation_sym (months_calculateGlobalStats _ _))).
  apply monthlyAggregatesOf_wf.
Qed.

Lemma global_totals lastUpdate allMetrics :
  let g := calculateGlobalStats localeCompare lastUpdate allMetrics in
  GlobalStats.totalVisits g
  = Zsum (map DatasetMetrics.totalVisits allMetrics)
  /\ GlobalStats.totalDownloads g
     = Zsum (map DatasetMetrics.totalDownloads allMetrics).
Proof.
  simpl. now rewrite !fold_left_total.
Qed.

(** C2: in the global series computed by [calculateGlobalStats], every
    month occurs once, a month occurs if and only if some dataset records
    it, and the visits (resp. downloads) of each month present equal the sum,
    over all the per-dataset series, of their visits (resp. downloads) for
    that month. *)
Theorem global_series_is_sum_of_entity_series lastUpdate allMetrics :
  Forall (fun d => Map_wf (DatasetMetrics.monthlyStats d)) allMetrics ->
  let g := calculateGlobalStats localeCompare lastUpdate allMetrics in
  NoDup (map MonthlyStats.month (GlobalStats.monthlyStats g))
  /\ (forall m,
        In m (map MonthlyStats.month (GlobalStats.monthlyStats g))
        <-> exists d, In d allMetrics
                      /\ In m (Map_keys (DatasetMetrics.monthlyStats d)))
  /\ (forall s,
        In s (GlobalStats.monthlyStats g) ->
        MonthlyStats.visits s
        = Zsum (map (fun d => visitsOf d (MonthlyStats.month s)) allMetrics)
        /\ MonthlyStats.downloads s
           = Zsum (map (fun d => downloadsOf d (MonthlyStats.month s))
                     allMetrics)).
Proof.
  intros Hwf g. split; [ | split].
  - apply (global_months_NoDup lastUpdate).
  - intros m. apply (global_months_present lastUpdate).
  - intros s Hs. now apply (global_month_sums lastUpdate).
Qed.

End WithCollation.
End GlobalSeries.

(* ================================================================== *)
(** * The rankings *)
(* ================================================================== *)

Module RankingFacts.
Import JS Spec JSFacts SumFacts SyncStats SyncStatsFacts.

Lemma StronglySorted_mapi_from {A B : Type} (R : A -> A -> Prop)
  (S : B -> B -> Prop) (f : A -> Z -> B) (l : list A) :
  (forall x y i j, R x y -> S (f x i) (f y j)) ->
  StronglySorted R l -> forall i, StronglySorted S (mapi_from i f l).
Proof.
  intros HRS. induction 1 as [ | x l Hs IH Hall]; intros i; simpl;
    constructor; [apply IH | ].
  apply Forall_forall. intros y Hy.
  apply mapi_from_In in Hy. destruct Hy as (x' & j & Hx' & ->).
  rewrite Forall_forall in Hall. apply HRS. now apply Hall.
Qed.

Lemma map_filter_mapi_from {A B C : Type} (f : A -> Z -> B) (p : B -> bool)
  (q : A -> bool) (g : B -> C) (h : A -> C) (l : list A) :
  (forall x j, p (f x j) = q x) ->
  (forall x j, g (f x j) = h x) ->
  forall i, map g (filter p (mapi_from i f l)) = map h (filter q l).
Proof.
  intros Hp Hg. induction l as [ | x l IH]; intros i; simpl;
    [reflexivity | ].
  rewrite Hp. destruct (q x); simpl; [rewrite Hg | ]; now rewrite IH.
Qed.

Lemma StronglySorted_app_cross {A : Type} (R : A -> A -> Prop)
  (l1 l2 : list A) :
  StronglySorted R (l1 ++ l2) ->
  forall a b, In a l1 -> In b l2 -> R a b.
Proof.
  induction l1 as [ | x l1 IH]; intros Hs a b Ha Hb; [destruct Ha | ].
  simpl in Hs. inversion Hs as [ | ? ? Hs' Hall]; subst.
  destruct Ha as [-> | Ha].
  - rewrite Forall_forall in Hall. apply Hall, in_or_app. now right.
  - now apply IH.
Qed.

Lemma StronglySorted_impl {A : Type} (R S : A -> A -> Prop) (l : list A) :
  (forall a b, R a b -> S a b) -> StronglySorted R l -> StronglySorted S l.
Proof.
  intros HRS. induction 1 as [ | x l Hs IH Hall]; constructor;
    [exact IH | ].
  apply Forall_forall. intros y Hy. rewrite Forall_forall in Hall.
  now apply HRS, Hall.
Qed.

Lemma byCurrent_consistent k : consistent (byCurrent k).
Proof. unfold consistent, byCurrent. split; intros; lia. Qed.

Lemma topBy_eq k withStats :
  topBy k withStats
  = mapi (rankingOf k)
      (slice0 TOP_DATASETS_COUNT (sort (byCurrent k) withStats)).
Proof. reflexivity. Qed.

Lemma topBy_In k withStats e :
  In e (topBy k withStats) ->
  exists d i, In d withStats /\ e = rankingOf k d i.
Proof.
  rewrite topBy_eq. unfold mapi. intros H.
  apply mapi_from_In in H. destruct H as (d & j & Hd & ->).
  exists d, j. split; [ | reflexivity].
  apply slice0_In in Hd. now apply sort_In in Hd.
Qed.

Lemma topBy_sorted k withStats :
  StronglySorted
    (fun a b => DatasetRanking.value a >= DatasetRanking.value b)
    (topBy k withStats).
Proof.
  rewrite topBy_eq. unfold mapi.
  apply (StronglySorted_mapi_from (fun a b => byCurrent k a b <= 0)).
  - intros x y i j Hxy. unfold byCurrent in Hxy. simpl. lia.
  - apply slice0_sorted.
    apply sort_sorted, byCurrent_consistent.
Qed.

Lemma topBy_length k withStats :
  Z.of_nat (List.length (topBy k withStats)) <= 100.
Proof.
  rewrite topBy_eq. unfold mapi. rewrite mapi_from_length.
  apply slice0_length. unfold TOP_DATASETS_COUNT. lia.
Qed.

Lemma topBy_rank k withStats n e :
  nth_error (topBy k withStats) n = Some e ->
  DatasetRanking.rank e = Z.of_nat n + 1.
Proof.
  rewrite topBy_eq. unfold mapi. rewrite mapi_from_nth_error.
  destruct (nth_error _ n); simpl; [ | discriminate].
  intros [= <-]. reflexivity.
Qed.

Lemma topBy_stable k withStats v :
  exists rest,
    map (fun d => DatasetMetrics.datasetId (WithStats.metrics d))
      (filter (fun d => metricOf k (WithStats.current d) =? v) withStats)
    = map DatasetRanking.id
        (filter (fun e => DatasetRanking.value e =? v) (topBy k withStats))
      ++ rest.
Proof.
  rewrite topBy_eq. unfold mapi.
  rewrite (map_filter_mapi_from (rankingOf k) _
             (fun d => metricOf k (WithStats.current d) =? v) _
             (fun d => DatasetMetrics.datasetId (WithStats.metrics d)))
    by reflexivity.
  destruct (slice0_filter
              (fun d => metricOf k (WithStats.current d) =? v)
              TOP_DATASETS_COUNT (sort (byCurrent k) withStats))
    as [rest Hrest].
  rewrite sort_filter in Hrest.
  - exists (map (fun d => DatasetMetrics.datasetId (WithStats.metrics d))
              rest).
    now rewrite Hrest, map_app.
  - intros a b Ha Hb. apply Z.eqb_eq in Ha, Hb. unfold byCurrent. lia.
Qed.

(** ** The candidates of a period *)

Lemma datasetsWithStats_eq now allMetrics metadataMap period :
  datasetsWithStats now allMetrics metadataMap period
  = filter_nonnull (map (withStatsOf now metadataMap period) allMetrics).
Proof. reflexivity. Qed.

Lemma datasetsWithStats_In now allMetrics metadataMap period d :
  In d (datasetsWithStats now allMetrics metadataMap period) ->
  In (WithStats.metrics d) allMetrics
  /\ withStatsOf now metadataMap period (WithStats.metrics d) = Some d.
Proof.
  rewrite datasetsWithStats_eq, filter_nonnull_In, in_map_iff.
  intros (m & Hm & Hin).
  assert (WithStats.metrics d = m) as ->.
  { unfold withStatsOf in Hm.
    destruct (Map_get metadataMap (DatasetMetrics.datasetId m));
      [ | discriminate].
    now injection Hm as <-. }
  auto.
Qed.

(** The candidates are the datasets with metadata, in input order. *)
Lemma datasetsWithStats_metrics now allMetrics metadataMap period :
  map WithStats.metrics
    (datasetsWithStats now allMetrics metadataMap period)
  = filter (fun m => Map_has metadataMap (DatasetMetrics.datasetId m))
      allMetrics.
Proof.
  rewrite datasetsWithStats_eq.
  induction allMetrics as [ | m l IH]; simpl; [reflexivity | ].
  unfold withStatsOf at 1, Map_has.
  destruct (Map_get metadataMap (DatasetMetrics.datasetId m)); simpl;
    now rewrite IH.
Qed.

Lemma datasetsWithStats_metadata now allMetrics metadataMap period d :
  In d (datasetsWithStats now allMetrics metadataMap period) ->
  Map_get metadataMap (DatasetMetrics.datasetId (WithStats.metrics d))
  = Some (WithStats.metadata d).
Proof.
  intros H. apply datasetsWithStats_In in H. destruct H as [_ H].
  unfold withStatsOf in H.
  destruct (Map_get metadataMap _); [ | discriminate].
  now injection H as <-.
Qed.

Lemma datasetsWithStats_allTime_previous now allMetrics metadataMap d :
  In d (datasetsWithStats now allMetrics metadataMap Period.allTime) ->
  WithStats.previous d = zeroCounts.
Proof.
  intros H. apply datasetsWithStats_In in H. destruct H as [_ H].
  unfold withStatsOf in H.
  destruct (Map_get metadataMap _); [ | discriminate].
  now injection H as <-.
Qed.

Lemma rankingsOf_calculateTopDatasets now lastUpdate allMetrics metadataMap
  period k :
  rankingsOf (calculateTopDatasets now lastUpdate allMetrics metadataMap)
    period k
  = topBy k (datasetsWithStats now allMetrics metadataMap period).
Proof. destruct period, k; reflexivity. Qed.

(** Each ranking entry is made from a candidate of its period. *)
Lemma ranking_entry_origin now lastUpdate allMetrics metadataMap period k e :
  In e (rankingsOf
          (calculateTopDatasets now lastUpdate allMetrics metadataMap)
          period k) ->
  exists d i,
    In d (datasetsWithStats now allMetrics metadataMap period)
    /\ e = rankingOf k d i.
Proof.
  rewrite rankingsOf_calculateTopDatasets. apply topBy_In.
Qed.

End RankingFacts.

Module RankingClaims.
Import JS Spec JSFacts SumFacts SyncStats SyncStatsFacts RankingFacts.

(** C4: for any input, the ranking list of each period and metric is made
    of the first 100 (of all, when there are fewer) of the candidates
    arranged in non-increasing order of value, the candidates of equal
    value staying in input order; the candidates are the input datasets
    with metadata, in input order.  So the list is in non-increasing order
    of value, its entries of equal value are, in order, the first candidates
    of that value in input order, it has the 100 candidates of greatest
    value, or all of them, no candidate left out having a greater value
    than a listed one, and the rank of an entry is its position counted
    from 1. *)
Theorem ranking_sorted_stable_truncated_ranked
  (now : Date) (lastUpdate : string) (allMetrics : list DatasetMetrics.t)
  (metadataMap : Map DatagouvDataset.t) (period : Period.t) (k : Metric.t) :
  let ranking :=
    rankingsOf (calculateTopDatasets now lastUpdate allMetrics metadataMap)
      period k in
  let candidates := datasetsWithStats now allMetrics metadataMap period in
  let value (d : WithStats.t) := metricOf k (WithStats.current d) in
  StronglySorted
    (fun a b => DatasetRanking.value a >= DatasetRanking.value b) ranking
  /\ map WithStats.metrics candidates
     = filter (fun m => Map_has metadataMap (DatasetMetrics.datasetId m))
         allMetrics
  /\ (forall v, exists rest,
        map (fun d => DatasetMetrics.datasetId (WithStats.metrics d))
          (filter (fun d => metricOf k (WithStats.current d) =? v)
             candidates)
        = map DatasetRanking.id
            (filter (fun e => DatasetRanking.value e =? v) ranking)
          ++ rest)
  /\ Z.of_nat (List.length ranking) <= 100
  /\ (forall n e,
        nth_error ranking n = Some e ->
        DatasetRanking.rank e = Z.of_nat n + 1)
  /\ Z.of_nat (List.length ranking)
     = Z.min 100 (Z.of_nat (List.length candidates))
  /\ exists listed unlisted,
       Permutation (listed ++ unlisted) candidates
       /\ StronglySorted (fun a b => value a >= value b)
            (listed ++ unlisted)
       /\ (forall v,
             filter (fun d => value d =? v) (listed ++ unlisted)
             = filter (fun d => value d =? v) candidates)
       /\ Z.of_nat (List.length listed)
          = Z.min 100 (Z.of_nat (List.length candidates))
       /\ (forall a b, In a listed -> In b unlisted -> value a >= value b)
       /\ map DatasetRanking.id ranking
          = map (fun d => DatasetMetrics.datasetId (WithStats.metrics d))
              listed
       /\ map DatasetRanking.value ranking = map value listed
       /\ ranking = mapi (rankingOf k) listed.
Proof.
  intros ranking candidates value. subst ranking.
  rewrite rankingsOf_calculateTopDatasets.
  split; [apply topBy_sorted | ].
  split; [apply datasetsWithStats_metrics | ].
  split; [intros v; apply topBy_stable | ].
  split; [apply topBy_length | ].
  split; [intros n e; apply topBy_rank | ].
  set (sorted := sort (byCurrent k) candidates).
  assert (Hsorted :
    StronglySorted (fun a b => value a >= value b) sorted).
  { apply (StronglySorted_impl (fun a b => byCurrent k a b <= 0)).
    - intros a b Hab. unfold byCurrent in Hab. unfold value. lia.
    - apply sort_sorted, byCurrent_consistent. }
  assert (Hlen :
    Z.of_nat (List.length (slice0 TOP_DATASETS_COUNT sorted))
    = Z.min 100 (Z.of_nat (List.length candidates))).
  { unfold slice0, sorted, TOP_DATASETS_COUNT.
    rewrite length_firstn, sort_length. lia. }
  split.
  { rewrite topBy_eq. unfold mapi. rewrite mapi_from_length. exact Hlen. }
  exists (slice0 TOP_DATASETS_COUNT sorted),
         (skipn (Z.to_nat TOP_DATASETS_COUNT) sorted).
  assert (Hsplit :
    slice0 TOP_DATASETS_COUNT sorted
    ++ skipn (Z.to_nat TOP_DATASETS_COUNT) sorted = sorted)
    by apply firstn_skipn.
  split; [rewrite Hsplit; apply sort_perm | ].
  split; [rewrite Hsplit; exact Hsorted | ].
  split.
  { intros v. rewrite Hsplit. apply sort_filter.
    intros a b Ha Hb. apply Z.eqb_eq in Ha, Hb.
    unfold byCurrent. unfold value in Ha, Hb. lia. }
  split; [exact Hlen | ].
  split.
  { apply (StronglySorted_app_cross (fun a b => value a >= value b)).
    rewrite Hsplit. exact Hsorted. }
  rewrite topBy_eq. unfold mapi.
  split; [now apply map_mapi_from | ].
  split; [now apply map_mapi_from | reflexivity].
Qed.

(** C5: the trend of every ranking entry is
    [((value - previousValue) / previousValue) * 100], computed on doubles,
    when the previous value is positive, and 0 otherwise; a previous value
    of 0 gives 0, the values 300 after 200 give 50; in the all-time period
    the previous value, hence the trend, of every entry is 0. *)
Theorem trend_of_ranking_entries
  (now : Date) (lastUpdate : string) (allMetrics : list DatasetMetrics.t)
  (metadataMap : Map DatagouvDataset.t) :
  let top := calculateTopDatasets now lastUpdate allMetrics metadataMap in
  (forall period k e,
     In e (rankingsOf top period k) ->
     DatasetRanking.trend e
     = if 0 <? DatasetRanking.previousValue e
       then ((number_of_Z (DatasetRanking.value e)
              - number_of_Z (DatasetRanking.previousValue e))
             / number_of_Z (DatasetRanking.previousValue e) * 100)%float
       else 0%float)
  /\ (forall k e,
        In e (rankingsOf top Period.allTime k) ->
        DatasetRanking.previousValue e = 0
        /\ DatasetRanking.trend e = 0%float)
  /\ (forall value, trendOf value 0 = 0%float)
  /\ trendOf 300 200 = 50%float.
Proof.
  intros top. subst top. split; [ | split; [ | split]].
  - intros period k e He.
    apply ranking_entry_origin in He. destruct He as (d & i & _ & ->).
    reflexivity.
  - intros k e He.
    apply ranking_entry_origin in He. destruct He as (d & i & Hd & ->).
    apply datasetsWithStats_allTime_previous in Hd.
    unfold rankingOf. rewrite Hd. simpl.
    split; [now destruct k | ].
    now destruct k.
  - reflexivity.
  - vm_compute. reflexivity.
Qed.

End RankingClaims.

(* ================================================================== *)
(** * Metadata: rankings, directory and detailed records *)
(* ================================================================== *)

Module MetadataFacts.
Import JS Spec JSFacts SumFacts SyncStats SyncStatsFacts RankingFacts.
Import GlobalSeries.

Lemma fold_recordMetadata_unresolved metadataApi allMetrics d :
  metadataApi d = None ->
  forall metadataMap,
    Map_get metadataMap d = None ->
    Map_get (fold_left (recordMetadata metadataApi) allMetrics metadataMap) d
    = None.
Proof.
  intros Hnone.
  induction allMetrics as [ | m l IH]; intros acc Hacc; simpl;
    [exact Hacc | ].
  apply IH. unfold recordMetadata, fetchDatasetMetadata.
  destruct (metadataApi (DatasetMetrics.datasetId m)) as [md | ] eqn:Hm;
    [ | exact Hacc].
  rewrite Map_get_set_other; [exact Hacc | ].
  intros Heq. rewrite Heq in Hm. congruence.
Qed.

(** A dataset whose metadata cannot be fetched has no binding in the map
    built by step 3 of [main]. *)
Lemma fetchAllMetadata_unresolved metadataApi allMetrics d :
  metadataApi d = None ->
  Map_get (fetchAllMetadata metadataApi allMetrics) d = None.
Proof.
  intros Hnone.
  now apply (fold_recordMetadata_unresolved metadataApi allMetrics d Hnone []).
Qed.

Lemma fold_recordMetadata_wf metadataApi allMetrics :
  forall metadataMap,
    Map_wf metadataMap ->
    Map_wf (fold_left (recordMetadata metadataApi) allMetrics metadataMap).
Proof.
  induction allMetrics as [ | m l IH]; intros acc Hwf; simpl;
    [exact Hwf | ].
  apply IH. unfold recordMetadata.
  destruct (fetchDatasetMetadata _ _); [now apply Map_set_wf | exact Hwf].
Qed.

Lemma fetchAllMetadata_wf metadataApi allMetrics :
  Map_wf (fetchAllMetadata metadataApi allMetrics).
Proof.
  apply (fold_recordMetadata_wf metadataApi allMetrics []), Map_wf_nil.
Qed.

(** ** Ranking entries and their metadata *)

Lemma ranking_entry_metadata now lastUpdate allMetrics metadataMap period k
  e :
  In e (rankingsOf
          (calculateTopDatasets now lastUpdate allMetrics metadataMap)
          period k) ->
  exists metadata,
    Map_get metadataMap (DatasetRanking.id e) = Some metadata
    /\ DatasetRanking.title e = DatagouvDataset.title metadata
    /\ DatasetRanking.organization e = organizationName metadata
    /\ DatasetRanking.organizationId e = organizationIdOf metadata.
Proof.
  intros He. apply ranking_entry_origin in He.
  destruct He as (d & i & Hd & ->).
  exists (WithStats.metadata d). simpl.
  now rewrite (datasetsWithStats_metadata _ _ _ _ _ Hd).
Qed.

(** ** Directory entries and their metadata *)

Section WithCollation.
Variable localeCompare : option string -> string -> string -> Z.

Lemma datasets_createDatasetsIndex lastUpdate metadataMap :
  Permutation
    (DatasetsIndex.datasets
       (createDatasetsIndex localeCompare lastUpdate metadataMap))
    (map summaryOf metadataMap).
Proof. apply sort_perm. Qed.

Lemma directory_entry_origin lastUpdate metadataMap s :
  In s (DatasetsIndex.datasets
          (createDatasetsIndex localeCompare lastUpdate metadataMap)) ->
  exists metadata,
    In (DatasetSummary.id s, metadata) metadataMap
    /\ s = summaryOf (DatasetSummary.id s, metadata).
Proof.
  intros Hs.
  apply (Permutation_in _ (datasets_createDatasetsIndex _ _)) in Hs.
  apply in_map_iff in Hs. destruct Hs as ([id metadata] & <- & Hin).
  exists metadata. simpl. auto.
Qed.

Lemma directory_ids lastUpdate metadataMap :
  Permutation
    (map DatasetSummary.id
       (DatasetsIndex.datasets
          (createDatasetsIndex localeCompare lastUpdate metadataMap)))
    (Map_keys metadataMap).
Proof.
  rewrite (Permutation_map DatasetSummary.id
             (datasets_createDatasetsIndex lastUpdate metadataMap)).
  rewrite map_map. reflexivity.
Qed.

End WithCollation.

Lemma opt_field_or_None {A : Type} (f : A -> string) (d : string) :
  opt_field_or None f d = d.
Proof. reflexivity. Qed.

End MetadataFacts.

Module MetadataClaims.
Import JS Spec JSFacts SumFacts SyncStats SyncStatsFacts RankingFacts.
Import GlobalSeries MetadataFacts.

Section WithCollation.
Variable localeCompare : option string -> string -> string -> Z.

(** C7: let a dataset be among those whose metrics were fetched, and let its
    metadata be unresolvable.  Its totals are part of the global totals and
    its monthly counts part of the global monthly series, every month it
    records being present there; but no entry of any ranking list, for any
    period and metric, and no entry of the directory carries its id. *)
Theorem unresolvable_metadata_counted_but_not_listed
  (now : Date) (lastUpdate : string)
  (metadataApi : string -> option DatagouvDataset.t)
  (before after : list DatasetMetrics.t) (entity : DatasetMetrics.t) :
  let allMetrics := before ++ entity :: after in
  let metadataMap := fetchAllMetadata metadataApi allMetrics in
  let g := calculateGlobalStats localeCompare lastUpdate allMetrics in
  Forall (fun d => Map_wf (DatasetMetrics.monthlyStats d)) allMetrics ->
  metadataApi (DatasetMetrics.datasetId entity) = None ->
  (GlobalStats.totalVisits g
   = Zsum (map DatasetMetrics.totalVisits (before ++ after))
     + DatasetMetrics.totalVisits entity
   /\ GlobalStats.totalDownloads g
      = Zsum (map DatasetMetrics.totalDownloads (before ++ after))
        + DatasetMetrics.totalDownloads entity)
  /\ (forall m,
        In m (Map_keys (DatasetMetrics.monthlyStats entity)) ->
        In m (map MonthlyStats.month (GlobalStats.monthlyStats g)))
  /\ (forall s,
        In s (GlobalStats.monthlyStats g) ->
        MonthlyStats.visits s
        = Zsum (map (fun d => visitsOf d (MonthlyStats.month s))
                  (before ++ after))
          + visitsOf entity (MonthlyStats.month s)
        /\ MonthlyStats.downloads s
           = Zsum (map (fun d => downloadsOf d (MonthlyStats.month s))
                     (before ++ after))
             + downloadsOf entity (MonthlyStats.month s))
  /\ (forall period k e,
        In e (rankingsOf
                (calculateTopDatasets now lastUpdate allMetrics metadataMap)
                period k) ->
        DatasetRanking.id e <> DatasetMetrics.datasetId entity)
  /\ (forall s,
        In s (DatasetsIndex.datasets
                (createDatasetsIndex localeCompare lastUpdate metadataMap)) ->
        DatasetSummary.id s <> DatasetMetrics.datasetId entity).
Proof.
  intros allMetrics metadataMap g Hwf Hnone.
  assert (Hget : Map_get metadataMap (DatasetMetrics.datasetId entity) = None)
    by now apply fetchAllMetadata_unresolved.
  split; [ | split; [ | split; [ | split]]].
  - destruct (global_totals localeCompare lastUpdate allMetrics) as [Hv Hd].
    fold g in Hv, Hd. rewrite Hv, Hd. unfold allMetrics.
    rewrite !map_app, !Zsum_app. simpl. lia.
  - intros m Hm.
    apply (global_months_present localeCompare lastUpdate).
    exists entity. split; [ | exact Hm].
    apply in_or_app. right. now left.
  - intros s Hs.
    destruct (global_month_sums localeCompare lastUpdate allMetrics s Hwf Hs)
      as [Hv Hd].
    rewrite Hv, Hd. unfold allMetrics.
    rewrite !map_app, !Zsum_app. simpl. lia.
  - intros period k e He Heq.
    apply ranking_entry_metadata in He. destruct He as (md & Hmd & _).
    rewrite Heq in Hmd. congruence.
  - intros s Hs Heq.
    apply directory_entry_origin in Hs. destruct Hs as (md & Hin & _).
    apply Map_get_None in Hget. apply Hget.
    rewrite <- Heq. change (DatasetSummary.id s) with (fst (DatasetSummary.id s, md)).
    now apply in_map.
Qed.

(** C10: when the metadata bound to a dataset has no organization, every
    ranking entry of the dataset, its directory entry and its detailed
    record carry the organization "Inconnu" and the empty string as
    organization id. *)
Theorem null_organization_defaults
  (now : Date) (lastUpdate : string) (allMetrics : list DatasetMetrics.t)
  (metadataMap : Map DatagouvDataset.t) (datasetId : string)
  (metadata : DatagouvDataset.t) :
  Map_wf metadataMap ->
  Map_get metadataMap datasetId = Some metadata ->
  DatagouvDataset.organization metadata = None ->
  (forall period k e,
     In e (rankingsOf
             (calculateTopDatasets now lastUpdate allMetrics metadataMap)
             period k) ->
     DatasetRanking.id e = datasetId ->
     DatasetRanking.organization e = "Inconnu"%string
     /\ DatasetRanking.organizationId e = ""%string)
  /\ (forall s,
        In s (DatasetsIndex.datasets
                (createDatasetsIndex localeCompare lastUpdate metadataMap)) ->
        DatasetSummary.id s = datasetId ->
        DatasetSummary.organization s = "Inconnu"%string
        /\ DatasetSummary.organizationId s = ""%string)
  /\ (forall metrics,
        let stats := createDatasetStats localeCompare metrics metadata in
        DatasetStats.organization stats = "Inconnu"%string
        /\ DatasetStats.organizationId stats = ""%string).
Proof.
  intros Hwf Hget Horg.
  assert (Hname : organizationName metadata = "Inconnu"%string)
    by (unfold organizationName; now rewrite Horg).
  assert (Hid : organizationIdOf metadata = ""%string)
    by (unfold organizationIdOf; now rewrite Horg).
  split; [ | split].
  - intros period k e He Heq.
    apply ranking_entry_metadata in He.
    destruct He as (md & Hmd & _ & Ho & Hoi).
    rewrite Heq, Hget in Hmd. injection Hmd as <-.
    now rewrite Ho, Hoi.
  - intros s Hs Heq.
    apply directory_entry_origin in Hs. destruct Hs as (md & Hin & Hsum).
    apply (In_Map_get _ _ _ Hwf) in Hin.
    rewrite Heq, Hget in Hin. injection Hin as <-.
    rewrite Hsum. simpl. auto.
  - intros metrics. simpl. auto.
Qed.

End WithCollation.

(** C9: when the paging loop of [fetchDatasetMetrics] succeeds, the series
    holds for the month of an entry read, provided no later entry read is
    for the same month, the visits of the entry and its download count, a
    null download count being stored as 0; the update that the incremental
    script makes of an entry has the same downloads. *)
Theorem null_downloads_stored_as_zero
  (datasetId : string)
  (responses : list (option MetricApiDatasetResponse.t))
  (metrics : DatasetMetrics.t)
  (before after : list MetricApiDatasetEntry.t)
  (entry : MetricApiDatasetEntry.t) :
  fetchDatasetMetrics datasetId responses = Some metrics ->
  entriesRead responses = before ++ entry :: after ->
  (forall e, In e after ->
     MetricApiDatasetEntry.metric_month e
     <> MetricApiDatasetEntry.metric_month entry) ->
  let stored :=
    Map_get (DatasetMetrics.monthlyStats metrics)
      (MetricApiDatasetEntry.metric_month entry) in
  let downloads :=
    match MetricApiDatasetEntry.monthly_download_resource entry with
    | Some n => n
    | None => 0
    end in
  stored
  = Some (Counts.mk (MetricApiDatasetEntry.monthly_visit entry) downloads)
  /\ SyncIncremental.DatasetMonthlyUpdate.downloads
       (SyncIncremental.updateOfEntry entry) = downloads.
Proof.
  intros Hfetch Hread Hlast stored downloads. subst stored downloads.
  split.
  - unfold fetchDatasetMetrics in Hfetch.
    destruct (fetchDatasetMetrics_pages responses []) as [m | ] eqn:Hp;
      [ | discriminate].
    injection Hfetch as <-. simpl.
    rewrite (fetchDatasetMetrics_pages_entriesRead _ _ _ Hp), Hread.
    now apply fold_storeEntry_last.
  - simpl. apply opt_num_or_0.
Qed.

End MetadataClaims.

(* ================================================================== *)
(** * The directory and its order *)
(* ================================================================== *)

Module CollationFacts.
Import JS Spec JSFacts Collation.

Lemma compare_not_Gt_trans (a : string) :
  forall b c,
    String.compare a b <> Gt -> String.compare b c <> Gt ->
    String.compare a c <> Gt.
Proof.
  induction a as [ | x a IH]; intros [ | y b] [ | z c]; simpl;
    try congruence.
  unfold Ascii.compare.
  destruct (N.compare_spec (N_of_ascii x) (N_of_ascii y)) as [Hxy | Hxy | Hxy];
    destruct (N.compare_spec (N_of_ascii y) (N_of_ascii z))
      as [Hyz | Hyz | Hyz];
    destruct (N.compare_spec (N_of_ascii x) (N_of_ascii z))
      as [Hxz | Hxz | Hxz];
    try congruence; try lia.
  apply IH.
Qed.

Lemma sign_compare_antisym (a b : string) :
  sign (String.compare a b) < 0 <-> 0 < sign (String.compare b a).
Proof.
  rewrite (String.compare_antisym a b).
  destruct (String.compare b a); simpl; lia.
Qed.

(** Comparing keys by code units is a consistent comparator. *)
Lemma by_key_consistent {A : Type} (f : A -> string) :
  consistent (fun a b => sign (String.compare (f a) (f b))).
Proof.
  split.
  - intros a b. apply sign_compare_antisym.
  - intros a b c Hab Hbc.
    pose proof (compare_not_Gt_trans (f a) (f b) (f c)) as Ht.
    destruct (String.compare (f a) (f b)), (String.compare (f b) (f c)),
      (String.compare (f a) (f c));
      simpl in *; try lia; exfalso; apply Ht; congruence.
Qed.

Lemma byTitle_primary_consistent :
  consistent (SyncStats.byTitle primary).
Proof.
  apply (by_key_consistent (fun s => key (DatasetSummary.title s))).
Qed.

Lemma byTitle_codeUnits_consistent :
  consistent (SyncStats.byTitle codeUnits).
Proof.
  apply (by_key_consistent DatasetSummary.title).
Qed.

End CollationFacts.

Module DirectoryClaims.
Import JS Spec JSFacts SyncStats MetadataFacts.

Section WithCollation.
Variable localeCompare : option string -> string -> string -> Z.

(** C8: the directory made from a metadata map has one entry per binding of
    the map, hence no id twice, and for a consistent collation its entries
    are sorted by title under [localeCompare(_, 'fr')]; in particular, as
    that collation puts "Agriculture" before "Élection" before "Énergie",
    the titles "Élection", "Agriculture", "Énergie" come out as
    "Agriculture", "Élection", "Énergie". *)
Theorem directory_deduplicated_and_sorted
  (lastUpdate : string) (metadataMap : Map DatagouvDataset.t) :
  Map_wf metadataMap ->
  consistent (byTitle localeCompare) ->
  let index := createDatasetsIndex localeCompare lastUpdate metadataMap in
  Permutation (DatasetsIndex.datasets index) (map summaryOf metadataMap)
  /\ NoDup (map DatasetSummary.id (DatasetsIndex.datasets index))
  /\ StronglySorted
       (fun a b =>
          localeCompare (Some "fr"%string) (DatasetSummary.title a)
            (DatasetSummary.title b) <= 0)
       (DatasetsIndex.datasets index)
  /\ (map (fun entry => DatagouvDataset.title (snd entry)) metadataMap
      = ["Élection"; "Agriculture"; "Énergie"]%string ->
      localeCompare (Some "fr"%string) "Agriculture" "Élection" < 0 ->
      localeCompare (Some "fr"%string) "Élection" "Énergie" < 0 ->
      map DatasetSummary.title (DatasetsIndex.datasets index)
      = ["Agriculture"; "Élection"; "Énergie"]%string).
Proof.
  intros Hwf Hcons index. subst index.
  split; [apply datasets_createDatasetsIndex | ].
  split.
  { apply (Permutation_NoDup
             (Permutation_sym (directory_ids localeCompare _ _))).
    exact Hwf. }
  split; [apply (sort_sorted _ Hcons) | ].
  intros Htitles HAE HEE.
  destruct Hcons as [Hanti Htrans].
  destruct metadataMap as [ | [i1 m1] [ | [i2 m2] [ | [i3 m3] [ | ? ?]]]];
    try discriminate.
  injection Htitles as H1 H2 H3.
  assert (H21 : byTitle localeCompare (summaryOf (i2, m2)) (summaryOf (i1, m1))
                < 0)
    by (unfold byTitle; simpl; rewrite H1, H2; exact HAE).
  assert (H13 : byTitle localeCompare (summaryOf (i1, m1)) (summaryOf (i3, m3))
                < 0)
    by (unfold byTitle; simpl; rewrite H1, H3; exact HEE).
  assert (H12 : 0 < byTitle localeCompare (summaryOf (i1, m1))
                      (summaryOf (i2, m2)))
    by now apply Hanti.
  assert (H23 : byTitle localeCompare (summaryOf (i2, m2)) (summaryOf (i3, m3))
                <= 0)
    by (apply (Htrans _ (summaryOf (i1, m1))); lia).
  unfold createDatasetsIndex. simpl.
  destruct (Z.leb_spec
              (byTitle localeCompare (summaryOf (i2, m2))
                 (summaryOf (i3, m3))) 0); [ | lia].
  simpl.
  destruct (Z.leb_spec
              (byTitle localeCompare (summaryOf (i1, m1))
                 (summaryOf (i2, m2))) 0); [lia | ].
  destruct (Z.leb_spec
              (byTitle localeCompare (summaryOf (i1, m1))
                 (summaryOf (i3, m3))) 0); [ | lia].
  simpl. now rewrite H1, H2, H3.
Qed.

End WithCollation.
End DirectoryClaims.

(* ================================================================== *)
(** * The incremental merge *)
(* ================================================================== *)

Module MergeFacts.
Import JS Spec JSFacts SumFacts SyncIncremental.

(** ** Loading the existing series *)

Lemma recordOf_cons (s : MonthlyStats.t) (series : list MonthlyStats.t)
  (m : string) :
  recordOf (s :: series) m
  = match recordOf series m with
    | Some r => Some r
    | None => if (MonthlyStats.month s =? m)%string then Some s else None
    end.
Proof.
  unfold recordOf. simpl rev.
  induction (rev series) as [ | r l IH]; simpl.
  - reflexivity.
  - destruct (MonthlyStats.month r =? m)%string; [reflexivity | exact IH].
Qed.

Lemma Map_get_fold_loadMonth (series : list MonthlyStats.t) (m : string) :
  forall monthMap,
    Map_get (fold_left loadMonth series monthMap) m
    = match recordOf series m with
      | Some r => Some (countsOfRecord r)
      | None => Map_get monthMap m
      end.
Proof.
  induction series as [ | s series IH]; intros monthMap; simpl fold_left.
  - reflexivity.
  - rewrite IH, recordOf_cons.
    destruct (recordOf series m); [reflexivity | ].
    unfold loadMonth. rewrite Map_get_set.
    destruct (MonthlyStats.month s =? m)%string; reflexivity.
Qed.

Lemma keys_fold_loadMonth (series : list MonthlyStats.t) (m : string) :
  forall monthMap,
    In m (Map_keys (fold_left loadMonth series monthMap))
    <-> In m (Map_keys monthMap) \/ In m (map MonthlyStats.month series).
Proof.
  induction series as [ | s series IH]; intros monthMap; simpl.
  - tauto.
  - rewrite IH. unfold loadMonth at 1. rewrite In_Map_keys_set.
    intuition (subst; auto).
Qed.

Lemma fold_loadMonth_wf (series : list MonthlyStats.t) :
  forall monthMap,
    Map_wf monthMap -> Map_wf (fold_left loadMonth series monthMap).
Proof.
  induction series as [ | s series IH]; intros monthMap Hwf; simpl;
    [exact Hwf | ].
  apply IH. now apply Map_set_wf.
Qed.

Lemma countsAt_loaded (series : list MonthlyStats.t) (m : string) :
  countsAt (fold_left loadMonth series []) m
  = Counts.mk (visitsIn series m) (downloadsIn series m).
Proof.
  unfold countsAt, visitsIn, downloadsIn.
  rewrite Map_get_fold_loadMonth.
  destruct (recordOf series m); reflexivity.
Qed.

(** ** Adding the updates *)

Lemma addUpdate_eq monthMap update :
  addUpdate monthMap update
  = Map_set monthMap (DatasetMonthlyUpdate.month update)
      (plus (countsAt monthMap (DatasetMonthlyUpdate.month update))
         (countsOfUpdate update)).
Proof. reflexivity. Qed.

Lemma countsAt_fold_addUpdate updates :
  forall monthMap m,
    countsAt (fold_left addUpdate updates monthMap) m
    = plus (countsAt monthMap m)
        (sumCounts (map countsOfUpdate (updatesOfMonth m updates))).
Proof.
  induction updates as [ | u updates IH]; intros monthMap m; simpl.
  - now rewrite plus_zero_r.
  - rewrite IH, addUpdate_eq. unfold countsAt at 1.
    rewrite Map_get_set. fold (countsAt monthMap m).
    destruct (String.eqb_spec (DatasetMonthlyUpdate.month u) m)
      as [-> | Hne]; simpl.
    + now rewrite plus_assoc.
    + reflexivity.
Qed.

Lemma keys_fold_addUpdate updates :
  forall monthMap m,
    In m (Map_keys (fold_left addUpdate updates monthMap))
    <-> In m (Map_keys monthMap)
        \/ In m (map DatasetMonthlyUpdate.month updates).
Proof.
  induction updates as [ | u updates IH]; intros monthMap m; simpl.
  - tauto.
  - rewrite IH, addUpdate_eq, In_Map_keys_set.
    intuition (subst; auto).
Qed.

Lemma fold_addUpdate_wf updates :
  forall monthMap,
    Map_wf monthMap -> Map_wf (fold_left addUpdate updates monthMap).
Proof.
  induction updates as [ | u updates IH]; intros monthMap Hwf; simpl;
    [exact Hwf | ].
  apply IH. rewrite addUpdate_eq. now apply Map_set_wf.
Qed.

(** ** Reading a series written from a map *)

Lemma recordOf_written (monthMap : Map Counts.t) (m : string) :
  Map_wf monthMap ->
  recordOf (map toMonthlyStats monthMap) m
  = option_map (fun c => toMonthlyStats (m, c)) (Map_get monthMap m).
Proof.
  intros Hwf. unfold recordOf.
  destruct (List.find _ _) as [r | ] eqn:Hfind.
  - apply find_some in Hfind. destruct Hfind as [Hin Hm].
    apply in_rev, in_map_iff in Hin. destruct Hin as ([k c] & <- & Hin).
    simpl in Hm. apply String.eqb_eq in Hm. subst k.
    now rewrite (In_Map_get _ _ _ Hwf Hin).
  - destruct (Map_get monthMap m) as [c | ] eqn:Hget; [ | reflexivity].
    apply Map_get_Some_In in Hget.
    pose proof (find_none _ _ Hfind (toMonthlyStats (m, c))) as Hnone.
    simpl in Hnone. rewrite String.eqb_refl in Hnone.
    assert (true = false); [ | discriminate].
    apply Hnone. apply -> in_rev. now apply in_map.
Qed.

Lemma visitsIn_written (monthMap : Map Counts.t) (m : string) :
  Map_wf monthMap ->
  visitsIn (map toMonthlyStats monthMap) m
  = Counts.visits (countsAt monthMap m)
  /\ downloadsIn (map toMonthlyStats monthMap) m
     = Counts.downloads (countsAt monthMap m).
Proof.
  intros Hwf. unfold visitsIn, downloadsIn, countsAt.
  rewrite (recordOf_written _ _ Hwf).
  destruct (Map_get monthMap m); simpl; auto.
Qed.

Lemma months_written (monthMap : Map Counts.t) :
  map MonthlyStats.month (map toMonthlyStats monthMap) = Map_keys monthMap.
Proof. rewrite map_map. reflexivity. Qed.

Lemma filter_filter {A : Type} (p q : A -> bool) (l : list A) :
  filter q (filter p l) = filter (fun x => p x && q x) l.
Proof.
  induction l as [ | x l IH]; simpl; [reflexivity | ].
  destruct (p x); simpl; [ | exact IH].
  destruct (q x); now rewrite IH.
Qed.

Lemma visits_sum_updates (updates : list DatasetMonthlyUpdate.t) :
  Counts.visits (sumCounts (map countsOfUpdate updates))
  = Zsum (map DatasetMonthlyUpdate.visits updates)
  /\ Counts.downloads (sumCounts (map countsOfUpdate updates))
     = Zsum (map DatasetMonthlyUpdate.downloads updates).
Proof.
  rewrite visits_sumCounts, downloads_sumCounts, !map_map. auto.
Qed.

Section WithCollation.
Variable localeCompare : option string -> string -> string -> Z.

Lemma mergedMap_wf series updates : Map_wf (mergedMap series updates).
Proof. apply fold_addUpdate_wf, fold_loadMonth_wf, Map_wf_nil. Qed.

(** What is read back from a written merge. *)
Lemma written_merge series updates m :
  visitsIn (written localeCompare (mergedMap series updates)) m
  = visitsIn series m
    + Zsum (map DatasetMonthlyUpdate.visits (updatesOfMonth m updates))
  /\ downloadsIn (written localeCompare (mergedMap series updates)) m
     = downloadsIn series m
       + Zsum (map DatasetMonthlyUpdate.downloads (updatesOfMonth m updates)).
Proof.
  pose proof (mergedMap_wf series updates) as Hwf.
  assert (Hwf' : Map_wf (sort (byMonth localeCompare)
                           (mergedMap series updates)))
    by (eapply Map_wf_perm; [apply Permutation_sym, sort_perm | exact Hwf]).
  destruct (visitsIn_written _ m Hwf') as [Hv Hd].
  unfold written. rewrite Hv, Hd. unfold countsAt.
  rewrite (Map_get_perm _ _ m Hwf (Permutation_sym (sort_perm _ _))).
  fold (countsAt (mergedMap series updates) m).
  unfold mergedMap. rewrite countsAt_fold_addUpdate, countsAt_loaded.
  destruct (visits_sum_updates (updatesOfMonth m updates)) as [Hsv Hsd].
  simpl. rewrite Hsv, Hsd. auto.
Qed.

Lemma written_months series updates :
  Permutation (map MonthlyStats.month (written localeCompare (mergedMap series updates)))
    (Map_keys (mergedMap series updates)).
Proof.
  unfold written. rewrite months_written.
  apply (Permutation_map fst), sort_perm.
Qed.

Lemma written_months_NoDup series updates :
  NoDup (map MonthlyStats.month (written localeCompare (mergedMap series updates))).
Proof.
  apply (Permutation_NoDup (Permutation_sym (written_months _ _))).
  apply mergedMap_wf.
Qed.

Lemma written_months_In series updates m :
  In m (map MonthlyStats.month (written localeCompare (mergedMap series updates)))
  <-> In m (map MonthlyStats.month series)
      \/ In m (map DatasetMonthlyUpdate.month updates).
Proof.
  split.
  - intros H. apply (Permutation_in _ (written_months _ _)) in H.
    unfold mergedMap in H.
    rewrite keys_fold_addUpdate, keys_fold_loadMonth in H. simpl in H.
    tauto.
  - intros H.
    apply (Permutation_in _ (Permutation_sym (written_months _ _))).
    unfold mergedMap.
    rewrite keys_fold_addUpdate, keys_fold_loadMonth. simpl. tauto.
Qed.

Lemma mergeMonthlyData_eq existing newUpdates :
  mergeMonthlyData localeCompare existing newUpdates
  = written localeCompare (mergedMap existing newUpdates).
Proof. reflexivity. Qed.

Lemma monthlyStats_updateDatasetStats existing datasetId newData metadata :
  DatasetStats.monthlyStats
    (updateDatasetStats localeCompare existing datasetId newData metadata)
  = written localeCompare
      (mergedMap (seriesOf existing)
         (filter
            (fun u => (DatasetMonthlyUpdate.datasetId u =? datasetId)%string)
            newData)).
Proof. destruct existing; reflexivity. Qed.

Lemma updatesOfMonth_filter datasetId m newData :
  updatesOfMonth m
    (filter (fun u => (DatasetMonthlyUpdate.datasetId u =? datasetId)%string)
       newData)
  = updatesFor datasetId m newData.
Proof. unfold updatesOfMonth. apply filter_filter. Qed.

(** The per-dataset merge adds, month by month, the new observations of the
    dataset to what the series held. *)
Lemma updateDatasetStats_adds existing datasetId newData metadata m :
  let merged :=
    DatasetStats.monthlyStats
      (updateDatasetStats localeCompare existing datasetId newData metadata)
  in
  visitsIn merged m
  = visitsIn (seriesOf existing) m + newVisits datasetId m newData
  /\ downloadsIn merged m
     = downloadsIn (seriesOf existing) m + newDownloads datasetId m newData.
Proof.
  cbv zeta. rewrite monthlyStats_updateDatasetStats.
  destruct (written_merge (seriesOf existing)
              (filter
                 (fun u =>
                    (DatasetMonthlyUpdate.datasetId u =? datasetId)%string)
                 newData) m) as [Hv Hd].
  rewrite Hv, Hd, updatesOfMonth_filter. auto.
Qed.

(** The global merge does the same with all the updates of the month. *)
Lemma mergeMonthlyData_adds existing newUpdates m :
  let merged := mergeMonthlyData localeCompare existing newUpdates in
  visitsIn merged m
  = visitsIn existing m
    + Zsum (map DatasetMonthlyUpdate.visits (updatesOfMonth m newUpdates))
  /\ downloadsIn merged m
     = downloadsIn existing m
       + Zsum (map DatasetMonthlyUpdate.downloads
                 (updatesOfMonth m newUpdates)).
Proof. cbv zeta. rewrite mergeMonthlyData_eq. apply written_merge. Qed.

Lemma updateDatasetStats_months existing datasetId newData metadata m :
  In m (map MonthlyStats.month
          (DatasetStats.monthlyStats
             (updateDatasetStats localeCompare existing datasetId newData
                metadata)))
  <-> In m (map MonthlyStats.month (seriesOf existing))
      \/ updatesFor datasetId m newData <> [].
Proof.
  rewrite monthlyStats_updateDatasetStats, written_months_In.
  assert (Hiff :
    In m (map DatasetMonthlyUpdate.month
            (filter
               (fun u =>
                  (DatasetMonthlyUpdate.datasetId u =? datasetId)%string)
               newData))
    <-> updatesFor datasetId m newData <> []).
  { unfold updatesFor. rewrite in_map_iff. split.
    - intros (u & Hm & Hu) Hnil. apply filter_In in Hu.
      destruct Hu as [Hu Hid].
      assert (Hin : In u (filter
        (fun u => (DatasetMonthlyUpdate.datasetId u =? datasetId)%string
                  && (DatasetMonthlyUpdate.month u =? m)%string) newData)).
      { apply filter_In. split; [exact Hu | ].
        rewrite Hid, Hm. simpl. apply String.eqb_refl. }
      rewrite Hnil in Hin. exact Hin.
    - intros Hne.
      destruct (filter _ newData) as [ | u l] eqn:Hf; [congruence | ].
      assert (Hin : In u (u :: l)) by now left.
      rewrite <- Hf in Hin. apply filter_In in Hin.
      destruct Hin as [Hu Hb]. apply andb_true_iff in Hb.
      destruct Hb as [Hid Hm]. apply String.eqb_eq in Hm.
      exists u. split; [exact Hm | ]. apply filter_In. auto. }
  now rewrite Hiff.
Qed.

Lemma visitsIn_absent series m :
  ~ In m (map MonthlyStats.month series) ->
  visitsIn series m = 0 /\ downloadsIn series m = 0.
Proof.
  intros Hnot. unfold visitsIn, downloadsIn.
  destruct (recordOf series m) as [r | ] eqn:Hr; [ | auto].
  exfalso. apply Hnot. unfold recordOf in Hr. apply find_some in Hr.
  destruct Hr as [Hin Hm]. apply String.eqb_eq in Hm. subst m.
  apply in_map. now apply in_rev.
Qed.

End WithCollation.

Lemma newVisits_app datasetId m batch1 batch2 :
  newVisits datasetId m (batch1 ++ batch2)
  = newVisits datasetId m batch1 + newVisits datasetId m batch2
  /\ newDownloads datasetId m (batch1 ++ batch2)
     = newDownloads datasetId m batch1 + newDownloads datasetId m batch2.
Proof.
  unfold newVisits, newDownloads, updatesFor.
  rewrite filter_app, !map_app, !Zsum_app. auto.
Qed.

End MergeFacts.

Module MergeClaims.
Import JS Spec JSFacts SumFacts SyncIncremental MergeFacts.

Section WithCollation.
Variable localeCompare : option string -> string -> string -> Z.

(** C1: for any existing series of a dataset and any batch of new monthly
    records, the merged series holds for each month the value it held (0
    when the month was absent) plus the sum of the new values of that
    dataset and month, wherever they stand in the batch; each month occurs
    once; merging the same batch again adds that sum a second time, so that
    the value of a month that was new is doubled. *)
Theorem merge_adds_new_observations
  (existing : option DatasetStats.t) (datasetId : string)
  (newData : list DatasetMonthlyUpdate.t) (metadata : DatagouvDataset.t)
  (m : string) :
  let merged :=
    updateDatasetStats localeCompare existing datasetId newData metadata in
  let again :=
    updateDatasetStats localeCompare (Some merged) datasetId newData metadata
  in
  let before := seriesOf existing in
  (visitsIn (DatasetStats.monthlyStats merged) m
   = visitsIn before m + newVisits datasetId m newData
   /\ downloadsIn (DatasetStats.monthlyStats merged) m
      = downloadsIn before m + newDownloads datasetId m newData)
  /\ NoDup (map MonthlyStats.month (DatasetStats.monthlyStats merged))
  /\ (In m (map MonthlyStats.month (DatasetStats.monthlyStats merged))
      <-> In m (map MonthlyStats.month before)
          \/ updatesFor datasetId m newData <> [])
  /\ (forall batch1 batch2,
        newData = batch1 ++ batch2 ->
        newVisits datasetId m newData
        = newVisits datasetId m batch1 + newVisits datasetId m batch2
        /\ newDownloads datasetId m newData
           = newDownloads datasetId m batch1
             + newDownloads datasetId m batch2)
  /\ (visitsIn (DatasetStats.monthlyStats again) m
      = visitsIn before m + 2 * newVisits datasetId m newData
      /\ downloadsIn (DatasetStats.monthlyStats again) m
         = downloadsIn before m + 2 * newDownloads datasetId m newData)
  /\ (~ In m (map MonthlyStats.month before) ->
      visitsIn (DatasetStats.monthlyStats again) m
      = 2 * visitsIn (DatasetStats.monthlyStats merged) m
      /\ downloadsIn (DatasetStats.monthlyStats again) m
         = 2 * downloadsIn (DatasetStats.monthlyStats merged) m).
Proof.
  intros merged again before. subst merged again before.
  pose proof (updateDatasetStats_adds localeCompare existing datasetId newData
                metadata m) as H1.
  pose proof (updateDatasetStats_adds localeCompare
                (Some (updateDatasetStats localeCompare existing datasetId
                         newData metadata))
                datasetId newData metadata m) as H2.
  cbv zeta in H1, H2. unfold seriesOf at 1 2 in H2.
  destruct H1 as [Hv Hd]. destruct H2 as [Hv2 Hd2].
  split; [auto | ]. split.
  { rewrite monthlyStats_updateDatasetStats.
    apply written_months_NoDup. }
  split; [apply updateDatasetStats_months | ].
  split; [intros b1 b2 ->; apply newVisits_app | ].
  split; [rewrite Hv2, Hd2, Hv, Hd; split; lia | ].
  intros Hnew.
  destruct (visitsIn_absent (seriesOf existing) m Hnew) as [Hv0 Hd0].
  rewrite Hv2, Hd2, Hv, Hd, Hv0, Hd0. split; lia.
Qed.

End WithCollation.
End MergeClaims.

(* ================================================================== *)
(** * Months *)
(* ================================================================== *)

Module MonthFacts.
Import JS Spec JSFacts.

(** ** Digits *)

Lemma N_of_digit (n : Z) : N_of_ascii (digit n) = Z.to_N (48 + n mod 10).
Proof.
  unfold digit, ascii_of_nat.
  assert (H : 0 <= n mod 10 < 10) by (apply Z.mod_pos_bound; lia).
  generalize dependent (n mod 10). intros r Hr.
  rewrite N_ascii_embedding by lia. lia.
Qed.

Lemma digit_compare (a b : Z) :
  Ascii.compare (digit a) (digit b) = Z.compare (a mod 10) (b mod 10).
Proof.
  unfold Ascii.compare. rewrite !N_of_digit.
  assert (Ha : 0 <= a mod 10 < 10) by (apply Z.mod_pos_bound; lia).
  assert (Hb : 0 <= b mod 10 < 10) by (apply Z.mod_pos_bound; lia).
  rewrite Z2N.inj_compare by lia.
  apply Z.add_compare_mono_l.
Qed.

Lemma digit_val_digit (n : Z) : digit_val (digit n) = Some (n mod 10).
Proof.
  unfold digit_val, digit.
  assert (H : 0 <= n mod 10 < 10) by (apply Z.mod_pos_bound; lia).
  generalize dependent (n mod 10). intros r Hr.
  rewrite nat_ascii_embedding by lia.
  replace (Z.of_nat (48 + Z.to_nat r)) with (48 + r) by lia.
  destruct (Z.leb_spec 48 (48 + r)); [ | lia].
  destruct (Z.leb_spec (48 + r) 57); [ | lia].
  cbn [andb]. f_equal. lia.
Qed.

(** ** The written form of a month *)

Lemma formatMonth_eq (y mm : Z) :
  formatMonth y mm
  = String (digit (y / 1000)) (String (digit (y / 100))
      (String (digit (y / 10)) (String (digit y)
         (String "-"%char
            (String (digit (mm / 10)) (String (digit mm) EmptyString)))))).
Proof. reflexivity. Qed.

Lemma split_formatMonth (y mm : Z) :
  0 <= y <= 9999 -> 0 <= mm <= 99 ->
  split_year_month (formatMonth y mm) = Some (y, mm).
Proof.
  intros Hy Hm. rewrite formatMonth_eq. unfold split_year_month.
  rewrite !digit_val_digit. simpl Ascii.eqb. cbv iota.
  f_equal. f_equal; Z.div_mod_to_equations; lia.
Qed.

Lemma compare_cons (a b : ascii) (s t : string) :
  String.compare (String a s) (String b t)
  = match Ascii.compare a b with
    | Eq => String.compare s t
    | c => c
    end.
Proof. reflexivity. Qed.

Lemma compare_formatMonth (y mm y' mm' : Z) :
  0 <= y <= 9999 -> 0 <= mm <= 99 ->
  0 <= y' <= 9999 -> 0 <= mm' <= 99 ->
  String.compare (formatMonth y mm) (formatMonth y' mm')
  = Z.compare (100 * y + mm) (100 * y' + mm').
Proof.
  intros Hy Hm Hy' Hm'. rewrite !formatMonth_eq, !compare_cons.
  rewrite !digit_compare.
  change (Ascii.compare "-" "-") with Eq. cbv iota.
  change (String.compare "" "") with Eq.
  symmetry.
  destruct (Z.compare_spec ((y / 1000) mod 10) ((y' / 1000) mod 10));
    [ | apply Z.compare_lt_iff; Z.div_mod_to_equations; lia
      | apply Z.compare_gt_iff; Z.div_mod_to_equations; lia].
  destruct (Z.compare_spec ((y / 100) mod 10) ((y' / 100) mod 10));
    [ | apply Z.compare_lt_iff; Z.div_mod_to_equations; lia
      | apply Z.compare_gt_iff; Z.div_mod_to_equations; lia].
  destruct (Z.compare_spec ((y / 10) mod 10) ((y' / 10) mod 10));
    [ | apply Z.compare_lt_iff; Z.div_mod_to_equations; lia
      | apply Z.compare_gt_iff; Z.div_mod_to_equations; lia].
  destruct (Z.compare_spec (y mod 10) (y' mod 10));
    [ | apply Z.compare_lt_iff; Z.div_mod_to_equations; lia
      | apply Z.compare_gt_iff; Z.div_mod_to_equations; lia].
  destruct (Z.compare_spec ((mm / 10) mod 10) ((mm' / 10) mod 10));
    [ | apply Z.compare_lt_iff; Z.div_mod_to_equations; lia
      | apply Z.compare_gt_iff; Z.div_mod_to_equations; lia].
  destruct (Z.compare_spec (mm mod 10) (mm' mod 10));
    [ apply Z.compare_eq_iff; Z.div_mod_to_equations; lia
    | apply Z.compare_lt_iff; Z.div_mod_to_equations; lia
    | apply Z.compare_gt_iff; Z.div_mod_to_equations; lia].
Qed.

(** ** Months by index *)

Lemma monthOfIndex_parts (i : Z) :
  0 <= i < 120000 -> 0 <= i / 12 <= 9999 /\ 1 <= i mod 12 + 1 <= 12.
Proof. intros Hi. Z.div_mod_to_equations. lia. Qed.

(** On written months the order of strings is the order of time. *)
Lemma compare_monthOfIndex (i j : Z) :
  0 <= i < 120000 -> 0 <= j < 120000 ->
  String.compare (monthOfIndex i) (monthOfIndex j) = Z.compare i j.
Proof.
  intros Hi Hj. unfold monthOfIndex.
  destruct (monthOfIndex_parts i Hi) as [Hyi Hmi].
  destruct (monthOfIndex_parts j Hj) as [Hyj Hmj].
  rewrite compare_formatMonth by lia.
  destruct (Z.compare_spec i j) as [H | H | H].
  - subst j. apply Z.compare_refl.
  - apply Z.compare_lt_iff. Z.div_mod_to_equations. lia.
  - apply Z.compare_gt_iff. Z.div_mod_to_equations. lia.
Qed.

Lemma str_le_monthOfIndex (i j : Z) :
  0 <= i < 120000 -> 0 <= j < 120000 ->
  str_le (monthOfIndex i) (monthOfIndex j) = (i <=? j).
Proof.
  intros Hi Hj. unfold str_le, String.leb.
  rewrite compare_monthOfIndex by assumption.
  unfold Z.leb. now destruct (i ?= j).
Qed.

Lemma str_lt_monthOfIndex (i j : Z) :
  0 <= i < 120000 -> 0 <= j < 120000 ->
  str_lt (monthOfIndex i) (monthOfIndex j) = (i <? j).
Proof.
  intros Hi Hj. unfold str_lt. rewrite str_le_monthOfIndex by assumption.
  destruct (Z.leb_spec j i), (Z.ltb_spec i j); simpl; try reflexivity; lia.
Qed.

Lemma monthOfIndex_inj (i j : Z) :
  0 <= i < 120000 -> 0 <= j < 120000 ->
  monthOfIndex i = monthOfIndex j -> i = j.
Proof.
  intros Hi Hj Heq.
  pose proof (compare_monthOfIndex i j Hi Hj) as Hc.
  rewrite Heq in Hc.
  assert (Hrefl : String.compare (monthOfIndex j) (monthOfIndex j) = Eq).
  { rewrite (compare_monthOfIndex j j Hj Hj). apply Z.compare_refl. }
  rewrite Hrefl in Hc. symmetry in Hc. now apply Z.compare_eq_iff.
Qed.

Lemma split_monthOfIndex (i : Z) :
  0 <= i < 120000 ->
  split_year_month (monthOfIndex i) = Some (i / 12, i mod 12 + 1).
Proof.
  intros Hi. destruct (monthOfIndex_parts i Hi).
  unfold monthOfIndex. apply split_formatMonth; lia.
Qed.

Lemma daysInMonth_ge_28 (y m : Z) : 28 <= daysInMonth y m.
Proof.
  unfold daysInMonth.
  destruct (m =? 1); [destruct (isLeapYear y); lia | ].
  destruct ((m =? 3) || (m =? 5) || (m =? 8) || (m =? 10)); lia.
Qed.

Lemma MakeDate_short_day (y m d : Z) :
  d <= 28 -> MakeDate y m d = mkDate (y + m / 12) (m mod 12) d.
Proof.
  intros Hd. unfold MakeDate.
  pose proof (daysInMonth_ge_28 (y + m / 12) (m mod 12)).
  destruct (Z.leb_spec d (daysInMonth (y + m / 12) (m mod 12)));
    [reflexivity | lia].
Qed.

(** The written form of the month of a date. *)
Lemma toISOString_slice_0_7_index (y m d : Z) :
  0 <= m <= 11 -> 0 <= 12 * y + m < 120000 ->
  toISOString_slice_0_7 (mkDate y m d) = monthOfIndex (12 * y + m).
Proof.
  intros Hm Hi. unfold toISOString_slice_0_7, monthOfIndex.
  cbn [getFullYear getMonth].
  destruct (Z.leb_spec 0 y); [ | lia].
  destruct (Z.leb_spec y 9999); [ | lia].
  cbn [andb]. unfold formatMonth.
  replace ((12 * y + m) / 12) with y by (Z.div_mod_to_equations; lia).
  replace ((12 * y + m) mod 12) with m by (Z.div_mod_to_equations; lia).
  reflexivity.
Qed.

(** ** The successor of a month *)

Lemma getNextMonth_monthOfIndex (i : Z) :
  validIndex i ->
  SyncIncremental.getNextMonth (monthOfIndex i) = Some (monthOfIndex (i + 1)).
Proof.
  unfold validIndex. intros Hi. unfold SyncIncremental.getNextMonth.
  rewrite split_monthOfIndex by lia.
  unfold Date_UTC.
  assert (Hy : 100 <= i / 12 <= 9999) by (Z.div_mod_to_equations; lia).
  destruct (Z.leb_spec 0 (i / 12)); [ | lia].
  destruct (Z.leb_spec (i / 12) 99); [lia | ].
  cbn [andb]. rewrite MakeDate_short_day by lia.
  f_equal. rewrite toISOString_slice_0_7_index.
  - f_equal. Z.div_mod_to_equations. lia.
  - Z.div_mod_to_equations. lia.
  - Z.div_mod_to_equations. lia.
Qed.

Lemma monthNumber_monthOfIndex (i : Z) :
  0 <= i < 120000 -> SyncIncremental.monthNumber (monthOfIndex i) = i + 1.
Proof.
  intros Hi. unfold SyncIncremental.monthNumber.
  rewrite split_monthOfIndex by assumption.
  Z.div_mod_to_equations. lia.
Qed.

(** ** The months to fetch *)

Lemma getMonthsToFetch_loop_spec (j : Z) :
  0 <= j < 119999 ->
  forall fuel i,
    1200 <= i <= j + 1 ->
    (Z.to_nat (j + 1 - i) < fuel)%nat ->
    SyncIncremental.getMonthsToFetch_loop fuel (monthOfIndex i)
      (monthOfIndex j)
    = SyncIncremental.Done
        (map monthOfIndex (Zseq i (Z.to_nat (j + 1 - i)))).
Proof.
  intros Hj. induction fuel as [ | fuel IH]; intros i Hi Hfuel; [lia | ].
  cbn [SyncIncremental.getMonthsToFetch_loop].
  rewrite str_le_monthOfIndex by lia.
  destruct (Z.leb_spec i j) as [Hle | Hgt].
  - rewrite getNextMonth_monthOfIndex by (unfold validIndex; lia).
    rewrite IH by lia.
    replace (Z.to_nat (j + 1 - i)) with (S (Z.to_nat (j + 1 - (i + 1))))
      by lia.
    reflexivity.
  - replace (Z.to_nat (j + 1 - i)) with O by lia. reflexivity.
Qed.

(** [getMonthsToFetch] returns the months after the last one up to the
    current one; the bound on the iterations is never reached. *)
Lemma getMonthsToFetch_spec (i j : Z) :
  validIndex i -> validIndex j ->
  SyncIncremental.getMonthsToFetch (monthOfIndex i) (monthOfIndex j)
  = SyncIncremental.Done (monthsBetween i j).
Proof.
  unfold validIndex. intros Hi Hj.
  unfold SyncIncremental.getMonthsToFetch,
    SyncIncremental.getMonthsToFetch_fuel, SyncIncremental.fuelFor.
  rewrite getNextMonth_monthOfIndex by (unfold validIndex; lia).
  rewrite !monthNumber_monthOfIndex by lia.
  unfold monthsBetween.
  destruct (Z.le_gt_cases i j) as [Hle | Hgt].
  - rewrite getMonthsToFetch_loop_spec by lia.
    do 3 f_equal. lia.
  - cbn [SyncIncremental.getMonthsToFetch_loop].
    rewrite str_le_monthOfIndex by lia.
    destruct (Z.leb_spec (i + 1) j); [lia | ].
    replace (Z.to_nat (j - i)) with O by lia. reflexivity.
Qed.

Lemma In_Zseq (n : nat) : forall i x, In x (Zseq i n) <-> i <= x < i + Z.of_nat n.
Proof.
  induction n as [ | n IH]; intros i x; simpl.
  - lia.
  - rewrite IH. lia.
Qed.

Lemma In_monthsBetween (i j : Z) (s : string) :
  In s (monthsBetween i j) <-> exists n, i < n <= j /\ s = monthOfIndex n.
Proof.
  unfold monthsBetween. rewrite in_map_iff. split.
  - intros (n & <- & Hn). apply In_Zseq in Hn. exists n. split; [lia | auto].
  - intros (n & Hn & ->). exists n. split; [reflexivity | ].
    apply In_Zseq. lia.
Qed.

Lemma monthsBetween_nil (i j : Z) : j <= i -> monthsBetween i j = [].
Proof.
  intros H. unfold monthsBetween.
  replace (Z.to_nat (j - i)) with O by lia. reflexivity.
Qed.

Lemma monthsBetween_cons (i j : Z) :
  i < j ->
  monthsBetween i j = monthOfIndex (i + 1) :: monthsBetween (i + 1) j.
Proof.
  intros H. unfold monthsBetween.
  replace (Z.to_nat (j - i)) with (S (Z.to_nat (j - (i + 1)))) by lia.
  reflexivity.
Qed.

(** ** Months ago *)

Lemma getMonthsAgo_index (y m d n : Z) :
  0 <= m <= 11 -> 1 <= d <= 28 ->
  0 <= 12 * y + m - n -> 12 * y + m - n < 120000 ->
  SyncStats.getMonthsAgo (mkDate y m d) n = monthOfIndex (12 * y + m - n).
Proof.
  intros Hm Hd Hlo Hhi. unfold SyncStats.getMonthsAgo, setMonth.
  cbn [getFullYear getMonth getDate].
  rewrite MakeDate_short_day by lia.
  rewrite toISOString_slice_0_7_index.
  - f_equal. Z.div_mod_to_equations. lia.
  - Z.div_mod_to_equations. lia.
  - Z.div_mod_to_equations. lia.
Qed.

End MonthFacts.

(* ================================================================== *)
(** * The months to fetch and the ranking windows *)
(* ================================================================== *)

Module IncrementalClaims.
Import JS Spec JSFacts MonthFacts SyncIncremental.

Lemma str_le_refl (s : string) : str_le s s = true.
Proof.
  unfold str_le, String.leb.
  destruct (String.compare s s) eqn:Hc; try reflexivity.
  pose proof (String.compare_antisym s s) as Ha. rewrite Hc in Ha.
  discriminate.
Qed.

Lemma StronglySorted_last {A : Type} (R : A -> A -> Prop) (l : list A)
  (x : A) :
  StronglySorted R (l ++ [x]) -> Forall (fun y => R y x) l.
Proof.
  induction l as [ | a l IH]; simpl; intros Hs; [constructor | ].
  inversion Hs as [ | ? ? Hs' Hall]; subst.
  constructor; [ | now apply IH].
  rewrite Forall_forall in Hall. apply Hall, in_or_app. right. now left.
Qed.

Section WithCollation.
Variable localeCompare : option string -> string -> string -> Z.

Lemma main_eq options now lastUpdate monthApi metadataApi fs globalStats
  earlier lastRecord :
  Files.global_stats fs = Some globalStats ->
  GlobalStats.monthlyStats globalStats = earlier ++ [lastRecord] ->
  main localeCompare options now lastUpdate monthApi metadataApi fs
  = match getMonthsToFetch (MonthlyStats.month lastRecord)
            (getCurrentMonth now) with
    | Done [] => Done (upToDate, fs)
    | Done monthsToFetch =>
        Done (synchronise localeCompare options now lastUpdate monthApi
                metadataApi fs globalStats monthsToFetch)
    | Undefined => Undefined
    | OutOfFuel => OutOfFuel
    end.
Proof.
  intros Hgs Hseries. unfold main.
  rewrite Hgs, Hseries, rev_app_distr. reflexivity.
Qed.

(** C6: let the existing global series end with the month of index [i] and
    let the current month have index [j].  The months to fetch are computed
    (the loop ends) and are the months of index [i+1] to [j]: exactly the
    months that, as strings, are after the last month and not after the
    current one.  When the series is in ascending order its last month is
    its latest.  When [j <= i], in particular when the current month is the
    last known month, there is no month to fetch and the run ends as "up to
    date", not as an error, with the files unchanged; otherwise the run
    goes on with the synchronisation of these months. *)
Theorem months_to_fetch_and_no_op
  (options : SyncOptions.t) (now : Date) (lastUpdate : string)
  (monthApi : string -> list (option MetricApiDatasetResponse.t))
  (metadataApi : string -> option DatagouvDataset.t)
  (fs : Files.t) (globalStats : GlobalStats.t)
  (earlier : list MonthlyStats.t) (lastRecord : MonthlyStats.t) (i j : Z) :
  validIndex i -> validIndex j ->
  Files.global_stats fs = Some globalStats ->
  GlobalStats.monthlyStats globalStats = earlier ++ [lastRecord] ->
  MonthlyStats.month lastRecord = monthOfIndex i ->
  getCurrentMonth now = monthOfIndex j ->
  let months := monthsBetween i j in
  let run :=
    main localeCompare options now lastUpdate monthApi metadataApi fs in
  getMonthsToFetch (monthOfIndex i) (monthOfIndex j) = Done months
  /\ (forall n,
        validIndex n ->
        In (monthOfIndex n) months
        <-> str_lt (monthOfIndex i) (monthOfIndex n) = true
            /\ str_le (monthOfIndex n) (monthOfIndex j) = true)
  /\ (forall s, In s months -> exists n, validIndex n /\ s = monthOfIndex n)
  /\ (StronglySorted
        (fun a b =>
           str_le (MonthlyStats.month a) (MonthlyStats.month b) = true)
        (GlobalStats.monthlyStats globalStats) ->
      forall s,
        In s (GlobalStats.monthlyStats globalStats) ->
        str_le (MonthlyStats.month s) (monthOfIndex i) = true)
  /\ (j <= i -> months = [] /\ run = Done (upToDate, fs))
  /\ (i < j ->
      months <> []
      /\ run
         = Done (synchronise localeCompare options now lastUpdate monthApi
                   metadataApi fs globalStats months)).
Proof.
  intros Hi Hj Hgs Hseries Hlast Hnow months run.
  assert (Hrun :
    run = match getMonthsToFetch (monthOfIndex i) (monthOfIndex j) with
          | Done [] => Done (upToDate, fs)
          | Done monthsToFetch =>
              Done (synchronise localeCompare options now lastUpdate monthApi
                      metadataApi fs globalStats monthsToFetch)
          | Undefined => Undefined
          | OutOfFuel => OutOfFuel
          end).
  { unfold run. rewrite (main_eq _ _ _ _ _ _ _ _ _ Hgs Hseries).
    now rewrite Hlast, Hnow. }
  rewrite (getMonthsToFetch_spec i j Hi Hj) in Hrun. fold months in Hrun.
  unfold validIndex in Hi, Hj.
  split; [now apply getMonthsToFetch_spec | ].
  split.
  { intros n Hn. unfold validIndex in Hn. unfold months.
    rewrite In_monthsBetween, str_lt_monthOfIndex, str_le_monthOfIndex
      by lia.
    rewrite Z.ltb_lt, Z.leb_le. split.
    - intros (n' & Hn' & Heq).
      apply monthOfIndex_inj in Heq; [subst n'; lia | lia | lia].
    - intros H. exists n. auto. }
  split.
  { intros s Hs. apply In_monthsBetween in Hs.
    destruct Hs as (n & Hn & ->). exists n.
    split; [unfold validIndex; lia | reflexivity]. }
  split.
  { intros Hsorted s Hs. rewrite Hseries in Hsorted, Hs.
    apply in_app_or in Hs. destruct Hs as [Hs | [<- | []]].
    - apply StronglySorted_last in Hsorted.
      rewrite Forall_forall in Hsorted. rewrite <- Hlast.
      now apply Hsorted.
    - rewrite Hlast. apply str_le_refl. }
  split.
  - intros Hle. assert (Hnil : months = []) by now apply monthsBetween_nil.
    split; [exact Hnil | ]. now rewrite Hrun, Hnil.
  - intros Hlt.
    assert (Hcons : months
                    = monthOfIndex (i + 1) :: monthsBetween (i + 1) j)
      by now apply monthsBetween_cons.
    split; [rewrite Hcons; discriminate | ].
    rewrite Hrun. now rewrite Hcons.
Qed.

End WithCollation.
End IncrementalClaims.

Module WindowFacts.
Import JS Spec JSFacts SumFacts MonthFacts SyncStats.

Lemma getStatsForPeriod_from (entries : list (string * Counts.t))
  (startMonth endMonth : string) :
  forall acc,
    fold_left
      (fun acc entry =>
         if str_ge (fst entry) startMonth && str_le (fst entry) endMonth
         then Counts.mk (Counts.visits acc + Counts.visits (snd entry))
                (Counts.downloads acc + Counts.downloads (snd entry))
         else acc)
      entries acc
    = plus acc
        (sumCounts (map snd (filter (inWindow startMonth endMonth) entries))).
Proof.
  induction entries as [ | e entries IH]; intros acc; simpl.
  - now rewrite plus_zero_r.
  - rewrite IH. unfold inWindow at 2.
    destruct (str_ge (fst e) startMonth && str_le (fst e) endMonth); simpl.
    + now rewrite <- plus_assoc.
    + reflexivity.
Qed.

(** The counts of a window are the sums over the months of the dataset
    that lie in it. *)
Lemma getStatsForPeriod_window (metrics : DatasetMetrics.t)
  (startMonth endMonth : string) :
  getStatsForPeriod metrics startMonth endMonth
  = sumCounts
      (map snd
         (filter (inWindow startMonth endMonth)
            (DatasetMetrics.monthlyStats metrics))).
Proof.
  unfold getStatsForPeriod. rewrite getStatsForPeriod_from.
  apply plus_zero_l.
Qed.

(** When the day of the month is at most 28, the windows are those of the
    table: with [a] the index of the current month, week is [a, a] after
    [a-1, a-1], month is [a-1, a] after [a-2, a-2], year is [a-12, a] after
    [a-24, a-13], and all-time starts at the fixed month 2022-07. *)
Lemma periods_before_the_29th (y m d : Z) :
  0 <= m <= 11 -> 1 <= d <= 28 -> 24 <= 12 * y + m < 120000 ->
  let now := mkDate y m d in
  let a := 12 * y + m in
  getCurrentMonth now = monthOfIndex a
  /\ periods now Period.week
     = PeriodConfig.mk (monthOfIndex a) (monthOfIndex (a - 1))
         (monthOfIndex (a - 1))
  /\ periods now Period.month
     = PeriodConfig.mk (monthOfIndex (a - 1)) (monthOfIndex (a - 2))
         (monthOfIndex (a - 2))
  /\ periods now Period.year
     = PeriodConfig.mk (monthOfIndex (a - 12)) (monthOfIndex (a - 24))
         (monthOfIndex (a - 13))
  /\ periods now Period.allTime
     = PeriodConfig.mk "2022-07" "2022-07" "2022-07".
Proof.
  intros Hm Hd Ha now a. unfold periods.
  unfold now. rewrite !getMonthsAgo_index by lia.
  replace (12 * y + m - 0) with a by (unfold a; lia).
  split; [apply toISOString_slice_0_7_index; lia | ].
  repeat split.
Qed.

(** C3: on the 31st of March 2024 the month "one month ago" is computed as
    2024-03, the current month, and not 2024-02: setting the month of the
    date to February gives the 31st of February, which is the 2nd of March.
    The previous window of the week period is then the current window, the
    month period loses February, and the previous window of the year period
    ends in March 2023 instead of February 2023.  For the dataset E of the
    sample (10, 20 and 30 visits from January to March 2024) the week
    ranking then shows 30 visits after 30, where the windows of the table
    give 30 after 20, as they do on the 15th. *)
Theorem getMonthsAgo_rolls_over_at_month_end :
  let a := 12 * 2024 + 2 in
  let weekOn (day : Date) :=
    map (fun e => (DatasetRanking.value e, DatasetRanking.previousValue e))
      (rankingsOf
         (calculateTopDatasets day Sample.lastUpdate [Sample.metricsE]
            Sample.metadataMap)
         Period.week Metric.visits) in
  getCurrentMonth Sample.endOfMarch = monthOfIndex a
  /\ monthOfIndex (a - 1) = "2024-02"%string
  /\ getMonthsAgo Sample.endOfMarch 1 = "2024-03"%string
  /\ periods Sample.endOfMarch Period.week
     = PeriodConfig.mk "2024-03" "2024-03" "2024-03"
  /\ periods Sample.endOfMarch Period.month
     = PeriodConfig.mk "2024-03" "2024-01" "2024-01"
  /\ periods Sample.endOfMarch Period.year
     = PeriodConfig.mk "2023-03" "2022-03" "2023-03"
  /\ weekOn Sample.endOfMarch = [(30, 30)]
  /\ weekOn Sample.now = [(30, 20)].
Proof. vm_compute. repeat split. Qed.

End WindowFacts.

(* ================================================================== *)
(** * Worked examples *)
(* ================================================================== *)

Module Examples.
Import JS Spec Collation Sample.
Local Open Scope string_scope.

(** December is followed by January of the next year. *)
Example getNextMonth_december :
  SyncIncremental.getNextMonth "2024-12" = Some "2025-01"%string
  /\ SyncIncremental.getNextMonth "2024-01" = Some "2024-02"%string.
Proof. vm_compute. split; reflexivity. Qed.

Example getMonthsToFetch_over_new_year :
  SyncIncremental.getMonthsToFetch "2023-11" "2024-02"
  = SyncIncremental.Done ["2023-12"; "2024-01"; "2024-02"]%string.
Proof. vm_compute. reflexivity. Qed.

(** The dataset E on the 15th of March 2024: the year window holds its
    three months, the month window February and March, after January. *)
Example windows_of_E :
  let current (period : Period.t) :=
    SyncStats.getStatsForPeriod metricsE
      (SyncStats.PeriodConfig.start (SyncStats.periods now period))
      (SyncStats.getCurrentMonth now) in
  let previous (period : Period.t) :=
    SyncStats.getStatsForPeriod metricsE
      (SyncStats.PeriodConfig.prevStart (SyncStats.periods now period))
      (SyncStats.PeriodConfig.prevEnd (SyncStats.periods now period)) in
  Counts.visits (current Period.year) = 60
  /\ Counts.visits (current Period.month) = 50
  /\ Counts.visits (previous Period.month) = 10
  /\ SyncStats.trendOf 50 10 = 400%float.
Proof. vm_compute. repeat split. Qed.

(** The full synchronisation keeps, for a month served twice, the entry
    read last. *)
Example fetchDatasetMetrics_month_served_twice :
  option_map SyncStats.DatasetMetrics.monthlyStats
    (SyncStats.fetchDatasetMetrics "E"
       [page [entry "E" "2024-03" 30 (Some 7)] (Some "page=2");
        page [entry "E" "2024-03" 1 None] None])
  = Some [("2024-03"%string, Counts.mk 1 0)].
Proof. vm_compute. reflexivity. Qed.

(** A title without accent shows the difference between the order of code
    units and the model of the French collation. *)
Example titles_with_Zoo :
  let titles (localeCompare : option string -> string -> string -> Z) :=
    map DatasetSummary.title
      (DatasetsIndex.datasets
         (SyncStats.createDatasetsIndex localeCompare lastUpdate
            (titledMap ++ [("Z", dataset "Z" "Zoo" None)])%list)) in
  titles codeUnits = ["Agriculture"; "Zoo"; "Élection"; "Énergie"]%string
  /\ titles primary = ["Agriculture"; "Élection"; "Énergie"; "Zoo"]%string.
Proof. vm_compute. split; reflexivity. Qed.

End Examples.

(* ================================================================== *)
(** * The statements on the sample data *)
(* ================================================================== *)

Module Witnesses.
Import JS Spec Collation Sample.

Ltac distinct_keys :=
  unfold Map_wf; simpl;
  repeat (apply NoDup_cons; [simpl; intuition discriminate | ]);
  apply NoDup_nil.

Ltac each_distinct_keys :=
  repeat (apply Forall_cons; [distinct_keys | ]); apply Forall_nil.

(** The merge of April 2024 into the record of E, done twice, doubles the
    value of April. *)
Lemma merge_adds_new_observations_witness :
  let merged :=
    SyncIncremental.updateDatasetStats codeUnits (Some statsE) "E" april
      datasetE in
  let again :=
    SyncIncremental.updateDatasetStats codeUnits (Some merged) "E" april
      datasetE in
  ~ In "2024-04"%string
      (map MonthlyStats.month (seriesOf (Some statsE)))
  /\ visitsIn (DatasetStats.monthlyStats merged) "2024-04" = 0 + 42
  /\ visitsIn (DatasetStats.monthlyStats again) "2024-04"
     = 2 * visitsIn (DatasetStats.monthlyStats merged) "2024-04".
Proof.
  intros merged again.
  assert (Hnew : ~ In "2024-04"%string
                     (map MonthlyStats.month (seriesOf (Some statsE))))
    by (simpl; intuition discriminate).
  pose proof (MergeClaims.merge_adds_new_observations codeUnits
                (Some statsE) "E" april datasetE "2024-04") as H.
  cbv zeta in H.
  destruct H as ([Hv _] & _ & _ & _ & _ & Hdouble).
  split; [exact Hnew | ].
  split; [exact Hv | ].
  exact (proj1 (Hdouble Hnew)).
Defined.

(** The global series of the three sample datasets in March 2024. *)
Lemma global_series_is_sum_of_entity_series_witness :
  Forall (fun d => Map_wf (SyncStats.DatasetMetrics.monthlyStats d))
    allMetrics
  /\ In marchRecord
       (GlobalStats.monthlyStats
          (SyncStats.calculateGlobalStats codeUnits lastUpdate allMetrics))
  /\ MonthlyStats.visits marchRecord
     = Zsum (map (fun d => visitsOf d "2024-03") allMetrics).
Proof.
  assert (Hwf : Forall
                  (fun d => Map_wf (SyncStats.DatasetMetrics.monthlyStats d))
                  allMetrics)
    by each_distinct_keys.
  assert (Hin : In marchRecord
                  (GlobalStats.monthlyStats
                     (SyncStats.calculateGlobalStats codeUnits lastUpdate
                        allMetrics)))
    by (vm_compute; auto).
  split; [exact Hwf | ]. split; [exact Hin | ].
  pose proof (GlobalSeries.global_series_is_sum_of_entity_series codeUnits
                lastUpdate allMetrics Hwf) as H.
  cbv zeta in H. destruct H as (_ & _ & H).
  exact (proj1 (H marchRecord Hin)).
Defined.

(** The 102 numbered datasets are given in increasing order of visits.  The
    week ranking has the 100 with the most visits, in decreasing order: the
    dataset 102 comes first, the datasets 100 and 101, of equal value, come
    next in input order, and of the datasets 2 and 3, of equal value, the
    first is the last entry and the second is left out. *)
Lemma ranking_sorted_stable_truncated_ranked_witness :
  let ranking :=
    rankingsOf
      (SyncStats.calculateTopDatasets now lastUpdate MoreSample.manyMetrics
         MoreSample.manyMetadata)
      Period.week Metric.visits in
  Z.of_nat (List.length ranking) = 100
  /\ StronglySorted
       (fun a b => DatasetRanking.value a >= DatasetRanking.value b) ranking
  /\ map DatasetRanking.id (firstn 3 ranking)
     = ["0102"; "0100"; "0101"]%string
  /\ map DatasetRanking.id (skipn 97 ranking)
     = ["0004"; "0005"; "0002"]%string
  /\ map DatasetRanking.rank (skipn 97 ranking) = [98; 99; 100].
Proof.
  intros ranking.
  pose proof (RankingClaims.ranking_sorted_stable_truncated_ranked now
                lastUpdate MoreSample.manyMetrics MoreSample.manyMetadata
                Period.week Metric.visits)
    as H.
  cbv zeta in H. destruct H as (Hsorted & _ & _ & _ & _ & Hlen & _).
  split; [etransitivity; [exact Hlen | reflexivity] | ].
  split; [exact Hsorted | ].
  split; [reflexivity | ]. split; reflexivity.
Defined.

(** In the all-time ranking of the sample the first entry has no previous
    value and a trend of 0. *)
Lemma trend_of_ranking_entries_witness :
  let top :=
    SyncStats.calculateTopDatasets now lastUpdate allMetrics metadataMap in
  let first :=
    SyncStats.rankingOf Metric.visits
      (SyncStats.WithStats.mk metricsE datasetE (Counts.mk 60 12)
         SyncStats.zeroCounts) 0 in
  In first (rankingsOf top Period.allTime Metric.visits)
  /\ DatasetRanking.previousValue first = 0
  /\ DatasetRanking.trend first = 0%float.
Proof.
  intros top first.
  assert (Hin : In first (rankingsOf top Period.allTime Metric.visits))
    by (vm_compute; auto).
  split; [exact Hin | ].
  pose proof (RankingClaims.trend_of_ranking_entries now lastUpdate
                allMetrics metadataMap) as H.
  cbv zeta in H. destruct H as (_ & H & _).
  exact (H Metric.visits first Hin).
Defined.

(** The current month being the last month of the sample files, the run is
    up to date and leaves the files as they are. *)
Lemma months_to_fetch_and_no_op_witness :
  validIndex 24290
  /\ Files.global_stats files = Some globalStats
  /\ MonthlyStats.month marchRecord = monthOfIndex 24290
  /\ SyncIncremental.getCurrentMonth now = monthOfIndex 24290
  /\ SyncIncremental.main codeUnits options now lastUpdate monthApi
       metadataApi files
     = SyncIncremental.Done (SyncIncremental.upToDate, files).
Proof.
  assert (Hi : validIndex 24290) by (unfold validIndex; lia).
  assert (Hlast : MonthlyStats.month marchRecord = monthOfIndex 24290)
    by reflexivity.
  assert (Hnow : SyncIncremental.getCurrentMonth now = monthOfIndex 24290)
    by reflexivity.
  split; [exact Hi | ]. split; [reflexivity | ].
  split; [exact Hlast | ]. split; [exact Hnow | ].
  pose proof (IncrementalClaims.months_to_fetch_and_no_op codeUnits options
                now lastUpdate monthApi metadataApi files globalStats
                [MonthlyStats.mk "2024-01" 10 0; MonthlyStats.mk "2024-02" 24 6]
                marchRecord 24290 24290 Hi Hi eq_refl eq_refl Hlast Hnow)
    as H.
  cbv zeta in H. destruct H as (_ & _ & _ & _ & Hnoop & _).
  apply Hnoop. lia.
Defined.

(** The dataset G of the sample has no metadata: it is counted in the
    totals and absent from the week ranking and from the directory. *)
Lemma unresolvable_metadata_counted_but_not_listed_witness :
  let metadataMap := SyncStats.fetchAllMetadata metadataApi allMetrics in
  Forall (fun d => Map_wf (SyncStats.DatasetMetrics.monthlyStats d))
    allMetrics
  /\ metadataApi (SyncStats.DatasetMetrics.datasetId metricsG) = None
  /\ GlobalStats.totalVisits
       (SyncStats.calculateGlobalStats codeUnits lastUpdate allMetrics)
     = Zsum (map SyncStats.DatasetMetrics.totalVisits [metricsE; metricsF])
       + 5
  /\ ~ In "G"%string
         (map DatasetSummary.id
            (DatasetsIndex.datasets
               (SyncStats.createDatasetsIndex codeUnits lastUpdate
                  metadataMap))).
Proof.
  intros metadataMap.
  assert (Hwf : Forall
                  (fun d => Map_wf (SyncStats.DatasetMetrics.monthlyStats d))
                  allMetrics)
    by each_distinct_keys.
  assert (Hnone : metadataApi (SyncStats.DatasetMetrics.datasetId metricsG)
                  = None) by reflexivity.
  pose proof (MetadataClaims.unresolvable_metadata_counted_but_not_listed
                codeUnits now lastUpdate metadataApi [metricsE] [metricsF]
                metricsG Hwf Hnone) as H.
  destruct H as ([Htotal _] & _ & _ & _ & Hdir).
  split; [exact Hwf | ]. split; [exact Hnone | ].
  split; [exact Htotal | ].
  intros Hin. apply in_map_iff in Hin. destruct Hin as (s & Hid & Hs).
  exact (Hdir s Hs Hid).
Defined.

(** The sample titles under the model of the French collation. *)
Lemma directory_deduplicated_and_sorted_witness :
  Map_wf titledMap
  /\ consistent (SyncStats.byTitle primary)
  /\ map DatasetSummary.title
       (DatasetsIndex.datasets
          (SyncStats.createDatasetsIndex primary lastUpdate titledMap))
     = ["Agriculture"; "Élection"; "Énergie"]%string.
Proof.
  assert (Hwf : Map_wf titledMap) by distinct_keys.
  pose proof CollationFacts.byTitle_primary_consistent as Hcons.
  split; [exact Hwf | ]. split; [exact Hcons | ].
  pose proof (DirectoryClaims.directory_deduplicated_and_sorted primary
                lastUpdate titledMap Hwf Hcons) as H.
  cbv zeta in H. destruct H as (_ & _ & _ & H).
  apply H; reflexivity.
Defined.

(** The first entry of E has a null download count: 0 is stored. *)
Lemma null_downloads_stored_as_zero_witness :
  SyncStats.fetchDatasetMetrics "E" responsesE = Some metricsE
  /\ MetricApiDatasetEntry.monthly_download_resource januaryE = None
  /\ Map_get (SyncStats.DatasetMetrics.monthlyStats metricsE) "2024-01"
     = Some (Counts.mk 10 0).
Proof.
  assert (Hfetch : SyncStats.fetchDatasetMetrics "E" responsesE
                   = Some metricsE) by reflexivity.
  split; [exact Hfetch | ]. split; [reflexivity | ].
  pose proof (MetadataClaims.null_downloads_stored_as_zero "E" responsesE
                metricsE []
                [Sample.entry "E" "2024-02" 20 (Some 5);
                 Sample.entry "E" "2024-03" 30 (Some 7)]
                januaryE Hfetch eq_refl) as H.
  cbv zeta in H. apply H.
  simpl. intros e [<- | [<- | []]]; discriminate.
Defined.

(** The dataset E of the sample has no organization. *)
Lemma null_organization_defaults_witness :
  Map_wf metadataMap
  /\ Map_get metadataMap "E" = Some datasetE
  /\ DatagouvDataset.organization datasetE = None
  /\ DatasetStats.organization
       (SyncStats.createDatasetStats codeUnits metricsE datasetE)
     = "Inconnu"%string
  /\ DatasetStats.organizationId
       (SyncStats.createDatasetStats codeUnits metricsE datasetE)
     = ""%string.
Proof.
  assert (Hwf : Map_wf metadataMap) by distinct_keys.
  split; [exact Hwf | ]. split; [reflexivity | ]. split; [reflexivity | ].
  pose proof (MetadataClaims.null_organization_defaults codeUnits now
                lastUpdate allMetrics metadataMap "E" datasetE Hwf eq_refl
                eq_refl) as H.
  destruct H as (_ & _ & H). exact (H metricsE).
Defined.

End Witnesses.


(* ================================================================== *)
(** * Retries *)
(* ================================================================== *)

Module RetryFacts.
Import JS Spec More Retry.

Lemma Zseq_S (i : Z) (n : nat) : Zseq i (S n) = i :: Zseq (i + 1) n.
Proof. reflexivity. Qed.

Lemma fetchWithRetry_from_success {T : Type} (attempt : Z -> option T)
  (retries k : Z) (body : T) :
  k < retries ->
  attempt k = Some body ->
  forall (n : nat) (i : Z) (remaining : nat),
    0 <= i ->
    n = Z.to_nat (k - i) -> i <= k ->
    (Z.to_nat (k - i) < remaining)%nat ->
    (forall j, i <= j < k -> attempt j = None) ->
    fetchWithRetry_from attempt retries remaining i
    = (Returned body,
       map (fun j => 1000 * (j + 1)) (Zseq i (Z.to_nat (k - i)))).
Proof.
  intros Hk Hbody. induction n as [ | n IH];
    intros i remaining Hi Hn Hik Hrem Hfail.
  - assert (i = k) by lia. subst i.
    destruct remaining as [ | remaining]; [lia | ].
    simpl. rewrite Hbody. now rewrite <- Hn.
  - destruct remaining as [ | remaining]; [lia | ].
    simpl. rewrite (Hfail i) by lia.
    destruct (Z.eqb_spec i (retries - 1)); [lia | ].
    rewrite (IH (i + 1) remaining) by (try lia; intros; apply Hfail; lia).
    simpl. rewrite <- Hn.
    replace (Z.to_nat (k - (i + 1))) with n by lia.
    reflexivity.
Qed.

Lemma fetchWithRetry_from_failure {T : Type} (attempt : Z -> option T)
  (retries : Z) :
  forall (n : nat) (i : Z) (remaining : nat),
    0 <= i ->
    n = Z.to_nat (retries - 1 - i) -> i <= retries - 1 ->
    (Z.to_nat (retries - 1 - i) < remaining)%nat ->
    (forall j, i <= j < retries -> attempt j = None) ->
    fetchWithRetry_from attempt retries remaining i
    = (Rethrown,
       map (fun j => 1000 * (j + 1)) (Zseq i (Z.to_nat (retries - 1 - i)))).
Proof.
  induction n as [ | n IH]; intros i remaining Hi Hn Hik Hrem Hfail.
  - assert (i = retries - 1) by lia.
    destruct remaining as [ | remaining]; [lia | ].
    simpl. rewrite (Hfail i) by lia.
    destruct (Z.eqb_spec i (retries - 1)); [ | lia].
    now rewrite <- Hn.
  - destruct remaining as [ | remaining]; [lia | ].
    simpl. rewrite (Hfail i) by lia.
    destruct (Z.eqb_spec i (retries - 1)); [lia | ].
    rewrite (IH (i + 1) remaining) by (try lia; intros; apply Hfail; lia).
    simpl. rewrite <- Hn.
    replace (Z.to_nat (retries - 1 - (i + 1))) with n by lia.
    reflexivity.
Qed.

Lemma Zsum_delays_from (n : nat) :
  forall i,
    2 * Zsum (map (fun j => 1000 * (j + 1)) (Zseq i n))
    = 1000 * Z.of_nat n * (2 * i + Z.of_nat n + 1).
Proof.
  induction n as [ | n IH]; intros i.
  - simpl. lia.
  - rewrite Zseq_S. cbn [map Zsum fold_right].
    change (fold_right Z.add 0 (map (fun j => 1000 * (j + 1)) (Zseq (i + 1) n)))
      with (Zsum (map (fun j => 1000 * (j + 1)) (Zseq (i + 1) n))).
    specialize (IH (i + 1)). nia.
Qed.

(** X1: [fetchWithRetry] returns the body of the first attempt that
    succeeds among the first [retries] ones, and has slept 1000 ms after
    the first failure, 2000 ms after the second, and so on, once after each
    failure that precedes the success. *)
Theorem fetchWithRetry_first_success {T : Type} (attempt : Z -> option T)
  (retries k : Z) (body : T) :
  0 <= k < retries ->
  (forall j, 0 <= j < k -> attempt j = None) ->
  attempt k = Some body ->
  fetchWithRetry attempt retries = (Returned body, delays (Z.to_nat k)).
Proof.
  intros Hk Hfail Hbody. unfold fetchWithRetry, delays.
  rewrite (fetchWithRetry_from_success attempt retries k body (proj2 Hk) Hbody
             (Z.to_nat (k - 0)) 0 (Z.to_nat retries)); try lia.
  - now rewrite Z.sub_0_r.
  - exact Hfail.
Qed.

(** X2: when the first [retries] attempts all fail, [fetchWithRetry]
    rethrows the error of the last one after exactly [retries - 1] sleeps,
    none after the last attempt; their total is
    [500 * retries * (retries - 1)] ms, 3000 ms for the default of 3
    attempts.  With [retries <= 0] no attempt is made and the error after
    the loop is thrown. *)
Theorem fetchWithRetry_all_fail {T : Type} (attempt : Z -> option T)
  (retries : Z) :
  (1 <= retries ->
   (forall j, 0 <= j < retries -> attempt j = None) ->
   fetchWithRetry attempt retries
   = (Rethrown, delays (Z.to_nat (retries - 1)))
   /\ Zsum (delays (Z.to_nat (retries - 1))) = 500 * retries * (retries - 1))
  /\ (retries <= 0 -> fetchWithRetry attempt retries = (Unreachable, [])).
Proof.
  split.
  - intros Hr Hfail. split.
    + unfold fetchWithRetry, delays.
      rewrite (fetchWithRetry_from_failure attempt retries
                 (Z.to_nat (retries - 1 - 0)) 0 (Z.to_nat retries));
        try lia.
      * now rewrite Z.sub_0_r.
      * exact Hfail.
    + unfold delays.
      pose proof (Zsum_delays_from (Z.to_nat (retries - 1)) 0) as H.
      rewrite Z2Nat.id in H by lia. nia.
  - intros Hr. unfold fetchWithRetry.
    replace (Z.to_nat retries) with O by lia. reflexivity.
Qed.

End RetryFacts.


(* ================================================================== *)
(** * Reading the metric API *)
(* ================================================================== *)

Module FetchFacts.
Import JS Spec More JSFacts SumFacts SyncStats SyncStatsFacts.

(** ** Sets *)

Lemma Set_has_In (s : StrSet) (x : string) : Set_has s x = true <-> In x s.
Proof.
  unfold Set_has. rewrite existsb_exists. split.
  - intros (y & Hy & Heq). apply String.eqb_eq in Heq. now subst.
  - intros H. exists x. split; [exact H | apply String.eqb_refl].
Qed.

Lemma In_Set_add (s : StrSet) (x y : string) :
  In y (Set_add s x) <-> In y s \/ y = x.
Proof.
  unfold Set_add. destruct (Set_has s x) eqn:Hhas.
  - apply Set_has_In in Hhas. split; [auto | ].
    intros [H | ->]; assumption.
  - rewrite in_app_iff. simpl. intuition.
Qed.

Lemma Set_add_NoDup (s : StrSet) (x : string) :
  NoDup s -> NoDup (Set_add s x).
Proof.
  intros Hnd. unfold Set_add. destruct (Set_has s x) eqn:Hhas; [exact Hnd | ].
  assert (Hnot : ~ In x s).
  { intros Hin. apply Set_has_In in Hin. congruence. }
  apply NoDup_rev in Hnd. rewrite <- (rev_involutive (s ++ [x])).
  apply NoDup_rev. rewrite rev_app_distr. simpl.
  constructor; [now rewrite <- in_rev | exact Hnd].
Qed.

Lemma fold_Set_add_In {A : Type} (f : A -> string) (l : list A) :
  forall (s : StrSet) (y : string),
    In y (fold_left (fun s x => Set_add s (f x)) l s)
    <-> In y s \/ In y (map f l).
Proof.
  induction l as [ | x l IH]; intros s y; simpl.
  - tauto.
  - rewrite IH, In_Set_add. intuition.
Qed.

Lemma fold_Set_add_NoDup {A : Type} (f : A -> string) (l : list A) :
  forall s : StrSet,
    NoDup s -> NoDup (fold_left (fun s x => Set_add s (f x)) l s).
Proof.
  induction l as [ | x l IH]; intros s Hnd; simpl; [exact Hnd | ].
  apply IH. now apply Set_add_NoDup.
Qed.

(** ** The list of dataset ids *)

Lemma fetchAllDatasetIds_pages_spec options responses :
  forall datasetIds result,
    NoDup datasetIds ->
    fetchAllDatasetIds_pages options responses datasetIds = Some result ->
    NoDup result
    /\ (forall id,
          In id result ->
          In id datasetIds
          \/ In id (map MetricApiDatasetEntry.dataset_id
                      (entriesRead responses)))
    /\ (limitReached options result = true
        \/ forall id,
             In id datasetIds
             \/ In id (map MetricApiDatasetEntry.dataset_id
                         (entriesRead responses)) ->
             In id result).
Proof.
  induction responses as [ | [response | ] rest IH]; simpl;
    intros datasetIds result Hnd H; try discriminate.
  set (ids' := addDatasetIds datasetIds
                 (MetricApiDatasetResponse.data response)) in *.
  assert (Hnd' : NoDup ids') by now apply fold_Set_add_NoDup.
  assert (Hin' : forall id,
             In id ids'
             <-> In id datasetIds
                 \/ In id (map MetricApiDatasetEntry.dataset_id
                             (MetricApiDatasetResponse.data response)))
    by (intros id; apply fold_Set_add_In).
  destruct (limitReached options ids') eqn:Hlimit.
  - injection H as <-. split; [exact Hnd' | ]. split.
    + intros id Hid. apply Hin' in Hid. rewrite map_app, in_app_iff. tauto.
    + now left.
  - destruct (MetricApiLinks.next (MetricApiDatasetResponse.links response)).
    + destruct (IH ids' result Hnd' H) as (Hr & Hsound & Hcomplete).
      split; [exact Hr | ]. split.
      * intros id Hid. rewrite map_app, in_app_iff.
        destruct (Hsound id Hid) as [Hid' | Hid']; [ | tauto].
        apply Hin' in Hid'. tauto.
      * destruct Hcomplete as [Hl | Hc]; [now left | right].
        intros id Hid. apply Hc. rewrite map_app, in_app_iff in Hid.
        rewrite Hin'. tauto.
    + injection H as <-. split; [exact Hnd' | ]. split.
      * intros id Hid. apply Hin' in Hid. now rewrite app_nil_r.
      * right. intros id Hid. rewrite app_nil_r in Hid. now apply Hin'.
Qed.

(** X3: the ids returned by [fetchAllDatasetIds] are distinct and are ids
    of entries of the pages served; unless the limit of the test mode was
    reached, they are all the ids of the pages read. *)
Theorem fetchAllDatasetIds_distinct_and_complete
  (options : SyncOptions.t)
  (responses : list (option MetricApiDatasetResponse.t))
  (datasetIds : list string) :
  fetchAllDatasetIds options responses = Some datasetIds ->
  NoDup datasetIds
  /\ (forall id,
        In id datasetIds ->
        In id (map MetricApiDatasetEntry.dataset_id (entriesRead responses)))
  /\ (limitReached options datasetIds = true
      \/ forall id,
           In id (map MetricApiDatasetEntry.dataset_id
                    (entriesRead responses)) ->
           In id datasetIds)
  /\ (SyncOptions.maxDatasets options = None ->
      limitReached options datasetIds = false).
Proof.
  intros H. unfold fetchAllDatasetIds in H.
  destruct (fetchAllDatasetIds_pages_spec options responses [] datasetIds
              (NoDup_nil _) H) as (Hnd & Hsound & Hcomplete).
  split; [exact Hnd | ]. split.
  - intros id Hid. destruct (Hsound id Hid) as [[] | Hin]. exact Hin.
  - split.
    + destruct Hcomplete as [Hl | Hc]; [now left | right].
      intros id Hid. apply Hc. now right.
    + intros Hnone. unfold limitReached. now rewrite Hnone.
Qed.

(** ** The metrics of a dataset *)

Lemma Map_set_absent {V : Type} (m : Map V) (k : string) (v : V) :
  Map_get m k = None -> Map_set m k v = m ++ [(k, v)].
Proof.
  induction m as [ | [k' v'] m IH]; simpl; [reflexivity | ].
  destruct (String.eqb_spec k' k); [discriminate | ].
  intros H. now rewrite IH.
Qed.

Lemma storeEntry_eq monthlyStats entry :
  storeEntry monthlyStats entry
  = Map_set monthlyStats (fst (bindingOfEntry entry))
      (snd (bindingOfEntry entry)).
Proof.
  unfold storeEntry, bindingOfEntry, downloadsOfEntry. simpl.
  now rewrite num_or_0, opt_num_or_0.
Qed.

Lemma keys_fold_storeEntry entries :
  forall monthlyStats k,
    In k (Map_keys (fold_left storeEntry entries monthlyStats))
    <-> In k (Map_keys monthlyStats)
        \/ In k (map MetricApiDatasetEntry.metric_month entries).
Proof.
  induction entries as [ | e entries IH]; intros m k; simpl.
  - tauto.
  - rewrite IH, storeEntry_eq, In_Map_keys_set. simpl.
    intuition (subst; auto).
Qed.

(** Entries for distinct months that the map does not hold yet are added
    one after the other. *)
Lemma fold_storeEntry_distinct entries :
  forall monthlyStats,
    NoDup (map MetricApiDatasetEntry.metric_month entries) ->
    (forall e, In e entries ->
       Map_get monthlyStats (MetricApiDatasetEntry.metric_month e) = None) ->
    fold_left storeEntry entries monthlyStats
    = monthlyStats ++ map bindingOfEntry entries.
Proof.
  induction entries as [ | e entries IH]; intros m Hnd Habs; simpl.
  - now rewrite app_nil_r.
  - inversion Hnd as [ | ? ? Hnotin Hnd']; subst.
    rewrite storeEntry_eq, Map_set_absent
      by (apply Habs; now left).
    rewrite IH; [now rewrite <- app_assoc | exact Hnd' | ].
    intros e' He'. apply Map_get_None. unfold Map_keys.
    rewrite map_app, in_app_iff. simpl. intros [Hin | [Heq | []]].
    + apply Map_get_None in Hin; [exact Hin | ]. apply Habs. now right.
    + apply Hnotin. rewrite Heq. now apply in_map.
Qed.

Lemma fetchDatasetMetrics_eq datasetId responses metrics :
  fetchDatasetMetrics datasetId responses = Some metrics ->
  metrics
  = DatasetMetrics.mk datasetId
      (fold_left storeEntry (entriesRead responses) [])
      (sumVisits (Map_values (fold_left storeEntry (entriesRead responses) [])))
      (sumDownloads
         (Map_values (fold_left storeEntry (entriesRead responses) []))).
Proof.
  unfold fetchDatasetMetrics.
  destruct (fetchDatasetMetrics_pages responses []) as [m | ] eqn:Hp;
    [ | discriminate].
  intros [= <-].
  now rewrite (fetchDatasetMetrics_pages_entriesRead _ _ _ Hp).
Qed.

(** X4: when [fetchDatasetMetrics] succeeds, the record has the id asked
    for, one binding per month, for exactly the months of the entries read,
    and totals that are the sums over these bindings; when the entries read
    are for distinct months, the bindings are those of the entries, in
    order, and the totals are the sums of their visit and download counts, a
    null download count counting for 0. *)
Theorem fetchDatasetMetrics_series_and_totals
  (datasetId : string)
  (responses : list (option MetricApiDatasetResponse.t))
  (metrics : DatasetMetrics.t) :
  fetchDatasetMetrics datasetId responses = Some metrics ->
  let entries := entriesRead responses in
  let monthlyStats := DatasetMetrics.monthlyStats metrics in
  DatasetMetrics.datasetId metrics = datasetId
  /\ Map_wf monthlyStats
  /\ (forall m,
        In m (Map_keys monthlyStats)
        <-> In m (map MetricApiDatasetEntry.metric_month entries))
  /\ DatasetMetrics.totalVisits metrics
     = Zsum (map Counts.visits (Map_values monthlyStats))
  /\ DatasetMetrics.totalDownloads metrics
     = Zsum (map Counts.downloads (Map_values monthlyStats))
  /\ (NoDup (map MetricApiDatasetEntry.metric_month entries) ->
      monthlyStats = map bindingOfEntry entries
      /\ DatasetMetrics.totalVisits metrics
         = Zsum (map MetricApiDatasetEntry.monthly_visit entries)
      /\ DatasetMetrics.totalDownloads metrics
         = Zsum (map downloadsOfEntry entries)).
Proof.
  intros Hfetch entries monthlyStats.
  pose proof (fetchDatasetMetrics_wf _ _ _ Hfetch) as Hwf.
  apply fetchDatasetMetrics_eq in Hfetch.
  subst monthlyStats entries. rewrite Hfetch. cbn [DatasetMetrics.datasetId
    DatasetMetrics.monthlyStats DatasetMetrics.totalVisits
    DatasetMetrics.totalDownloads].
  split; [reflexivity | ]. split.
  { apply fold_storeEntry_wf, Map_wf_nil. }
  split.
  { intros m. rewrite keys_fold_storeEntry. simpl. tauto. }
  unfold sumVisits, sumDownloads. rewrite !fold_left_total.
  split; [lia | ]. split; [lia | ].
  intros Hnd.
  rewrite (fold_storeEntry_distinct _ [] Hnd) by reflexivity.
  simpl. split; [reflexivity | ].
  unfold Map_values. rewrite !map_map. simpl. split; reflexivity.
Qed.

(** ** Skipping the datasets that fail *)

Lemma fetchDatasetMetrics_id datasetId responses metrics :
  fetchDatasetMetrics datasetId responses = Some metrics ->
  DatasetMetrics.datasetId metrics = datasetId.
Proof. intros H. apply fetchDatasetMetrics_eq in H. now rewrite H. Qed.

Lemma fetchDatasetMetrics_pages_interrupted pages :
  Forall
    (fun r =>
       exists response,
         r = Some response
         /\ MetricApiLinks.next (MetricApiDatasetResponse.links response)
            <> None)
    pages ->
  forall rest monthlyStats,
    fetchDatasetMetrics_pages (pages ++ None :: rest) monthlyStats = None
    /\ fetchDatasetMetrics_pages pages monthlyStats = None.
Proof.
  induction 1 as [ | r pages (response & -> & Hnext) _ IH];
    intros rest m; simpl; [auto | ].
  destruct (MetricApiLinks.next (MetricApiDatasetResponse.links response));
    [apply IH | congruence].
Qed.

(** X5: a dataset whose pages are cut short, by a request that fails or by
    a last page that still announces a next one, has no metrics; [main]
    skips such datasets and keeps the metrics of the others, in the order
    of the ids. *)
Theorem failed_datasets_are_skipped
  (metricApi : string -> list (option MetricApiDatasetResponse.t))
  (datasetIds : list string) :
  let fetched (id : string) := fetchDatasetMetrics id (metricApi id) in
  map DatasetMetrics.datasetId (fetchAllMetrics metricApi datasetIds)
  = filter (fun id => isSome (fetched id)) datasetIds
  /\ (forall metrics,
        In metrics (fetchAllMetrics metricApi datasetIds)
        <-> exists id, In id datasetIds /\ fetched id = Some metrics)
  /\ (forall id pages rest,
        Forall
          (fun r =>
             exists response,
               r = Some response
               /\ MetricApiLinks.next
                    (MetricApiDatasetResponse.links response) <> None)
          pages ->
        fetchDatasetMetrics id (pages ++ None :: rest) = None
        /\ fetchDatasetMetrics id pages = None).
Proof.
  intros fetched. split; [ | split].
  - unfold fetchAllMetrics.
    induction datasetIds as [ | id ids IH]; simpl; [reflexivity | ].
    fold (fetched id). destruct (fetched id) as [m | ] eqn:Hm; simpl.
    + rewrite IH. f_equal. now apply fetchDatasetMetrics_id in Hm.
    + exact IH.
  - intros metrics. unfold fetchAllMetrics.
    rewrite filter_nonnull_In, in_map_iff. split.
    + intros (id & Hm & Hid). exists id. auto.
    + intros (id & Hid & Hm). exists id. auto.
  - intros id pages rest Hpages. unfold fetchDatasetMetrics.
    destruct (fetchDatasetMetrics_pages_interrupted pages Hpages rest [])
      as [H1 H2].
    now rewrite H1, H2.
Qed.

End FetchFacts.


(* ================================================================== *)
(** * Order and totals of the global statistics *)
(* ================================================================== *)

Module GlobalFacts.
Import JS Spec More JSFacts SumFacts SyncStats SyncStatsFacts GlobalSeries.

Lemma plus_comm (a b : Counts.t) : plus a b = plus b a.
Proof. unfold plus. f_equal; lia. Qed.

Lemma Zsum_perm (l l' : list Z) : Permutation l l' -> Zsum l = Zsum l'.
Proof.
  induction 1 as [ | x l l' _ IH | x y l | l l' l'' _ IH1 _ IH2]; simpl;
    lia.
Qed.

Lemma countsAt_cons (k' : string) (v' : Counts.t) (m : Map Counts.t)
  (k : string) :
  countsAt ((k', v') :: m) k = if (k' =? k)%string then v' else countsAt m k.
Proof.
  unfold countsAt. simpl. now destruct (k' =? k)%string.
Qed.

Lemma sumCounts_values_cons (k : string) (v : Counts.t) (m : Map Counts.t) :
  sumCounts (Map_values ((k, v) :: m)) = plus v (sumCounts (Map_values m)).
Proof. reflexivity. Qed.

(** Adding counts to a binding adds them to the sum of the map. *)
Lemma sumCounts_Map_add (m : Map Counts.t) (k : string) (c : Counts.t) :
  sumCounts (Map_values (Map_set m k (plus (countsAt m k) c)))
  = plus (sumCounts (Map_values m)) c.
Proof.
  induction m as [ | [k' v'] m IH].
  - simpl. unfold countsAt. simpl. now rewrite plus_zero_l, plus_zero_r.
  - rewrite countsAt_cons. cbn [Map_set].
    destruct (String.eqb_spec k' k) as [-> | Hne];
      rewrite !sumCounts_values_cons.
    + rewrite !plus_assoc. f_equal. apply plus_comm.
    + rewrite IH. now rewrite plus_assoc.
Qed.

Lemma sumCounts_fold_addToAggregates entries :
  forall monthlyAggregates,
    sumCounts (Map_values (fold_left addToAggregates entries monthlyAggregates))
    = plus (sumCounts (Map_values monthlyAggregates))
        (sumCounts (Map_values entries)).
Proof.
  induction entries as [ | e entries IH]; intros agg; simpl.
  - now rewrite plus_zero_r.
  - rewrite IH, addToAggregates_eq, sumCounts_Map_add.
    now rewrite plus_assoc.
Qed.

Lemma sumCounts_aggregateFrom allMetrics :
  forall monthlyAggregates,
    sumCounts (Map_values (aggregateFrom monthlyAggregates allMetrics))
    = plus (sumCounts (Map_values monthlyAggregates))
        (sumCounts
           (map (fun d => sumCounts (Map_values (DatasetMetrics.monthlyStats d)))
              allMetrics)).
Proof.
  unfold aggregateFrom.
  induction allMetrics as [ | d ds IH]; intros agg; simpl.
  - now rewrite plus_zero_r.
  - now rewrite IH, sumCounts_fold_addToAggregates, plus_assoc.
Qed.

Section WithCollation.
Variable localeCompare : option string -> string -> string -> Z.

Lemma series_sums_calculateGlobalStats lastUpdate allMetrics :
  let g := calculateGlobalStats localeCompare lastUpdate allMetrics in
  seriesVisits (GlobalStats.monthlyStats g)
  = Counts.visits (sumCounts (Map_values (monthlyAggregatesOf allMetrics)))
  /\ seriesDownloads (GlobalStats.monthlyStats g)
     = Counts.downloads
         (sumCounts (Map_values (monthlyAggregatesOf allMetrics))).
Proof.
  cbv zeta. rewrite monthlyStats_calculateGlobalStats.
  unfold seriesVisits, seriesDownloads.
  rewrite visits_sumCounts, downloads_sumCounts.
  unfold Map_values. rewrite !map_map. simpl.
  pose proof (sort_perm (byMonth localeCompare)
                (monthlyAggregatesOf allMetrics)) as Hp.
  split; apply Zsum_perm; now apply Permutation_map.
Qed.

(** X7: when the totals of each dataset are the sums of its monthly counts,
    as [fetchDatasetMetrics] makes them, the totals of the global
    statistics are the sums of the global monthly series. *)
Theorem global_totals_are_sums_of_the_series
  (lastUpdate : string) (allMetrics : list DatasetMetrics.t) :
  Forall
    (fun d =>
       DatasetMetrics.totalVisits d
       = Zsum (map Counts.visits (Map_values (DatasetMetrics.monthlyStats d)))
       /\ DatasetMetrics.totalDownloads d
          = Zsum (map Counts.downloads
                    (Map_values (DatasetMetrics.monthlyStats d))))
    allMetrics ->
  let g := calculateGlobalStats localeCompare lastUpdate allMetrics in
  GlobalStats.totalVisits g = seriesVisits (GlobalStats.monthlyStats g)
  /\ GlobalStats.totalDownloads g
     = seriesDownloads (GlobalStats.monthlyStats g).
Proof.
  intros Htotals g.
  destruct (series_sums_calculateGlobalStats lastUpdate allMetrics)
    as [Hv Hd].
  destruct (global_totals localeCompare lastUpdate allMetrics) as [Htv Htd].
  fold g in Hv, Hd, Htv, Htd. rewrite Hv, Hd, Htv, Htd.
  unfold monthlyAggregatesOf. rewrite sumCounts_aggregateFrom.
  simpl. rewrite visits_sumCounts, downloads_sumCounts, !map_map.
  rewrite Forall_forall in Htotals.
  split; f_equal; apply map_ext_in; intros d Hd'.
  - rewrite visits_sumCounts. apply (Htotals d Hd').
  - rewrite downloads_sumCounts. apply (Htotals d Hd').
Qed.

(** X6: for a consistent collation the global monthly series is in
    ascending order of month; the start date is the first month of the
    series, so that no month of the series is before it, and is "2022-07"
    when the series is empty; without any dataset the statistics are all
    zero. *)
Theorem global_series_sorted_and_start
  (lastUpdate : string) (allMetrics : list DatasetMetrics.t) :
  consistent (byMonth localeCompare) ->
  let g := calculateGlobalStats localeCompare lastUpdate allMetrics in
  StronglySorted
    (fun a b =>
       localeCompare None (MonthlyStats.month a) (MonthlyStats.month b) <= 0)
    (GlobalStats.monthlyStats g)
  /\ GlobalStats.totalDatasets g = Z.of_nat (List.length allMetrics)
  /\ (GlobalStats.monthlyStats g = [] ->
      GlobalStats.startDate g = "2022-07"%string)
  /\ (forall first rest,
        GlobalStats.monthlyStats g = first :: rest ->
        MonthlyStats.month first <> ""%string ->
        GlobalStats.startDate g = MonthlyStats.month first
        /\ forall s,
             In s rest ->
             localeCompare None (GlobalStats.startDate g)
               (MonthlyStats.month s) <= 0)
  /\ (allMetrics = [] ->
      g = GlobalStats.mk 0 0 0 "2022-07" lastUpdate []).
Proof.
  intros Hcons g.
  assert (Hsorted :
    StronglySorted
      (fun a b =>
         localeCompare None (MonthlyStats.month a) (MonthlyStats.month b)
         <= 0)
      (GlobalStats.monthlyStats g)).
  { unfold g. rewrite monthlyStats_calculateGlobalStats.
    apply StronglySorted_map. apply (sort_sorted _ Hcons). }
  split; [exact Hsorted | ]. split; [reflexivity | ].
  assert (Hempty : allMetrics = [] ->
                   g = GlobalStats.mk 0 0 0 "2022-07" lastUpdate [])
    by (intros ->; reflexivity).
  unfold g, calculateGlobalStats in *.
  cbn [GlobalStats.monthlyStats GlobalStats.startDate] in *.
  destruct (sort (byMonth localeCompare) (monthlyAggregatesOf allMetrics))
    as [ | p ps]; cbn [map] in *.
  - split; [reflexivity | ]. split; [ | exact Hempty].
    intros first rest Heq. discriminate Heq.
  - split; [intros Heq; discriminate Heq | ]. split; [ | exact Hempty].
    intros first rest Heq Hne. injection Heq as <- <-.
    cbn [toMonthlyStats MonthlyStats.month] in Hne.
    assert (Hstart : str_or (fst p) "2022-07" = fst p).
    { unfold str_or. destruct (String.eqb_spec (fst p) ""); congruence. }
    rewrite Hstart. split; [reflexivity | ].
    intros s Hs. inversion Hsorted as [ | ? ? _ Hall]; subst.
    rewrite Forall_forall in Hall. exact (Hall s Hs).
Qed.

End WithCollation.
End GlobalFacts.


(* ================================================================== *)
(** * Totals, order and round trip of the incremental merge *)
(* ================================================================== *)

Module MergeMoreFacts.
Import JS Spec More JSFacts SumFacts SyncIncremental MergeFacts.
Import FetchFacts GlobalFacts.

Lemma sort_sorted_id {A : Type} (compareFn : A -> A -> Z) (l : list A) :
  StronglySorted (fun a b => compareFn a b <= 0) l -> sort compareFn l = l.
Proof.
  induction 1 as [ | x l Hs IH Hall]; simpl; [reflexivity | ].
  rewrite IH. destruct l as [ | y l]; [reflexivity | ].
  simpl. inversion Hall as [ | ? ? Hxy _]; subst.
  destruct (Z.leb_spec (compareFn x y) 0); [reflexivity | lia].
Qed.

Lemma toMonthlyStats_bindingOfRecord (s : MonthlyStats.t) :
  toMonthlyStats (bindingOfRecord s) = s.
Proof. now destruct s. Qed.

Lemma loadMonth_eq monthMap stat :
  loadMonth monthMap stat
  = Map_set monthMap (fst (bindingOfRecord stat)) (snd (bindingOfRecord stat)).
Proof. reflexivity. Qed.

(** A series with distinct months is loaded as it stands. *)
Lemma fold_loadMonth_distinct series :
  forall monthMap,
    NoDup (map MonthlyStats.month series) ->
    (forall s, In s series ->
       Map_get monthMap (MonthlyStats.month s) = None) ->
    fold_left loadMonth series monthMap
    = monthMap ++ map bindingOfRecord series.
Proof.
  induction series as [ | s series IH]; intros m Hnd Habs; simpl.
  - now rewrite app_nil_r.
  - inversion Hnd as [ | ? ? Hnotin Hnd']; subst.
    rewrite loadMonth_eq, Map_set_absent by (apply Habs; now left).
    rewrite IH; [now rewrite <- app_assoc | exact Hnd' | ].
    intros s' Hs'. apply Map_get_None. unfold Map_keys.
    rewrite map_app, in_app_iff. simpl. intros [Hin | [Heq | []]].
    + apply Map_get_None in Hin; [exact Hin | ]. apply Habs. now right.
    + apply Hnotin. rewrite Heq. now apply in_map.
Qed.

Lemma loaded_distinct series :
  NoDup (map MonthlyStats.month series) ->
  fold_left loadMonth series [] = map bindingOfRecord series.
Proof.
  intros Hnd. now rewrite (fold_loadMonth_distinct series [] Hnd).
Qed.

Lemma sumCounts_fold_addUpdate updates :
  forall monthMap,
    sumCounts (Map_values (fold_left addUpdate updates monthMap))
    = plus (sumCounts (Map_values monthMap))
        (sumCounts (map countsOfUpdate updates)).
Proof.
  induction updates as [ | u updates IH]; intros m; simpl.
  - now rewrite plus_zero_r.
  - rewrite IH, addUpdate_eq, sumCounts_Map_add. now rewrite plus_assoc.
Qed.

Lemma sumCounts_mergedMap series updates :
  NoDup (map MonthlyStats.month series) ->
  sumCounts (Map_values (mergedMap series updates))
  = plus (sumCounts (map countsOfRecord series))
      (sumCounts (map countsOfUpdate updates)).
Proof.
  intros Hnd. unfold mergedMap.
  rewrite sumCounts_fold_addUpdate, (loaded_distinct _ Hnd).
  unfold Map_values. now rewrite map_map.
Qed.

Lemma sumVisits_eq series : sumVisits series = seriesVisits series.
Proof. unfold sumVisits, seriesVisits. rewrite fold_left_total. lia. Qed.

Lemma sumDownloads_eq series : sumDownloads series = seriesDownloads series.
Proof. unfold sumDownloads, seriesDownloads. rewrite fold_left_total. lia. Qed.

Lemma str_or_empty (s : string) : str_or s "" = s.
Proof. unfold str_or. now destruct (String.eqb_spec s ""). Qed.

Section WithCollation.
Variable localeCompare : option string -> string -> string -> Z.

Lemma series_sums_written monthMap :
  seriesVisits (written localeCompare monthMap)
  = Counts.visits (sumCounts (Map_values monthMap))
  /\ seriesDownloads (written localeCompare monthMap)
     = Counts.downloads (sumCounts (Map_values monthMap)).
Proof.
  unfold written, seriesVisits, seriesDownloads.
  rewrite visits_sumCounts, downloads_sumCounts.
  unfold Map_values. rewrite !map_map. simpl.
  pose proof (sort_perm (byMonth localeCompare) monthMap) as Hp.
  split; apply Zsum_perm; now apply Permutation_map.
Qed.

Lemma series_sums_merge series updates :
  NoDup (map MonthlyStats.month series) ->
  seriesVisits (written localeCompare (mergedMap series updates))
  = seriesVisits series + Zsum (map DatasetMonthlyUpdate.visits updates)
  /\ seriesDownloads (written localeCompare (mergedMap series updates))
     = seriesDownloads series
       + Zsum (map DatasetMonthlyUpdate.downloads updates).
Proof.
  intros Hnd.
  destruct (series_sums_written (mergedMap series updates)) as [Hv Hd].
  rewrite Hv, Hd, (sumCounts_mergedMap _ _ Hnd). simpl.
  rewrite !visits_sumCounts, !downloads_sumCounts, !map_map. simpl.
  unfold seriesVisits, seriesDownloads. auto.
Qed.

Lemma written_sorted monthMap :
  consistent (byMonth localeCompare) ->
  StronglySorted
    (fun a b =>
       localeCompare None (MonthlyStats.month a) (MonthlyStats.month b) <= 0)
    (written localeCompare monthMap).
Proof.
  intros Hcons. unfold written. apply StronglySorted_map.
  apply (sort_sorted _ Hcons).
Qed.

(** X8: the totals that [updateGlobalStats] writes are the sums of the
    merged series; when the months of the existing series are distinct they
    are the sums of the existing series plus the sums of all the updates, so
    that consistent totals grow by exactly the counts of the batch.  The
    start date is kept. *)
Theorem updateGlobalStats_totals
  (lastUpdate : string) (existing : GlobalStats.t)
  (allUpdates : list DatasetMonthlyUpdate.t) (totalDatasets : Z) :
  NoDup (map MonthlyStats.month (GlobalStats.monthlyStats existing)) ->
  let g :=
    updateGlobalStats localeCompare lastUpdate existing allUpdates
      totalDatasets in
  let newVisits := Zsum (map DatasetMonthlyUpdate.visits allUpdates) in
  let newDownloads := Zsum (map DatasetMonthlyUpdate.downloads allUpdates) in
  (GlobalStats.totalVisits g = seriesVisits (GlobalStats.monthlyStats g)
   /\ GlobalStats.totalDownloads g
      = seriesDownloads (GlobalStats.monthlyStats g))
  /\ (GlobalStats.totalVisits g
      = seriesVisits (GlobalStats.monthlyStats existing) + newVisits
      /\ GlobalStats.totalDownloads g
         = seriesDownloads (GlobalStats.monthlyStats existing) + newDownloads)
  /\ (GlobalStats.totalVisits existing
      = seriesVisits (GlobalStats.monthlyStats existing) ->
      GlobalStats.totalVisits g = GlobalStats.totalVisits existing + newVisits)
  /\ GlobalStats.startDate g = GlobalStats.startDate existing
  /\ GlobalStats.totalDatasets g = totalDatasets.
Proof.
  intros Hnd g newVisits newDownloads.
  destruct (series_sums_merge (GlobalStats.monthlyStats existing) allUpdates
              Hnd) as [Hv Hd].
  unfold g, updateGlobalStats, mergeMonthlyData.
  cbn [GlobalStats.totalVisits GlobalStats.totalDownloads
       GlobalStats.monthlyStats GlobalStats.startDate
       GlobalStats.totalDatasets].
  rewrite sumVisits_eq, sumDownloads_eq, Hv, Hd.
  repeat split; try reflexivity.
  intros ->. reflexivity.
Qed.

(** X9: merging an empty batch into a series that has distinct months in
    ascending order gives the series back. *)
Theorem mergeMonthlyData_nothing_new (series : list MonthlyStats.t) :
  NoDup (map MonthlyStats.month series) ->
  StronglySorted
    (fun a b =>
       localeCompare None (MonthlyStats.month a) (MonthlyStats.month b) <= 0)
    series ->
  mergeMonthlyData localeCompare series [] = series.
Proof.
  intros Hnd Hsorted. unfold mergeMonthlyData, written, mergedMap.
  cbn [fold_left]. rewrite (loaded_distinct _ Hnd).
  rewrite sort_sorted_id.
  - rewrite map_map. rewrite <- (map_id series) at 2.
    apply map_ext. apply toMonthlyStats_bindingOfRecord.
  - clear Hnd. induction Hsorted as [ | s l Hs IH Hall]; simpl;
      constructor; [exact IH | ].
    apply Forall_forall. intros b Hb. apply in_map_iff in Hb.
    destruct Hb as (s' & <- & Hs'). rewrite Forall_forall in Hall.
    exact (Hall s' Hs').
Qed.

(** X10: in the series written by [mergeMonthlyData] each month occurs
    once; the months are those of the existing series and those of the
    updates, so that no existing month is lost; the value of a month is its
    existing value plus the sum of the updates of that month, all datasets
    together; and for a consistent collation the series is in ascending
    order. *)
Theorem mergeMonthlyData_months_and_values
  (existing : list MonthlyStats.t)
  (newUpdates : list DatasetMonthlyUpdate.t) :
  let merged := mergeMonthlyData localeCompare existing newUpdates in
  NoDup (map MonthlyStats.month merged)
  /\ (forall m,
        In m (map MonthlyStats.month merged)
        <-> In m (map MonthlyStats.month existing)
            \/ In m (map DatasetMonthlyUpdate.month newUpdates))
  /\ (forall m,
        visitsIn merged m
        = visitsIn existing m
          + Zsum (map DatasetMonthlyUpdate.visits
                    (updatesOfMonth m newUpdates))
        /\ downloadsIn merged m
           = downloadsIn existing m
             + Zsum (map DatasetMonthlyUpdate.downloads
                       (updatesOfMonth m newUpdates)))
  /\ (consistent (byMonth localeCompare) ->
      StronglySorted
        (fun a b =>
           localeCompare None (MonthlyStats.month a) (MonthlyStats.month b)
           <= 0)
        merged).
Proof.
  intros merged. subst merged. rewrite mergeMonthlyData_eq.
  split; [apply written_months_NoDup | ].
  split; [intros m; apply written_months_In | ].
  split; [intros m; apply written_merge | ].
  apply written_sorted.
Qed.

Lemma firstMonthOf_eq (series : list MonthlyStats.t) :
  firstMonthOf series
  = match series with
    | first :: _ => MonthlyStats.month first
    | [] => ""%string
    end.
Proof. destruct series; simpl; [reflexivity | apply str_or_empty]. Qed.

Lemma lastMonthOf_eq (series : list MonthlyStats.t) (last : MonthlyStats.t) :
  lastMonthOf (series ++ [last]) = MonthlyStats.month last.
Proof.
  unfold lastMonthOf. rewrite rev_app_distr. simpl. apply str_or_empty.
Qed.

(** X11: the record written by [updateDatasetStats] has totals that are
    the sums of its series, which depend on the updates of that dataset
    only: with distinct existing months, the existing sums plus the counts
    of the updates of the dataset.  Its first and last months are those of
    the first and the last record of the series (the empty string when
    there is none), and for a consistent collation the series is in
    ascending order. *)
Theorem updateDatasetStats_totals_and_bounds
  (existing : option DatasetStats.t) (datasetId : string)
  (newData : list DatasetMonthlyUpdate.t) (metadata : DatagouvDataset.t) :
  let stats :=
    updateDatasetStats localeCompare existing datasetId newData metadata in
  let series := DatasetStats.monthlyStats stats in
  let own :=
    filter (fun u => (DatasetMonthlyUpdate.datasetId u =? datasetId)%string)
      newData in
  DatasetStats.id stats = datasetId
  /\ (DatasetStats.totalVisits stats = seriesVisits series
      /\ DatasetStats.totalDownloads stats = seriesDownloads series)
  /\ (NoDup (map MonthlyStats.month (seriesOf existing)) ->
      DatasetStats.totalVisits stats
      = seriesVisits (seriesOf existing)
        + Zsum (map DatasetMonthlyUpdate.visits own)
      /\ DatasetStats.totalDownloads stats
         = seriesDownloads (seriesOf existing)
           + Zsum (map DatasetMonthlyUpdate.downloads own))
  /\ (series = [] ->
      DatasetStats.firstMonth stats = ""%string
      /\ DatasetStats.lastMonth stats = ""%string)
  /\ (forall first rest,
        series = first :: rest ->
        DatasetStats.firstMonth stats = MonthlyStats.month first)
  /\ (forall rest last,
        series = rest ++ [last] ->
        DatasetStats.lastMonth stats = MonthlyStats.month last)
  /\ (consistent (byMonth localeCompare) ->
      StronglySorted
        (fun a b =>
           localeCompare None (MonthlyStats.month a) (MonthlyStats.month b)
           <= 0)
        series).
Proof.
  intros stats series own.
  assert (Hseries : series = written localeCompare
                               (mergedMap (seriesOf existing) own))
    by apply monthlyStats_updateDatasetStats.
  assert (Htv : DatasetStats.totalVisits stats = sumVisits series)
    by (destruct existing; reflexivity).
  assert (Htd : DatasetStats.totalDownloads stats = sumDownloads series)
    by (destruct existing; reflexivity).
  assert (Hfirst : DatasetStats.firstMonth stats = firstMonthOf series)
    by (destruct existing; reflexivity).
  assert (Hlast : DatasetStats.lastMonth stats = lastMonthOf series)
    by (destruct existing; reflexivity).
  rewrite Htv, Htd, Hfirst, Hlast, sumVisits_eq, sumDownloads_eq.
  split; [destruct existing; reflexivity | ].
  split; [auto | ].
  split.
  { intros Hnd. rewrite Hseries. now apply series_sums_merge. }
  split; [intros ->; auto | ].
  split; [intros first rest ->; apply firstMonthOf_eq | ].
  split; [intros rest last ->; apply lastMonthOf_eq | ].
  intros Hcons. rewrite Hseries. now apply written_sorted.
Qed.

End WithCollation.
End MergeMoreFacts.


(* ================================================================== *)
(** * Content of the rankings *)
(* ================================================================== *)

Module RankingMoreFacts.
Import JS Spec More JSFacts SumFacts SyncStats SyncStatsFacts RankingFacts.
Import WindowFacts.

Lemma slice0_all {A : Type} (n : Z) (l : list A) :
  Z.of_nat (List.length l) <= n -> slice0 n l = l.
Proof. intros H. unfold slice0. apply firstn_all2. lia. Qed.

Lemma slice0_length_min {A : Type} (n : Z) (l : list A) :
  0 <= n ->
  Z.of_nat (List.length (slice0 n l)) = Z.min n (Z.of_nat (List.length l)).
Proof. intros H. unfold slice0. rewrite length_firstn. lia. Qed.

Lemma topBy_ids k withStats :
  map DatasetRanking.id (topBy k withStats)
  = map (fun d => DatasetMetrics.datasetId (WithStats.metrics d))
      (slice0 TOP_DATASETS_COUNT (sort (byCurrent k) withStats)).
Proof.
  rewrite topBy_eq. unfold mapi. now apply map_mapi_from.
Qed.

(** X14: a ranking list has as many entries as there are datasets with
    metadata, up to 100; when these are at most 100, each list of each
    period holds every one of them exactly as often as the input does,
    whether or not it has any activity in the window. *)
Theorem rankings_list_every_dataset_with_metadata
  (now : Date) (lastUpdate : string) (allMetrics : list DatasetMetrics.t)
  (metadataMap : Map DatagouvDataset.t) (period : Period.t) (k : Metric.t) :
  let ranking :=
    rankingsOf (calculateTopDatasets now lastUpdate allMetrics metadataMap)
      period k in
  let listed := filter (hasMetadata metadataMap) allMetrics in
  Z.of_nat (List.length ranking)
  = Z.min 100 (Z.of_nat (List.length listed))
  /\ (Z.of_nat (List.length listed) <= 100 ->
      Permutation (map DatasetRanking.id ranking)
        (map DatasetMetrics.datasetId listed)).
Proof.
  intros ranking listed. subst ranking listed.
  rewrite rankingsOf_calculateTopDatasets.
  pose proof (datasetsWithStats_metrics now allMetrics metadataMap period)
    as Hmetrics.
  fold (hasMetadata metadataMap) in Hmetrics.
  assert (Hlen : List.length (datasetsWithStats now allMetrics metadataMap
                                period)
                 = List.length (filter (hasMetadata metadataMap) allMetrics))
    by (rewrite <- Hmetrics; now rewrite length_map).
  split.
  - rewrite topBy_eq. unfold mapi. rewrite mapi_from_length.
    rewrite slice0_length_min by (unfold TOP_DATASETS_COUNT; lia).
    now rewrite sort_length, Hlen.
  - intros Hle. rewrite topBy_ids.
    rewrite slice0_all
      by (rewrite sort_length, Hlen; unfold TOP_DATASETS_COUNT; lia).
    rewrite <- Hmetrics, map_map.
    apply Permutation_map, sort_perm.
Qed.

(** X15: each entry of a ranking list stands for an input dataset that has
    metadata: it carries the title and slug of that metadata, its value is
    the sum of the counts of the dataset over the months that are, as
    strings, between the start of the period and the current month, and its
    previous value is the like sum over the previous window, or 0 for the
    all-time period. *)
Theorem ranking_entries_are_window_sums
  (now : Date) (lastUpdate : string) (allMetrics : list DatasetMetrics.t)
  (metadataMap : Map DatagouvDataset.t) (period : Period.t) (k : Metric.t)
  (e : DatasetRanking.t) :
  In e (rankingsOf
          (calculateTopDatasets now lastUpdate allMetrics metadataMap)
          period k) ->
  exists m metadata,
    In m allMetrics
    /\ DatasetRanking.id e = DatasetMetrics.datasetId m
    /\ Map_get metadataMap (DatasetRanking.id e) = Some metadata
    /\ DatasetRanking.title e = DatagouvDataset.title metadata
    /\ DatasetRanking.slug e = DatagouvDataset.slug metadata
    /\ DatasetRanking.value e
       = metricOf k
           (sumCounts
              (map snd
                 (filter
                    (inWindow (PeriodConfig.start (periods now period))
                       (getCurrentMonth now))
                    (DatasetMetrics.monthlyStats m))))
    /\ DatasetRanking.previousValue e
       = if isAllTime period then 0
         else metricOf k
                (sumCounts
                   (map snd
                      (filter
                         (inWindow
                            (PeriodConfig.prevStart (periods now period))
                            (PeriodConfig.prevEnd (periods now period)))
                         (DatasetMetrics.monthlyStats m)))).
Proof.
  intros He. apply ranking_entry_origin in He.
  destruct He as (d & i & Hd & ->).
  pose proof (datasetsWithStats_metadata _ _ _ _ _ Hd) as Hmd.
  apply datasetsWithStats_In in Hd. destruct Hd as [Hin Hd].
  exists (WithStats.metrics d), (WithStats.metadata d).
  split; [exact Hin | ]. split; [reflexivity | ].
  split; [exact Hmd | ]. split; [reflexivity | ]. split; [reflexivity | ].
  unfold withStatsOf in Hd.
  destruct (Map_get metadataMap _); [ | discriminate].
  injection Hd as Hd. rewrite <- Hd. simpl.
  rewrite !getStatsForPeriod_window.
  split; [reflexivity | ].
  destruct period; simpl; try reflexivity. now destruct k.
Qed.

End RankingMoreFacts.

Module RecalculateFacts.
Import JS Spec More JSFacts SumFacts SyncIncremental RankingFacts.
Import RankingMoreFacts.

Lemma topBy_rankingOfStats k withStats :
  topBy k withStats
  = mapi (rankingOfStats k)
      (slice0 TOP_DATASETS_COUNT (sort (byCurrent k) withStats)).
Proof. reflexivity. Qed.

Lemma byCurrent_of_stats_consistent k : consistent (byCurrent k).
Proof. unfold consistent, byCurrent. split; intros; lia. Qed.

Lemma rankingsOf_recalculateTopDatasets now lastUpdate allDatasetStats
  period k :
  rankingsOf (recalculateTopDatasets now lastUpdate allDatasetStats) period k
  = topBy k (datasetsWithStats now allDatasetStats period).
Proof. destruct period, k; reflexivity. Qed.

Lemma datasetsWithStats_stats now allDatasetStats period :
  map WithStats.stats (datasetsWithStats now allDatasetStats period)
  = Map_values allDatasetStats.
Proof.
  unfold datasetsWithStats. rewrite map_map. simpl. apply map_id.
Qed.

(** X13: the rankings that the incremental script recomputes from the
    per-dataset files are in non-increasing order of value, have at most 100
    entries ranked from 1, and each entry carries the id, title, slug and
    organization of a stored record, copied as they are; when at most 100
    records are stored, every list holds them all. *)
Theorem recalculated_rankings
  (now : Date) (lastUpdate : string) (allDatasetStats : Map DatasetStats.t)
  (period : Period.t) (k : Metric.t) :
  let ranking :=
    rankingsOf (recalculateTopDatasets now lastUpdate allDatasetStats)
      period k in
  StronglySorted
    (fun a b => DatasetRanking.value a >= DatasetRanking.value b) ranking
  /\ Z.of_nat (List.length ranking)
     = Z.min 100 (Z.of_nat (List.length allDatasetStats))
  /\ (forall n e,
        nth_error ranking n = Some e ->
        DatasetRanking.rank e = Z.of_nat n + 1)
  /\ (forall e,
        In e ranking ->
        exists stats,
          In stats (Map_values allDatasetStats)
          /\ DatasetRanking.id e = DatasetStats.id stats
          /\ DatasetRanking.title e = DatasetStats.title stats
          /\ DatasetRanking.slug e = DatasetStats.slug stats
          /\ DatasetRanking.organization e = DatasetStats.organization stats
          /\ DatasetRanking.organizationId e
             = DatasetStats.organizationId stats)
  /\ (Z.of_nat (List.length allDatasetStats) <= 100 ->
      Permutation (map DatasetRanking.id ranking)
        (map DatasetStats.id (Map_values allDatasetStats))).
Proof.
  intros ranking. subst ranking.
  rewrite rankingsOf_recalculateTopDatasets, topBy_rankingOfStats. unfold mapi.
  pose proof (datasetsWithStats_stats now allDatasetStats period) as Hstats.
  assert (Hlen : List.length (datasetsWithStats now allDatasetStats period)
                 = List.length allDatasetStats).
  { rewrite <- (length_map WithStats.stats), Hstats.
    unfold Map_values. apply length_map. }
  split.
  { apply (StronglySorted_mapi_from (fun a b => byCurrent k a b <= 0)).
    - intros x y i j Hxy. unfold byCurrent in Hxy. simpl. lia.
    - apply slice0_sorted, sort_sorted, byCurrent_of_stats_consistent. }
  split.
  { rewrite mapi_from_length.
    rewrite slice0_length_min by (unfold TOP_DATASETS_COUNT; lia).
    now rewrite sort_length, Hlen. }
  split.
  { intros n e. rewrite mapi_from_nth_error.
    destruct (nth_error _ n); simpl; [ | discriminate].
    intros [= <-]. reflexivity. }
  split.
  { intros e He. apply mapi_from_In in He.
    destruct He as (d & i & Hd & ->).
    apply slice0_In, sort_In in Hd.
    exists (WithStats.stats d). split.
    - rewrite <- Hstats. now apply in_map.
    - repeat split. }
  intros Hle.
  rewrite (map_mapi_from DatasetRanking.id
             (fun d => DatasetStats.id (WithStats.stats d)))
    by reflexivity.
  rewrite slice0_all
    by (rewrite sort_length, Hlen; unfold TOP_DATASETS_COUNT; lia).
  rewrite <- Hstats, map_map.
  apply Permutation_map, sort_perm.
Qed.

End RecalculateFacts.


(* ================================================================== *)
(** * Months ago, on any day *)
(* ================================================================== *)

Module MonthsAgoFacts.
Import JS Spec More JSFacts MonthFacts.

Lemma daysInMonth_le_31 (y m : Z) : daysInMonth y m <= 31.
Proof.
  unfold daysInMonth.
  destruct (m =? 1); [destruct (isLeapYear y); lia | ].
  destruct ((m =? 3) || (m =? 5) || (m =? 8) || (m =? 10)); lia.
Qed.

Lemma daysInMonth_december (y : Z) : daysInMonth y 11 = 31.
Proof. reflexivity. Qed.

(** In a process that runs in UTC, on any date of the calendar. *)
Lemma getMonthsAgo_utc (now : Date) (n : Z) :
  validDate now ->
  let target := indexOfDate now - n in
  0 <= target -> target + 1 < 120000 ->
  SyncStats.getMonthsAgo now n
  = (if getDate now <=? daysInMonth (target / 12) (target mod 12)
     then monthOfIndex target
     else monthOfIndex (target + 1))
  /\ (n = 0 -> SyncStats.getMonthsAgo now n = SyncStats.getCurrentMonth now).
Proof.
  intros [Hm Hd] target Hlo Hhi. destruct now as [y m d].
  unfold indexOfDate in target.
  cbn [getFullYear getMonth getDate] in *.
  pose proof (daysInMonth_le_31 y m) as H31.
  assert (Hym : y + (m - n) / 12 = target / 12)
    by (unfold target; Z.div_mod_to_equations; lia).
  assert (Hmn : (m - n) mod 12 = target mod 12)
    by (unfold target; Z.div_mod_to_equations; lia).
  assert (Hgen :
    SyncStats.getMonthsAgo (mkDate y m d) n
    = (if d <=? daysInMonth (target / 12) (target mod 12)
       then monthOfIndex target
       else monthOfIndex (target + 1))).
  { unfold SyncStats.getMonthsAgo, setMonth, MakeDate.
    cbn [getFullYear getMonth getDate]. rewrite Hym, Hmn.
    destruct (Z.leb_spec d (daysInMonth (target / 12) (target mod 12)))
      as [Hle | Hgt].
    - rewrite toISOString_slice_0_7_index.
      + f_equal. Z.div_mod_to_equations. lia.
      + Z.div_mod_to_equations. lia.
      + Z.div_mod_to_equations. lia.
    - destruct (Z.eqb_spec (target mod 12) 11) as [He | Hne].
      + rewrite He, daysInMonth_december in Hgt. lia.
      + rewrite toISOString_slice_0_7_index.
        * f_equal. Z.div_mod_to_equations. lia.
        * Z.div_mod_to_equations. lia.
        * Z.div_mod_to_equations. lia. }
  split; [exact Hgen | ].
  intros ->. rewrite Hgen. unfold target.
  replace ((12 * y + m - 0) / 12) with y by (Z.div_mod_to_equations; lia).
  replace ((12 * y + m - 0) mod 12) with m by (Z.div_mod_to_equations; lia).
  destruct (Z.leb_spec d (daysInMonth y m)); [ | lia].
  unfold SyncStats.getCurrentMonth.
  rewrite toISOString_slice_0_7_index by lia. f_equal. lia.
Qed.

Lemma plus_same_day (t : Zoned.Instant) (offset : Z) :
  0 <= Zoned.timeWithinDay t + offset < Zoned.msPerDay ->
  Zoned.plus t offset
  = Zoned.mkInstant (Zoned.dateOf t) (Zoned.timeWithinDay t + offset).
Proof.
  intros H. unfold Zoned.plus. cbv zeta.
  destruct (Z.ltb_spec (Zoned.timeWithinDay t + offset) 0); [lia | ].
  destruct (Z.ltb_spec (Zoned.timeWithinDay t + offset) Zoned.msPerDay);
    [reflexivity | lia].
Qed.

(** While the local day is the UTC day, the time zone has no effect. *)
Lemma getMonthsAgo_same_day (now : Zoned.Instant)
  (offsetNow offsetThen n : Z) :
  0 <= Zoned.timeWithinDay now + offsetNow < Zoned.msPerDay ->
  0 <= Zoned.timeWithinDay now + offsetNow - offsetThen < Zoned.msPerDay ->
  Zoned.getMonthsAgo now offsetNow offsetThen n
  = SyncStats.getMonthsAgo (Zoned.dateOf now) n.
Proof.
  intros Hnow Hthen. unfold Zoned.getMonthsAgo, Zoned.LocalTime, Zoned.UTC.
  cbv zeta. rewrite (plus_same_day now offsetNow Hnow).
  cbn [Zoned.dateOf Zoned.timeWithinDay].
  rewrite plus_same_day by (cbn [Zoned.timeWithinDay]; lia).
  reflexivity.
Qed.

(** X16: [getMonthsAgo] reads and sets the month in local time and prints
    the date in UTC.  When the local day of the run is its UTC day, before
    and after [setMonth], as in a process that runs in UTC, [getMonthsAgo(n)]
    is, on any date of the calendar, the month [n] months before the
    current one when that month has a day of today's number, and the month
    after it otherwise; [getMonthsAgo(0)] is the current month; and the
    function of both scripts, as they are run in UTC, is this one. *)
Theorem getMonthsAgo_on_any_day (now : Zoned.Instant)
  (offsetNow offsetThen n : Z) :
  validDate (Zoned.dateOf now) ->
  0 <= Zoned.timeWithinDay now + offsetNow < Zoned.msPerDay ->
  0 <= Zoned.timeWithinDay now + offsetNow - offsetThen < Zoned.msPerDay ->
  let today := Zoned.dateOf now in
  let target := indexOfDate today - n in
  0 <= target -> target + 1 < 120000 ->
  Zoned.getMonthsAgo now offsetNow offsetThen n
  = (if getDate today <=? daysInMonth (target / 12) (target mod 12)
     then monthOfIndex target
     else monthOfIndex (target + 1))
  /\ SyncStats.getMonthsAgo today n
     = Zoned.getMonthsAgo now offsetNow offsetThen n
  /\ SyncIncremental.getMonthsAgo today n
     = Zoned.getMonthsAgo now offsetNow offsetThen n
  /\ (n = 0 ->
      Zoned.getMonthsAgo now offsetNow offsetThen n
      = SyncStats.getCurrentMonth today).
Proof.
  intros Hvalid Hnow Hthen today target Hlo Hhi.
  rewrite (getMonthsAgo_same_day now offsetNow offsetThen n Hnow Hthen).
  destruct (getMonthsAgo_utc today n Hvalid Hlo Hhi) as [Hgen Hzero].
  split; [exact Hgen | ]. split; [reflexivity | ].
  split; [reflexivity | exact Hzero].
Qed.

(** Away from UTC the result can be another month: at 2 o'clock UTC on the
    1st of March 2024 it is still the 29th of February in New York, and one
    month ago is January there, February in UTC. *)
Example getMonthsAgo_in_New_York :
  Zoned.getMonthsAgo MoreSample.earlyMarch MoreSample.newYork
    MoreSample.newYork 1
  = "2024-01"%string
  /\ Zoned.getMonthsAgo MoreSample.earlyMarch 0 0 1 = "2024-02"%string.
Proof. split; reflexivity. Qed.

End MonthsAgoFacts.

(* ================================================================== *)
(** * The directory kept by the incremental script *)
(* ================================================================== *)

Module DirectoryMoreFacts.
Import JS Spec More JSFacts SyncIncremental MergeMoreFacts.

Section FoldSet.
Context {A V : Type}.
Variables (key : A -> string) (val : A -> V).

Lemma find_last_cons (p : A -> bool) (x : A) (l : list A) :
  List.find p (rev (x :: l))
  = match List.find p (rev l) with
    | Some y => Some y
    | None => if p x then Some x else None
    end.
Proof.
  simpl rev. induction (rev l) as [ | y r IH]; simpl.
  - reflexivity.
  - destruct (p y); [reflexivity | exact IH].
Qed.

Lemma Map_get_fold_set (l : list A) (k : string) :
  forall m,
    Map_get (fold_left (fun m x => Map_set m (key x) (val x)) l m) k
    = match List.find (fun x => (key x =? k)%string) (rev l) with
      | Some x => Some (val x)
      | None => Map_get m k
      end.
Proof.
  induction l as [ | x l IH]; intros m; [reflexivity | ].
  cbn [fold_left]. rewrite IH, find_last_cons.
  destruct (List.find _ (rev l)); [reflexivity | ].
  rewrite Map_get_set.
  destruct (key x =? k)%string; reflexivity.
Qed.

Lemma keys_fold_set (l : list A) (k : string) :
  forall m,
    In k (Map_keys (fold_left (fun m x => Map_set m (key x) (val x)) l m))
    <-> In k (Map_keys m) \/ In k (map key l).
Proof.
  induction l as [ | x l IH]; intros m; simpl.
  - tauto.
  - rewrite IH. rewrite In_Map_keys_set.
    intuition (subst; auto).
Qed.

Lemma fold_set_wf (l : list A) :
  forall m, Map_wf m -> Map_wf (fold_left (fun m x => Map_set m (key x) (val x)) l m).
Proof.
  induction l as [ | x l IH]; intros m Hwf; simpl; [exact Hwf | ].
  apply IH. now apply Map_set_wf.
Qed.

(** Each value stays under its own key when the values name their key. *)
Lemma fold_set_keyed (name : V -> string) (l : list A) :
  (forall x, name (val x) = key x) ->
  forall m,
    Forall (fun b => name (snd b) = fst b) m ->
    Forall (fun b => name (snd b) = fst b) (fold_left (fun m x => Map_set m (key x) (val x)) l m).
Proof.
  intros Hname. induction l as [ | x l IH]; intros m Hm; simpl;
    [exact Hm | ].
  apply IH. clear IH.
  induction m as [ | [k v] m IHm]; simpl.
  - constructor; [apply Hname | constructor].
  - inversion Hm as [ | ? ? Hkv Hm']; subst.
    destruct (key x =? k)%string eqn:Heq.
    + rewrite String.eqb_sym in Heq. rewrite Heq.
      constructor; [ | exact Hm'].
      simpl. apply String.eqb_eq in Heq. rewrite Hname. now subst.
    + rewrite String.eqb_sym in Heq. rewrite Heq.
      constructor; [exact Hkv | now apply IHm].
Qed.

Lemma find_last_unique (l : list A) (x : A) :
  NoDup (map key l) -> In x l ->
  List.find (fun y => (key y =? key x)%string) (rev l) = Some x.
Proof.
  induction l as [ | y l IH]; intros Hnd Hin; [destruct Hin | ].
  inversion Hnd as [ | ? ? Hnotin Hnd']; subst.
  rewrite find_last_cons. destruct Hin as [-> | Hin].
  - destruct (List.find _ (rev l)) as [z | ] eqn:Hfind.
    + apply find_some in Hfind. destruct Hfind as [Hz Heq].
      apply String.eqb_eq in Heq. exfalso. apply Hnotin.
      rewrite <- Heq. apply in_map. now apply in_rev.
    + now rewrite String.eqb_refl.
  - now rewrite (IH Hnd' Hin).
Qed.

Lemma find_last_none (l : list A) (k : string) :
  ~ In k (map key l) ->
  List.find (fun y => (key y =? k)%string) (rev l) = None.
Proof.
  intros Hnot.
  destruct (List.find _ (rev l)) as [z | ] eqn:Hfind; [ | reflexivity].
  apply find_some in Hfind. destruct Hfind as [Hz Heq].
  apply String.eqb_eq in Heq. exfalso. apply Hnot. rewrite <- Heq.
  apply in_map. now apply in_rev.
Qed.
End FoldSet.

Section WithCollation.
Variable localeCompare : option string -> string -> string -> Z.

Lemma datasets_updateDatasetsIndex lastUpdate existing newMetadata :
  DatasetsIndex.datasets
    (updateDatasetsIndex localeCompare lastUpdate existing newMetadata)
  = sort (byTitle localeCompare) (Map_values (indexMap existing newMetadata)).
Proof. reflexivity. Qed.

Lemma indexMap_eq existing newMetadata :
  indexMap existing newMetadata
  = fold_left (fun m entry => Map_set m (fst entry) (summaryOf entry))
      newMetadata
      (fold_left
         (fun m dataset => Map_set m (DatasetSummary.id dataset) dataset)
         (existingEntries existing) []).
Proof. destruct existing; reflexivity. Qed.

Lemma indexMap_wf existing newMetadata :
  Map_wf (indexMap existing newMetadata).
Proof.
  rewrite indexMap_eq.
  apply (fold_set_wf fst summaryOf), (fold_set_wf DatasetSummary.id (fun s : DatasetSummary.t => s)).
  apply Map_wf_nil.
Qed.

Lemma indexMap_keyed existing newMetadata :
  Forall (fun b => DatasetSummary.id (snd b) = fst b)
    (indexMap existing newMetadata).
Proof.
  rewrite indexMap_eq.
  apply (fold_set_keyed fst summaryOf DatasetSummary.id);
    [reflexivity | ].
  apply (fold_set_keyed DatasetSummary.id (fun s : DatasetSummary.t => s)
           DatasetSummary.id);
    [reflexivity | constructor].
Qed.

Lemma ids_indexMap existing newMetadata :
  map DatasetSummary.id (Map_values (indexMap existing newMetadata))
  = Map_keys (indexMap existing newMetadata).
Proof.
  unfold Map_values, Map_keys. rewrite map_map.
  apply map_ext_in. intros b Hb.
  pose proof (indexMap_keyed existing newMetadata) as Hk.
  rewrite Forall_forall in Hk. now apply Hk.
Qed.

Lemma In_values_indexMap existing newMetadata s :
  In s (Map_values (indexMap existing newMetadata))
  <-> Map_get (indexMap existing newMetadata) (DatasetSummary.id s) = Some s.
Proof.
  pose proof (indexMap_keyed existing newMetadata) as Hk.
  rewrite Forall_forall in Hk. split.
  - intros Hin. apply in_map_iff in Hin. destruct Hin as ([k v] & <- & Hb).
    apply In_Map_get; [apply indexMap_wf | ].
    specialize (Hk _ Hb). simpl in *. now rewrite Hk.
  - intros Hget. apply Map_get_Some_In in Hget.
    apply in_map_iff. exists (DatasetSummary.id s, s). auto.
Qed.

(** X12: the directory written by [updateDatasetsIndex] has no id twice
    and loses none: its ids are those of the existing directory and those
    of the new metadata.  An id with new metadata gets the entry made from
    that metadata, whatever the existing entry was; an existing entry
    without new metadata is kept as it is.  For a consistent collation the
    entries are sorted by title. *)
Theorem updateDatasetsIndex_additive
  (lastUpdate : string) (existing : option DatasetsIndex.t)
  (newMetadata : Map DatagouvDataset.t) :
  let datasets :=
    DatasetsIndex.datasets
      (updateDatasetsIndex localeCompare lastUpdate existing newMetadata) in
  NoDup (map DatasetSummary.id datasets)
  /\ (forall id,
        In id (map DatasetSummary.id datasets)
        <-> In id (map DatasetSummary.id (existingEntries existing))
            \/ In id (Map_keys newMetadata))
  /\ (Map_wf newMetadata ->
      forall entry, In entry newMetadata -> In (summaryOf entry) datasets)
  /\ (NoDup (map DatasetSummary.id (existingEntries existing)) ->
      forall s,
        In s (existingEntries existing) ->
        ~ In (DatasetSummary.id s) (Map_keys newMetadata) ->
        In s datasets)
  /\ (consistent (byTitle localeCompare) ->
      StronglySorted
        (fun a b =>
           localeCompare (Some "fr"%string) (DatasetSummary.title a)
             (DatasetSummary.title b) <= 0)
        datasets).
Proof.
  intros datasets. subst datasets. rewrite datasets_updateDatasetsIndex.
  pose proof (sort_perm (byTitle localeCompare)
                (Map_values (indexMap existing newMetadata))) as Hperm.
  split.
  { apply (Permutation_NoDup
             (Permutation_map DatasetSummary.id (Permutation_sym Hperm))).
    rewrite ids_indexMap. apply indexMap_wf. }
  split.
  { intros i. split.
    - intros Hin.
      apply (Permutation_in _ (Permutation_map DatasetSummary.id Hperm))
        in Hin.
      rewrite ids_indexMap, indexMap_eq in Hin.
      apply (keys_fold_set fst summaryOf) in Hin.
      destruct Hin as [Hin | Hin]; [ | now right].
      apply (keys_fold_set DatasetSummary.id (fun s : DatasetSummary.t => s)) in Hin.
      destruct Hin as [[] | Hin]. now left.
    - intros Hin.
      apply (Permutation_in _
               (Permutation_map DatasetSummary.id (Permutation_sym Hperm))).
      rewrite ids_indexMap, indexMap_eq.
      apply (keys_fold_set fst summaryOf).
      destruct Hin as [Hin | Hin]; [left | now right].
      apply (keys_fold_set DatasetSummary.id (fun s : DatasetSummary.t => s)). now right. }
  split.
  { intros Hwf entry Hentry. apply sort_In, In_values_indexMap.
    rewrite indexMap_eq, (Map_get_fold_set fst summaryOf).
    change (DatasetSummary.id (summaryOf entry)) with (fst entry).
    now rewrite (find_last_unique fst newMetadata entry Hwf Hentry). }
  split.
  { intros Hnd s Hs Hnot. apply sort_In, In_values_indexMap.
    rewrite indexMap_eq, (Map_get_fold_set fst summaryOf).
    rewrite (find_last_none fst newMetadata _ Hnot).
    rewrite (Map_get_fold_set DatasetSummary.id (fun s : DatasetSummary.t => s)).
    now rewrite (find_last_unique DatasetSummary.id _ s Hnd Hs). }
  intros Hcons. apply (sort_sorted _ Hcons).
Qed.

End WithCollation.
End DirectoryMoreFacts.


(* ================================================================== *)
(** * Writing the files *)
(* ================================================================== *)

Module FilesFacts.
Import JS Spec More JSFacts SumFacts FetchFacts MergeMoreFacts.

Lemma writeJsonFile_dryRun file options fs :
  SyncOptions.dryRun options = true -> writeJsonFile file options fs = fs.
Proof. intros H. unfold writeJsonFile. now rewrite H. Qed.

Lemma fold_unchanged {A S : Type} (step : S -> A -> S) (l : list A) (s : S) :
  (forall s x, step s x = s) -> fold_left step l s = s.
Proof.
  intros H. induction l as [ | x l IH]; simpl; [reflexivity | ].
  now rewrite H.
Qed.

Lemma writeJsonFile_dataset_dir datasetId data options fs :
  SyncOptions.dryRun options = false ->
  Files.datasets_dir (writeJsonFile (dataset_json datasetId data) options fs)
  = Map_set (Files.datasets_dir fs) datasetId data.
Proof. intros H. unfold writeJsonFile. now rewrite H. Qed.

Lemma writeJsonFile_dataset_others datasetId data options fs :
  let fs' := writeJsonFile (dataset_json datasetId data) options fs in
  Files.global_stats fs' = Files.global_stats fs
  /\ Files.top_datasets fs' = Files.top_datasets fs
  /\ Files.datasets_index fs' = Files.datasets_index fs.
Proof.
  unfold writeJsonFile. destruct (SyncOptions.dryRun options); simpl; auto.
Qed.

Lemma writeJsonFile_dataset_get datasetId data options fs id :
  id <> datasetId ->
  Map_get
    (Files.datasets_dir
       (writeJsonFile (dataset_json datasetId data) options fs)) id
  = Map_get (Files.datasets_dir fs) id.
Proof.
  intros Hne. unfold writeJsonFile.
  destruct (SyncOptions.dryRun options); simpl; [reflexivity | ].
  apply Map_get_set_other. congruence.
Qed.

Lemma writeJsonFile_dir_wf file options fs :
  Map_wf (Files.datasets_dir fs) ->
  Map_wf (Files.datasets_dir (writeJsonFile file options fs)).
Proof.
  intros Hwf. unfold writeJsonFile.
  destruct (SyncOptions.dryRun options); [exact Hwf | ].
  destruct file; simpl; try exact Hwf. now apply Map_set_wf.
Qed.

End FilesFacts.

Module IncrementalRunFacts.
Import JS Spec More JSFacts SumFacts FetchFacts MergeFacts MergeMoreFacts.
Import FilesFacts SyncIncremental.

(** ** The updates fetched *)

Lemma readPage_spec page :
  forall state,
    readPage state page
    = (fst state ++ map updateOfEntry page,
       fold_left
         (fun s entry => Set_add s (MetricApiDatasetEntry.dataset_id entry))
         page (snd state)).
Proof.
  unfold readPage.
  induction page as [ | e page IH]; intros [updates known]; simpl.
  - now rewrite app_nil_r.
  - rewrite IH. simpl. now rewrite <- app_assoc.
Qed.

Lemma fetchNewMonthData_pages_spec responses :
  forall state result,
    fetchNewMonthData_pages responses state = Some result ->
    result
    = (fst state ++ map updateOfEntry (entriesRead responses),
       fold_left
         (fun s entry => Set_add s (MetricApiDatasetEntry.dataset_id entry))
         (entriesRead responses) (snd state)).
Proof.
  induction responses as [ | [response | ] rest IH]; simpl;
    intros state result H; try discriminate.
  rewrite map_app, fold_left_app, app_assoc.
  destruct (MetricApiLinks.next (MetricApiDatasetResponse.links response)).
  - rewrite (IH _ _ H), readPage_spec. reflexivity.
  - injection H as <-. rewrite readPage_spec. simpl.
    now rewrite app_nil_r.
Qed.

Lemma fetchAllUpdates_spec monthApi monthsToFetch :
  forall state result,
    fetchAllUpdates monthApi monthsToFetch state = Some result ->
    let entries :=
      List.concat (map (fun month => entriesRead (monthApi month)) monthsToFetch)
    in
    result
    = (fst state ++ map updateOfEntry entries,
       fold_left
         (fun s entry => Set_add s (MetricApiDatasetEntry.dataset_id entry))
         entries (snd state)).
Proof.
  induction monthsToFetch as [ | month rest IH]; simpl;
    intros [updates known] result H.
  - injection H as <-. simpl. now rewrite app_nil_r.
  - unfold fetchNewMonthData in H. simpl in H.
    destruct (fetchNewMonthData_pages (monthApi month) ([], known))
      as [[updates' known'] | ] eqn:Hpages; [ | discriminate].
    apply fetchNewMonthData_pages_spec in Hpages. simpl in Hpages.
    injection Hpages as -> ->.
    rewrite (IH _ _ H). simpl.
    now rewrite map_app, fold_left_app, app_assoc.
Qed.

(** X21: when the months are fetched without failure, the updates are
    those of the entries read, month after month and page after page, in
    order, a null download count being 0; the known ids are distinct, keep
    the ids known before and hold the ids of all the updates. *)
Theorem fetchAllUpdates_in_order
  (monthApi : string -> list (option MetricApiDatasetResponse.t))
  (monthsToFetch : list string) (knownBefore : StrSet)
  (allUpdates : list DatasetMonthlyUpdate.t) (knownDatasetIds : StrSet) :
  fetchAllUpdates monthApi monthsToFetch ([], knownBefore)
  = Some (allUpdates, knownDatasetIds) ->
  allUpdates
  = map updateOfEntry
      (List.concat (map (fun month => entriesRead (monthApi month)) monthsToFetch))
  /\ (NoDup knownBefore -> NoDup knownDatasetIds)
  /\ (forall id,
        In id knownDatasetIds
        <-> In id knownBefore
            \/ In id (map DatasetMonthlyUpdate.datasetId allUpdates)).
Proof.
  intros H. apply fetchAllUpdates_spec in H. cbv zeta in H. simpl in H.
  injection H as Hu Hk.
  split; [exact Hu | ]. split.
  - intros Hnd. rewrite Hk. now apply fold_Set_add_NoDup.
  - intros id. rewrite Hk, fold_Set_add_In, Hu, map_map. reflexivity.
Qed.

(** ** Display fields of an existing record *)

Section WithCollation.
Variable localeCompare : option string -> string -> string -> Z.

(** X19: a record updated with the metadata rebuilt from itself keeps its
    title and its slug.  When its organization is not empty it keeps its
    organization and its organization id; when its organization is empty it
    gets the organization "Inconnu" and the empty organization id, whatever
    id was stored.  It keeps its url when the url is not empty, and gets
    the default url of its slug otherwise. *)
Theorem updateDatasetStats_keeps_display_fields
  (existing : DatasetStats.t) (datasetId : string)
  (newData : list DatasetMonthlyUpdate.t) :
  let stats :=
    updateDatasetStats localeCompare (Some existing) datasetId newData
      (metadataOfExisting existing) in
  DatasetStats.title stats = DatasetStats.title existing
  /\ DatasetStats.slug stats = DatasetStats.slug existing
  /\ (DatasetStats.organization existing <> ""%string ->
      DatasetStats.organization stats = DatasetStats.organization existing
      /\ DatasetStats.organizationId stats
         = DatasetStats.organizationId existing)
  /\ (DatasetStats.organization existing = ""%string ->
      DatasetStats.organization stats = "Inconnu"%string
      /\ DatasetStats.organizationId stats = ""%string)
  /\ (DatasetStats.url existing <> ""%string ->
      DatasetStats.url stats = DatasetStats.url existing)
  /\ (DatasetStats.url existing = ""%string ->
      DatasetStats.url stats
      = String.append "https://www.data.gouv.fr/fr/datasets/"
          (String.append (DatasetStats.slug existing) "/")).
Proof.
  cbv zeta. unfold updateDatasetStats, metadataOfExisting.
  cbn [DatasetStats.title DatasetStats.slug DatasetStats.organization
       DatasetStats.organizationId DatasetStats.url].
  unfold organizationName, organizationIdOf, datasetUrl, opt_field_or.
  cbn [DatagouvDataset.title DatagouvDataset.slug DatagouvDataset.page
       DatagouvDataset.organization].
  split; [reflexivity | ]. split; [reflexivity | ].
  split.
  { intros Hne.
    destruct (String.eqb_spec (DatasetStats.organization existing) "")
      as [He | _]; [contradiction | ].
    cbn [Organization.name Organization.id]. split.
    - unfold str_or.
      destruct (String.eqb_spec (DatasetStats.organization existing) "");
        [contradiction | reflexivity].
    - apply str_or_empty. }
  split.
  { intros He. rewrite He. simpl. auto. }
  split.
  { intros Hne. unfold str_or.
    destruct (String.eqb_spec (DatasetStats.url existing) "");
      [contradiction | reflexivity]. }
  intros He. rewrite He. reflexivity.
Qed.

(** ** Step 7: the files of the datasets with updates *)

Lemma updateOneDataset_eq options metadataApi newMetadata allUpdates fs
  datasetId :
  updateOneDataset localeCompare options metadataApi newMetadata allUpdates
    fs datasetId
  = match metadataFor metadataApi newMetadata fs datasetId with
    | Some metadata =>
        writeJsonFile
          (dataset_json datasetId
             (updateDatasetStats localeCompare (loadDatasetStats fs datasetId)
                datasetId allUpdates metadata))
          options fs
    | None => fs
    end.
Proof. reflexivity. Qed.

Lemma updateOneDataset_other options metadataApi newMetadata allUpdates fs
  datasetId id :
  id <> datasetId ->
  loadDatasetStats
    (updateOneDataset localeCompare options metadataApi newMetadata
       allUpdates fs datasetId) id
  = loadDatasetStats fs id.
Proof.
  intros Hne. rewrite updateOneDataset_eq. unfold loadDatasetStats.
  destruct (metadataFor _ _ _ _); [ | reflexivity].
  now apply writeJsonFile_dataset_get.
Qed.

Lemma updateOneDataset_others options metadataApi newMetadata allUpdates fs
  datasetId :
  let fs' :=
    updateOneDataset localeCompare options metadataApi newMetadata
      allUpdates fs datasetId in
  Files.global_stats fs' = Files.global_stats fs
  /\ Files.top_datasets fs' = Files.top_datasets fs
  /\ Files.datasets_index fs' = Files.datasets_index fs.
Proof.
  cbv zeta. rewrite updateOneDataset_eq.
  destruct (metadataFor _ _ _ _); [ | auto].
  apply writeJsonFile_dataset_others.
Qed.

Lemma metadataFor_other options metadataApi newMetadata allUpdates fs
  datasetId id :
  id <> datasetId ->
  metadataFor metadataApi newMetadata
    (updateOneDataset localeCompare options metadataApi newMetadata
       allUpdates fs datasetId) id
  = metadataFor metadataApi newMetadata fs id.
Proof.
  intros Hne. unfold metadataFor.
  now rewrite (updateOneDataset_other _ _ _ _ _ _ _ Hne).
Qed.

Lemma step7_untouched options metadataApi newMetadata allUpdates ids :
  forall fs id,
    ~ In id ids ->
    loadDatasetStats
      (step7 localeCompare options metadataApi newMetadata allUpdates ids fs) id
    = loadDatasetStats fs id.
Proof.
  unfold step7.
  induction ids as [ | x ids IH]; intros fs id Hnot; simpl; [reflexivity | ].
  rewrite IH by (intros H; apply Hnot; now right).
  apply updateOneDataset_other. intros ->. apply Hnot. now left.
Qed.

Lemma step7_others options metadataApi newMetadata allUpdates ids :
  forall fs,
    let fs' := step7 localeCompare options metadataApi newMetadata allUpdates ids fs in
    Files.global_stats fs' = Files.global_stats fs
    /\ Files.top_datasets fs' = Files.top_datasets fs
    /\ Files.datasets_index fs' = Files.datasets_index fs.
Proof.
  unfold step7.
  induction ids as [ | x ids IH]; intros fs; simpl; [auto | ].
  destruct (IH (updateOneDataset localeCompare options metadataApi
                  newMetadata allUpdates fs x)) as (H1 & H2 & H3).
  destruct (updateOneDataset_others options metadataApi newMetadata
              allUpdates fs x) as (G1 & G2 & G3).
  cbv zeta in *. rewrite H1, H2, H3. auto.
Qed.

Lemma step7_updated options metadataApi newMetadata allUpdates ids :
  forall fs id,
    NoDup ids -> In id ids ->
    loadDatasetStats
      (step7 localeCompare options metadataApi newMetadata allUpdates ids fs) id
    = loadDatasetStats
        (updateOneDataset localeCompare options metadataApi newMetadata
           allUpdates fs id) id.
Proof.
  unfold step7.
  induction ids as [ | x ids IH]; intros fs id Hnd Hin; [destruct Hin | ].
  inversion Hnd as [ | ? ? Hnotin Hnd']; subst. simpl.
  destruct (String.eqb_spec x id) as [-> | Hne].
  - now apply (step7_untouched options metadataApi newMetadata allUpdates
                 ids).
  - destruct Hin as [-> | Hin]; [congruence | ].
    rewrite (IH _ _ Hnd' Hin).
    pose proof (metadataFor_other options metadataApi newMetadata allUpdates
                  fs x id ltac:(congruence)) as Hmd.
    pose proof (updateOneDataset_other options metadataApi newMetadata
                  allUpdates fs x id ltac:(congruence)) as Hload.
    set (fs1 := updateOneDataset localeCompare options metadataApi
                  newMetadata allUpdates fs x) in *.
    rewrite (updateOneDataset_eq options metadataApi newMetadata allUpdates
               fs1 id).
    rewrite (updateOneDataset_eq options metadataApi newMetadata allUpdates
               fs id).
    rewrite Hmd, Hload.
    destruct (metadataFor metadataApi newMetadata fs id) as [md | ];
      [ | exact Hload].
    unfold loadDatasetStats, writeJsonFile.
    destruct (SyncOptions.dryRun options); [exact Hload | ].
    simpl. now rewrite !Map_get_set_same.
Qed.

Lemma datasetsToUpdateOf_spec allUpdates :
  NoDup (datasetsToUpdateOf allUpdates)
  /\ forall id,
       In id (datasetsToUpdateOf allUpdates)
       <-> In id (map DatasetMonthlyUpdate.datasetId allUpdates).
Proof.
  unfold datasetsToUpdateOf. split.
  - apply fold_Set_add_NoDup. constructor.
  - intros id. rewrite fold_Set_add_In. simpl. tauto.
Qed.

(** X20: step 7 of the incremental run touches no file but those of the
    datasets that have updates: the global, ranking and directory files and
    the file of any other dataset stay as they were.  A dataset with
    updates whose metadata is neither new, nor in a file of its own, nor
    served by the API gets no file; otherwise, when the run is not a dry
    run, its file holds the merge of its former file with the updates. *)
Theorem step7_files
  (options : SyncOptions.t)
  (metadataApi : string -> option DatagouvDataset.t)
  (newMetadata : Map DatagouvDataset.t)
  (allUpdates : list DatasetMonthlyUpdate.t) (fs : Files.t) :
  let fs7 :=
    fold_left
      (updateOneDataset localeCompare options metadataApi newMetadata
         allUpdates)
      (datasetsToUpdateOf allUpdates) fs in
  (Files.global_stats fs7 = Files.global_stats fs
   /\ Files.top_datasets fs7 = Files.top_datasets fs
   /\ Files.datasets_index fs7 = Files.datasets_index fs)
  /\ (forall id,
        ~ In id (map DatasetMonthlyUpdate.datasetId allUpdates) ->
        loadDatasetStats fs7 id = loadDatasetStats fs id)
  /\ (forall id,
        In id (map DatasetMonthlyUpdate.datasetId allUpdates) ->
        Map_get newMetadata id = None ->
        loadDatasetStats fs id = None ->
        metadataApi id = None ->
        loadDatasetStats fs7 id = None)
  /\ (forall id metadata,
        SyncOptions.dryRun options = false ->
        In id (map DatasetMonthlyUpdate.datasetId allUpdates) ->
        metadataFor metadataApi newMetadata fs id = Some metadata ->
        loadDatasetStats fs7 id
        = Some (updateDatasetStats localeCompare (loadDatasetStats fs id) id
                  allUpdates metadata)).
Proof.
  intros fs7.
  destruct (datasetsToUpdateOf_spec allUpdates) as [Hnd Hin].
  change fs7 with (step7 localeCompare options metadataApi newMetadata allUpdates
                     (datasetsToUpdateOf allUpdates) fs).
  split; [apply step7_others | ]. split.
  { intros id Hnot. apply step7_untouched. now rewrite Hin. }
  split.
  { intros id Hid Hnew Hfile Hapi.
    rewrite step7_updated by (try exact Hnd; now apply Hin).
    rewrite updateOneDataset_eq. unfold metadataFor, fetchDatasetMetadata.
    now rewrite Hnew, Hfile, Hapi. }
  intros id metadata Hdry Hid Hmd.
  rewrite step7_updated by (try exact Hnd; now apply Hin).
  rewrite updateOneDataset_eq, Hmd. unfold loadDatasetStats at 1.
  rewrite writeJsonFile_dataset_dir by exact Hdry.
  apply Map_get_set_same.
Qed.

End WithCollation.
End IncrementalRunFacts.


(* ================================================================== *)
(** * The two runs and the files *)
(* ================================================================== *)

Module FullRunFacts.
Import JS Spec More JSFacts SumFacts FetchFacts FilesFacts.
Import SyncStats SyncStatsFacts RankingFacts.

Lemma topDatasetIdsOf_In topDatasets id :
  In id (topDatasetIdsOf topDatasets)
  <-> exists period k,
        In id (map DatasetRanking.id (rankingsOf topDatasets period k)).
Proof.
  unfold topDatasetIdsOf. cbn [fold_left].
  rewrite !fold_Set_add_In. split.
  - intros H.
    repeat (destruct H as [H | H]);
      [destruct H
      | exists Period.week, Metric.visits
      | exists Period.week, Metric.downloads
      | exists Period.month, Metric.visits
      | exists Period.month, Metric.downloads
      | exists Period.year, Metric.visits
      | exists Period.year, Metric.downloads
      | exists Period.allTime, Metric.visits
      | exists Period.allTime, Metric.downloads ]; exact H.
  - intros ([ | | | ] & [ | ] & H); tauto.
Qed.

Section WithCollation.
Variable localeCompare : option string -> string -> string -> Z.

Lemma writeDetails_others options allMetrics metadataMap ids :
  forall fs,
    let fs' :=
      writeDetails localeCompare options allMetrics metadataMap ids fs in
    Files.global_stats fs' = Files.global_stats fs
    /\ Files.top_datasets fs' = Files.top_datasets fs
    /\ Files.datasets_index fs' = Files.datasets_index fs.
Proof.
  unfold writeDetails.
  induction ids as [ | x ids IH]; intros fs; [simpl; auto | ].
  cbn [fold_left]. cbv zeta in IH |- *.
  match goal with
  | |- context [fold_left ?f ids ?fs1] =>
      destruct (IH fs1) as (H1 & H2 & H3); rewrite H1, H2, H3
  end.
  destruct (find _ allMetrics); [ | auto].
  destruct (Map_get metadataMap x); [ | auto].
  apply writeJsonFile_dataset_others.
Qed.

Lemma writeDetails_get options allMetrics metadataMap ids :
  SyncOptions.dryRun options = false ->
  forall fs id,
    Map_get
      (Files.datasets_dir
         (writeDetails localeCompare options allMetrics metadataMap ids fs))
      id
    = match (if Set_has ids id
             then detailsOf localeCompare allMetrics metadataMap id
             else None) with
      | Some stats => Some stats
      | None => Map_get (Files.datasets_dir fs) id
      end.
Proof.
  intros Hdry. unfold writeDetails, Set_has.
  induction ids as [ | x ids IH]; intros fs id; [reflexivity | ].
  cbn [fold_left existsb]. rewrite IH.
  destruct (String.eqb_spec x id) as [-> | Hne].
  - cbn [orb]. unfold detailsOf.
    destruct (find _ allMetrics) as [metrics | ];
      [ | now destruct (existsb _ ids)].
    destruct (Map_get metadataMap id) as [metadata | ];
      [ | now destruct (existsb _ ids)].
    rewrite writeJsonFile_dataset_dir by exact Hdry.
    rewrite Map_get_set_same. now destruct (existsb _ ids).
  - cbn [orb].
    assert (Hsame :
      Map_get
        (Files.datasets_dir
           match find
                   (fun m => (DatasetMetrics.datasetId m =? x)%string)
                   allMetrics,
                 Map_get metadataMap x with
           | Some metrics, Some metadata =>
               writeJsonFile
                 (dataset_json x
                    (createDatasetStats localeCompare metrics metadata))
                 options fs
           | _, _ => fs
           end) id
      = Map_get (Files.datasets_dir fs) id).
    { destruct (find _ allMetrics); [ | reflexivity].
      destruct (Map_get metadataMap x); [ | reflexivity].
      apply writeJsonFile_dataset_get. congruence. }
    now rewrite Hsame.
Qed.

Lemma ranked_details now lastUpdate allMetrics metadataMap period k e :
  In e (rankingsOf
          (calculateTopDatasets now lastUpdate allMetrics metadataMap)
          period k) ->
  exists metrics metadata,
    In metrics allMetrics
    /\ DatasetMetrics.datasetId metrics = DatasetRanking.id e
    /\ Map_get metadataMap (DatasetRanking.id e) = Some metadata
    /\ detailsOf localeCompare allMetrics metadataMap (DatasetRanking.id e)
       = Some (createDatasetStats localeCompare metrics metadata).
Proof.
  intros He. apply ranking_entry_origin in He.
  destruct He as (d & i & Hd & ->).
  apply datasetsWithStats_In in Hd. destruct Hd as [Hin Hwith].
  unfold withStatsOf in Hwith.
  destruct (Map_get metadataMap (DatasetMetrics.datasetId (WithStats.metrics d)))
    as [metadata | ] eqn:Hget; [ | discriminate].
  change (DatasetRanking.id (rankingOf k d i))
    with (DatasetMetrics.datasetId (WithStats.metrics d)).
  unfold detailsOf. rewrite Hget.
  destruct (find
              (fun m =>
                 (DatasetMetrics.datasetId m
                  =? DatasetMetrics.datasetId (WithStats.metrics d))%string)
              allMetrics) as [metrics | ] eqn:Hfind.
  - apply find_some in Hfind. destruct Hfind as [Hm Heq].
    apply String.eqb_eq in Heq.
    exists metrics, metadata. auto.
  - exfalso.
    pose proof (find_none _ _ Hfind _ Hin) as Hno. simpl in Hno.
    now rewrite String.eqb_refl in Hno.
Qed.

(** X17: the full run ends on a fatal error exactly when the list of the
    dataset ids cannot be fetched; a dry run that ends leaves every file as
    it was. *)
Theorem full_run_fatal_and_dry_run
  (options : SyncOptions.t) (now : Date) (lastUpdate : string)
  (listing : list (option MetricApiDatasetResponse.t))
  (metricApi : string -> list (option MetricApiDatasetResponse.t))
  (metadataApi : string -> option DatagouvDataset.t) (fs : Files.t) :
  (main localeCompare options now lastUpdate listing metricApi metadataApi fs
   = None
   <-> fetchAllDatasetIds options listing = None)
  /\ (SyncOptions.dryRun options = true ->
      forall fs',
        main localeCompare options now lastUpdate listing metricApi
          metadataApi fs = Some fs' ->
        fs' = fs).
Proof.
  unfold main. split.
  - destruct (fetchAllDatasetIds options listing); split;
      intros H; try discriminate; reflexivity.
  - intros Hdry fs' H.
    destruct (fetchAllDatasetIds options listing) as [datasetIds | ];
      [ | discriminate].
    injection H as <-. cbv zeta.
    rewrite !(writeJsonFile_dryRun _ _ _ Hdry).
    unfold writeDetails. apply fold_unchanged.
    intros s x. destruct (find _ _); [ | reflexivity].
    destruct (Map_get _ x); [ | reflexivity].
    now apply writeJsonFile_dryRun.
Qed.

(** X18: a full run that is not a dry run and that ends writes the global
    statistics, the rankings and the directory computed from the metrics
    and the metadata fetched; it writes the file of each dataset that is in
    a ranking list, made from the metrics and the metadata of the dataset,
    and leaves the file of any other dataset as it was. *)
Theorem full_run_files
  (options : SyncOptions.t) (now : Date) (lastUpdate : string)
  (listing : list (option MetricApiDatasetResponse.t))
  (metricApi : string -> list (option MetricApiDatasetResponse.t))
  (metadataApi : string -> option DatagouvDataset.t) (fs fs' : Files.t) :
  SyncOptions.dryRun options = false ->
  main localeCompare options now lastUpdate listing metricApi metadataApi fs
  = Some fs' ->
  exists datasetIds,
    fetchAllDatasetIds options listing = Some datasetIds
    /\ let allMetrics := fetchAllMetrics metricApi datasetIds in
       let metadataMap := fetchAllMetadata metadataApi allMetrics in
       let topDatasets :=
         calculateTopDatasets now lastUpdate allMetrics metadataMap in
       Files.global_stats fs'
       = Some (calculateGlobalStats localeCompare lastUpdate allMetrics)
       /\ Files.top_datasets fs' = Some topDatasets
       /\ Files.datasets_index fs'
          = Some (createDatasetsIndex localeCompare lastUpdate metadataMap)
       /\ (forall period k e,
             In e (rankingsOf topDatasets period k) ->
             exists metrics metadata,
               In metrics allMetrics
               /\ DatasetMetrics.datasetId metrics = DatasetRanking.id e
               /\ Map_get metadataMap (DatasetRanking.id e) = Some metadata
               /\ Map_get (Files.datasets_dir fs') (DatasetRanking.id e)
                  = Some (createDatasetStats localeCompare metrics metadata))
       /\ (forall id,
             (forall period k,
                ~ In id (map DatasetRanking.id
                           (rankingsOf topDatasets period k))) ->
             Map_get (Files.datasets_dir fs') id
             = Map_get (Files.datasets_dir fs) id).
Proof.
  intros Hdry H. unfold main in H.
  destruct (fetchAllDatasetIds options listing) as [datasetIds | ];
    [ | discriminate].
  exists datasetIds. split; [reflexivity | ].
  cbv zeta in H |- *. injection H as <-.
  set (allMetrics := fetchAllMetrics metricApi datasetIds).
  set (metadataMap := fetchAllMetadata metadataApi allMetrics).
  set (topDatasets :=
         calculateTopDatasets now lastUpdate allMetrics metadataMap).
  match goal with
  | |- context [writeDetails _ _ _ _ _ ?fs3] => set (fs3' := fs3)
  end.
  destruct (writeDetails_others options allMetrics metadataMap
              (topDatasetIdsOf topDatasets) fs3') as (H1 & H2 & H3).
  cbv zeta in H1, H2, H3. rewrite H1, H2, H3.
  assert (Hdir : Files.datasets_dir fs3' = Files.datasets_dir fs).
  { unfold fs3', writeJsonFile. now rewrite Hdry. }
  unfold fs3' at 1 2 3. unfold writeJsonFile. rewrite Hdry.
  cbn [Files.global_stats Files.top_datasets Files.datasets_index].
  split; [reflexivity | ]. split; [reflexivity | ].
  split; [reflexivity | ]. split.
  - intros period k e He.
    destruct (ranked_details now lastUpdate allMetrics metadataMap period k
                e He) as (metrics & metadata & Hin & Hid & Hget & Hdet).
    exists metrics, metadata.
    split; [exact Hin | ]. split; [exact Hid | ]. split; [exact Hget | ].
    rewrite writeDetails_get by exact Hdry.
    assert (Hhas :
      Set_has (topDatasetIdsOf topDatasets) (DatasetRanking.id e) = true).
    { apply Set_has_In. apply topDatasetIdsOf_In.
      exists period, k. now apply in_map. }
    now rewrite Hhas, Hdet.
  - intros id Hnot. rewrite writeDetails_get by exact Hdry.
    assert (Hhas : Set_has (topDatasetIdsOf topDatasets) id = false).
    { destruct (Set_has (topDatasetIdsOf topDatasets) id) eqn:Hhas;
        [ | reflexivity].
      apply Set_has_In in Hhas. apply topDatasetIdsOf_In in Hhas.
      destruct Hhas as (period & k & Hin). now destruct (Hnot period k). }
    now rewrite Hhas, Hdir.
Qed.

End WithCollation.
End FullRunFacts.

Module IncrementalMainFacts.
Import JS Spec More JSFacts SumFacts FetchFacts FilesFacts.
Import SyncIncremental IncrementalRunFacts.

Lemma Map_set_same_value {V : Type} (m : Map V) (k : string) (v : V) :
  Map_get m k = Some v -> Map_set m k v = m.
Proof.
  induction m as [ | [k' v'] m IH]; simpl; [discriminate | ].
  destruct (k' =? k)%string.
  - now intros [= ->].
  - intros H. now rewrite IH.
Qed.

Lemma writeJsonFile_same datasetId data options fs :
  Map_get (Files.datasets_dir fs) datasetId = Some data ->
  writeJsonFile (dataset_json datasetId data) options fs = fs.
Proof.
  intros H. unfold writeJsonFile.
  destruct (SyncOptions.dryRun options); [reflexivity | ].
  rewrite (Map_set_same_value _ _ _ H). now destruct fs.
Qed.

Lemma rewrite_all options (entries : Map DatasetStats.t) (fs : Files.t) :
  (forall entry,
     In entry entries ->
     Map_get (Files.datasets_dir fs) (fst entry) = Some (snd entry)) ->
  fold_left
    (fun fs entry =>
       writeJsonFile (dataset_json (fst entry) (snd entry)) options fs)
    entries fs
  = fs.
Proof.
  induction entries as [ | entry entries IH]; intros H; [reflexivity | ].
  cbn [fold_left].
  rewrite writeJsonFile_same by (apply H; now left).
  apply IH. intros e He. apply H. now right.
Qed.

(** ** The listing of the directory *)

Lemma byFileName_consistent : consistent Files.byFileName.
Proof.
  apply (CollationFacts.by_key_consistent
           (fun a : string * DatasetStats.t => String.append (fst a) ".json")).
Qed.

Lemma readdir_perm (fs : Files.t) :
  Permutation (Files.readdir fs) (Files.datasets_dir fs).
Proof. apply sort_perm. Qed.

Lemma length_string_append (s u : string) :
  String.length (String.append s u)
  = (String.length s + String.length u)%nat.
Proof. induction s as [ | a s IH]; simpl; [reflexivity | now rewrite IH]. Qed.

Lemma append_inj_l (s t u : string) :
  String.append s u = String.append t u -> s = t.
Proof.
  intros H.
  assert (Hlen : String.length s = String.length t).
  { apply (f_equal String.length) in H.
    rewrite !length_string_append in H. lia. }
  revert t H Hlen. induction s as [ | a s IH]; intros [ | b t] H Hlen;
    simpl in *; try discriminate; [reflexivity | ].
  injection H as -> H. f_equal. apply IH; [exact H | lia].
Qed.

Lemma readdir_sorted (fs : Files.t) :
  Map_wf (Files.datasets_dir fs) ->
  StronglySorted
    (fun a b =>
       String.compare (String.append (fst a) ".json")
         (String.append (fst b) ".json") = Lt)
    (Files.readdir fs).
Proof.
  intros Hwf.
  pose proof (sort_sorted _ byFileName_consistent (Files.datasets_dir fs))
    as Hs.
  assert (Hnd : NoDup (Map_keys (Files.readdir fs))).
  { apply (Map_wf_perm (Files.datasets_dir fs));
      [apply Permutation_sym, readdir_perm | exact Hwf]. }
  fold (Files.readdir fs) in Hs.
  induction Hs as [ | a l Hs IH Hall]; constructor.
  - apply IH. now inversion Hnd.
  - apply Forall_forall. intros b Hb. rewrite Forall_forall in Hall.
    specialize (Hall b Hb). unfold Files.byFileName in Hall.
    destruct (String.compare _ _) eqn:Hc; [ | reflexivity | lia].
    exfalso. apply String.compare_eq_iff, append_inj_l in Hc.
    inversion Hnd as [ | ? ? Hnotin _]; subst. apply Hnotin.
    unfold Map_keys. rewrite Hc. now apply in_map.
Qed.

Lemma sorted_perm_eq {A : Type} (R : A -> A -> Prop) :
  (forall a, ~ R a a) -> (forall a b, R a b -> R b a -> False) ->
  forall l1 l2 : list A,
    StronglySorted R l1 -> StronglySorted R l2 -> Permutation l1 l2 ->
    l1 = l2.
Proof.
  intros Hirr Hasym. induction l1 as [ | a l1 IH]; intros l2 H1 H2 Hp.
  - apply Permutation_nil in Hp. now subst.
  - destruct l2 as [ | b l2];
      [apply Permutation_sym, Permutation_nil in Hp; discriminate | ].
    inversion H1 as [ | ? ? H1' Hall1]; subst.
    inversion H2 as [ | ? ? H2' Hall2]; subst.
    rewrite Forall_forall in Hall1, Hall2.
    assert (Hab : a = b).
    { assert (Ha : In a (b :: l2))
        by (apply (Permutation_in _ Hp); now left).
      assert (Hb : In b (a :: l1))
        by (apply (Permutation_in _ (Permutation_sym Hp)); now left).
      destruct Ha as [-> | Ha]; [reflexivity | ].
      destruct Hb as [-> | Hb]; [reflexivity | ].
      exfalso. apply (Hasym a b); [now apply Hall1 | now apply Hall2]. }
    subst b. f_equal. apply IH; [exact H1' | exact H2' | ].
    now apply Permutation_cons_inv in Hp.
Qed.

(** The listing depends on the files only, not on the order in which they
    were written. *)
Lemma readdir_order_free (fs fs' : Files.t) :
  Map_wf (Files.datasets_dir fs) ->
  Permutation (Files.datasets_dir fs) (Files.datasets_dir fs') ->
  Files.readdir fs = Files.readdir fs'.
Proof.
  intros Hwf Hperm.
  assert (Hwf' : Map_wf (Files.datasets_dir fs'))
    by now apply (Map_wf_perm (Files.datasets_dir fs)).
  apply (sorted_perm_eq
           (fun a b : string * DatasetStats.t =>
              String.compare (String.append (fst a) ".json")
                (String.append (fst b) ".json") = Lt)).
  - intros a Ha.
    pose proof (String.compare_antisym (String.append (fst a) ".json")
                  (String.append (fst a) ".json")) as Hanti.
    rewrite Ha in Hanti. discriminate Hanti.
  - intros a b Hab Hba. rewrite String.compare_antisym, Hba in Hab.
    discriminate.
  - now apply readdir_sorted.
  - now apply readdir_sorted.
  - rewrite readdir_perm, Hperm. apply Permutation_sym, readdir_perm.
Qed.

Section WithCollation.
Variable localeCompare : option string -> string -> string -> Z.

Lemma step7_wf options metadataApi newMetadata allUpdates ids :
  forall fs,
    Map_wf (Files.datasets_dir fs) ->
    Map_wf
      (Files.datasets_dir
         (step7 localeCompare options metadataApi newMetadata allUpdates ids
            fs)).
Proof.
  unfold step7.
  induction ids as [ | x ids IH]; intros fs Hwf; [exact Hwf | ].
  cbn [fold_left]. apply IH. rewrite updateOneDataset_eq.
  destruct (metadataFor _ _ _ _); [ | exact Hwf].
  now apply writeJsonFile_dir_wf.
Qed.

Lemma step7_dryRun options metadataApi newMetadata allUpdates ids fs :
  SyncOptions.dryRun options = true ->
  step7 localeCompare options metadataApi newMetadata allUpdates ids fs = fs.
Proof.
  intros Hdry. unfold step7. apply fold_unchanged.
  intros s x. rewrite updateOneDataset_eq.
  destruct (metadataFor _ _ _ _); [ | reflexivity].
  now apply writeJsonFile_dryRun.
Qed.

Lemma synchronise_eq options now lastUpdate monthApi metadataApi fs
  globalStats monthsToFetch :
  synchronise localeCompare options now lastUpdate monthApi metadataApi fs
    globalStats monthsToFetch
  = match fetchAllUpdates monthApi monthsToFetch
            ([], existingDatasetIdsOf (Files.datasets_index fs)) with
    | None => (fatalError, fs)
    | Some (allUpdates, knownDatasetIds) =>
        let newMetadata :=
          fetchMissingMetadata metadataApi
            (filter
               (fun id =>
                  negb
                    (Set_has
                       (existingDatasetIdsOf (Files.datasets_index fs)) id))
               knownDatasetIds)
            (existingDatasetsMapOf (Files.datasets_index fs)) in
        let fs7 :=
          step7 localeCompare options metadataApi newMetadata allUpdates
            (datasetsToUpdateOf allUpdates) fs in
        (synchronised,
         fold_left
           (fun fs entry =>
              writeJsonFile (dataset_json (fst entry) (snd entry)) options
                fs)
           (Files.readdir fs7)
           (writeJsonFile
              (datasets_index_json
                 (updateDatasetsIndex localeCompare lastUpdate
                    (Files.datasets_index fs) newMetadata))
              options
              (writeJsonFile
                 (top_datasets_json
                    (recalculateTopDatasets now lastUpdate
                       (Files.readdir fs7)))
                 options
                 (writeJsonFile
                    (global_stats_json
                       (updateGlobalStats localeCompare lastUpdate
                          globalStats allUpdates
                          (Set_size knownDatasetIds)))
                    options fs7))))
    end.
Proof. reflexivity. Qed.

Lemma synchronise_dryRun options now lastUpdate monthApi metadataApi fs
  globalStats monthsToFetch :
  SyncOptions.dryRun options = true ->
  snd (synchronise localeCompare options now lastUpdate monthApi metadataApi
         fs globalStats monthsToFetch)
  = fs.
Proof.
  intros Hdry. rewrite synchronise_eq.
  destruct (fetchAllUpdates _ _ _) as [[allUpdates known] | ];
    [ | reflexivity].
  cbv zeta. cbn [snd].
  rewrite !(writeJsonFile_dryRun _ _ _ Hdry).
  rewrite (step7_dryRun _ _ _ _ _ _ Hdry).
  apply fold_unchanged. intros s x. now apply writeJsonFile_dryRun.
Qed.

Lemma synchronise_fatal options now lastUpdate monthApi metadataApi fs
  globalStats monthsToFetch :
  fst (synchronise localeCompare options now lastUpdate monthApi metadataApi
         fs globalStats monthsToFetch)
  <> synchronised ->
  synchronise localeCompare options now lastUpdate monthApi metadataApi
    fs globalStats monthsToFetch
  = (fatalError, fs).
Proof.
  rewrite synchronise_eq.
  destruct (fetchAllUpdates _ _ _) as [[allUpdates known] | ];
    [ | reflexivity].
  cbv zeta. cbn [fst]. congruence.
Qed.

(** X22: an incremental run that ends on a fatal error, or finds the
    statistics up to date, or is a dry run, leaves every file as it was. *)
Theorem incremental_run_without_effect
  (options : SyncOptions.t) (now : Date) (lastUpdate : string)
  (monthApi : string -> list (option MetricApiDatasetResponse.t))
  (metadataApi : string -> option DatagouvDataset.t)
  (fs fs' : Files.t) (exit : Exit) :
  main localeCompare options now lastUpdate monthApi metadataApi fs
  = Done (exit, fs') ->
  SyncOptions.dryRun options = true \/ exit <> synchronised ->
  fs' = fs.
Proof.
  unfold main. intros H Hcase.
  destruct (Files.global_stats fs) as [globalStats | ];
    [ | now injection H as _ <-].
  destruct (rev (GlobalStats.monthlyStats globalStats)) as [ | last rest];
    [now injection H as _ <- | ].
  destruct (getMonthsToFetch _ _) as [[ | month months] | | ];
    try discriminate; [now injection H as _ <- | ].
  injection H as H.
  destruct Hcase as [Hdry | Hexit].
  - pose proof (synchronise_dryRun options now lastUpdate monthApi
                  metadataApi fs globalStats (month :: months) Hdry) as Hs.
    rewrite H in Hs. exact Hs.
  - pose proof (synchronise_fatal options now lastUpdate monthApi
                  metadataApi fs globalStats (month :: months)) as Hs.
    rewrite H in Hs. specialize (Hs Hexit). now injection Hs as _ <-.
Qed.

(** X23: when the months are fetched, the run is not a dry run and the
    per-dataset files have distinct names, the incremental run writes the
    merged global statistics and the updated directory; the per-dataset
    files are those of step 7, which step 9 writes back unchanged, and the
    rankings written are those of the per-dataset files as they are after
    the run, taken in the order of their names, whatever the order in which
    they were written. *)
Theorem synchronise_writes_consistent_files
  (options : SyncOptions.t) (now : Date) (lastUpdate : string)
  (monthApi : string -> list (option MetricApiDatasetResponse.t))
  (metadataApi : string -> option DatagouvDataset.t)
  (fs : Files.t) (globalStats : GlobalStats.t)
  (monthsToFetch : list string)
  (allUpdates : list DatasetMonthlyUpdate.t) (knownDatasetIds : StrSet) :
  SyncOptions.dryRun options = false ->
  Map_wf (Files.datasets_dir fs) ->
  fetchAllUpdates monthApi monthsToFetch
    ([], existingDatasetIdsOf (Files.datasets_index fs))
  = Some (allUpdates, knownDatasetIds) ->
  let newMetadata :=
    fetchMissingMetadata metadataApi
      (filter
         (fun id =>
            negb (Set_has (existingDatasetIdsOf (Files.datasets_index fs))
                    id))
         knownDatasetIds)
      (existingDatasetsMapOf (Files.datasets_index fs)) in
  exists fs',
    synchronise localeCompare options now lastUpdate monthApi metadataApi fs
      globalStats monthsToFetch
    = (synchronised, fs')
    /\ Files.global_stats fs'
       = Some (updateGlobalStats localeCompare lastUpdate globalStats
                 allUpdates (Set_size knownDatasetIds))
    /\ Files.datasets_index fs'
       = Some (updateDatasetsIndex localeCompare lastUpdate
                 (Files.datasets_index fs) newMetadata)
    /\ Files.datasets_dir fs'
       = Files.datasets_dir
           (step7 localeCompare options metadataApi newMetadata allUpdates
              (datasetsToUpdateOf allUpdates) fs)
    /\ Files.top_datasets fs'
       = Some (recalculateTopDatasets now lastUpdate (Files.readdir fs'))
    /\ Permutation (Files.readdir fs') (Files.datasets_dir fs')
    /\ StronglySorted
         (fun a b =>
            String.compare (String.append (fst a) ".json")
              (String.append (fst b) ".json") = Lt)
         (Files.readdir fs')
    /\ (forall other,
          Map_wf (Files.datasets_dir other) ->
          Permutation (Files.datasets_dir other) (Files.datasets_dir fs') ->
          Files.readdir other = Files.readdir fs').
Proof.
  intros Hdry Hwf Hfetch newMetadata.
  rewrite synchronise_eq, Hfetch. cbv zeta. fold newMetadata.
  set (fs7 := step7 localeCompare options metadataApi newMetadata allUpdates
                (datasetsToUpdateOf allUpdates) fs).
  assert (Hwf7 : Map_wf (Files.datasets_dir fs7)) by now apply step7_wf.
  eexists. split; [reflexivity | ].
  rewrite rewrite_all.
  2: { intros [k v] Hin. unfold writeJsonFile. rewrite Hdry. simpl.
       apply In_Map_get; [exact Hwf7 | ].
       apply (Permutation_in _ (readdir_perm fs7)). exact Hin. }
  match goal with
  | |- Files.global_stats ?f = _ /\ _ => set (fs9 := f)
  end.
  assert (Hdir : Files.datasets_dir fs9 = Files.datasets_dir fs7)
    by (unfold fs9, writeJsonFile; rewrite Hdry; reflexivity).
  assert (Hread : Files.readdir fs9 = Files.readdir fs7)
    by (unfold Files.readdir; now rewrite Hdir).
  rewrite Hread, Hdir.
  split; [unfold fs9, writeJsonFile; rewrite Hdry; reflexivity | ].
  split; [unfold fs9, writeJsonFile; rewrite Hdry; reflexivity | ].
  split; [reflexivity | ].
  split; [unfold fs9, writeJsonFile; rewrite Hdry; reflexivity | ].
  split; [apply readdir_perm | ].
  split; [now apply readdir_sorted | ].
  intros other Hwfo Hperm. now apply readdir_order_free.
Qed.

End WithCollation.
End IncrementalMainFacts.


(* ================================================================== *)
(** * The metadata maps and the per-dataset record of the full run *)
(* ================================================================== *)

Module MetadataMapFacts.
Import JS Spec More JSFacts SumFacts FetchFacts.

Section Recording.
Context {A : Type}.
Variables (key : A -> string) (api : string -> option DatagouvDataset.t).

Lemma Map_get_fold_record (l : list A) (id : string) :
  forall m : Map DatagouvDataset.t,
    Map_get
      (fold_left
         (fun m x =>
            match api (key x) with
            | Some metadata => Map_set m (key x) metadata
            | None => m
            end)
         l m) id
    = match (if existsb (fun x => (key x =? id)%string) l then api id
             else None) with
      | Some metadata => Some metadata
      | None => Map_get m id
      end.
Proof.
  induction l as [ | x l IH]; intros m; [reflexivity | ].
  cbn [fold_left existsb]. rewrite IH.
  destruct (String.eqb_spec (key x) id) as [Heq | Hne]; cbn [orb].
  - rewrite Heq. destruct (api id) as [metadata | ].
    + rewrite Map_get_set_same. now destruct (existsb _ l).
    + now destruct (existsb _ l).
  - destruct (api (key x)) as [metadata | ]; [ | reflexivity].
    now rewrite Map_get_set_other by exact Hne.
Qed.

Lemma fold_record_wf (l : list A) :
  forall m : Map DatagouvDataset.t,
    Map_wf m ->
    Map_wf
      (fold_left
         (fun m x =>
            match api (key x) with
            | Some metadata => Map_set m (key x) metadata
            | None => m
            end)
         l m).
Proof.
  induction l as [ | x l IH]; intros m Hwf; [exact Hwf | ].
  cbn [fold_left]. apply IH.
  destruct (api (key x)); [now apply Map_set_wf | exact Hwf].
Qed.

End Recording.

Lemma existsb_eqb_In (l : list string) (id : string) :
  existsb (fun x => (x =? id)%string) l = true <-> In id l.
Proof.
  rewrite existsb_exists. split.
  - intros (x & Hin & Heq). apply String.eqb_eq in Heq. now subst.
  - intros Hin. exists id. split; [exact Hin | apply String.eqb_refl].
Qed.

(** X24: the metadata map of the full run binds an id exactly when it is
    the id of a dataset whose metrics were fetched and the API serves its
    metadata, and binds it to the metadata served; its keys are
    distinct. *)
Theorem fetchAllMetadata_lookup
  (metadataApi : string -> option DatagouvDataset.t)
  (allMetrics : list SyncStats.DatasetMetrics.t) (id : string) :
  Map_wf (SyncStats.fetchAllMetadata metadataApi allMetrics)
  /\ (In id (map SyncStats.DatasetMetrics.datasetId allMetrics) ->
      Map_get (SyncStats.fetchAllMetadata metadataApi allMetrics) id
      = metadataApi id)
  /\ (~ In id (map SyncStats.DatasetMetrics.datasetId allMetrics) ->
      Map_get (SyncStats.fetchAllMetadata metadataApi allMetrics) id = None).
Proof.
  unfold SyncStats.fetchAllMetadata.
  change (SyncStats.recordMetadata metadataApi)
    with (fun m x =>
            match metadataApi (SyncStats.DatasetMetrics.datasetId x) with
            | Some metadata =>
                Map_set m (SyncStats.DatasetMetrics.datasetId x) metadata
            | None => m
            end).
  split; [apply fold_record_wf, Map_wf_nil | ].
  rewrite Map_get_fold_record.
  destruct (existsb _ allMetrics) eqn:Hex.
  - split; [intros _; now destruct (metadataApi id) | ].
    intros Hnot. exfalso. apply Hnot.
    apply existsb_exists in Hex. destruct Hex as (x & Hin & Heq).
    apply String.eqb_eq in Heq. subst id. now apply in_map.
  - split; [ | reflexivity].
    intros Hin. apply in_map_iff in Hin. destruct Hin as (x & <- & Hin).
    assert (Htrue :
      existsb
        (fun y =>
           (SyncStats.DatasetMetrics.datasetId y
            =? SyncStats.DatasetMetrics.datasetId x)%string)
        allMetrics = true).
    { apply existsb_exists. exists x.
      split; [exact Hin | apply String.eqb_refl]. }
    congruence.
Qed.

(** X25: the map of [fetchMissingMetadata] binds an id exactly when it is
    a new id that the existing directory does not have and the API serves
    its metadata, and binds it to the metadata served; its keys are
    distinct. *)
Theorem fetchMissingMetadata_lookup
  (metadataApi : string -> option DatagouvDataset.t)
  (newDatasetIds : StrSet) (existingDatasets : Map DatasetSummary.t)
  (id : string) :
  let metadataMap :=
    SyncIncremental.fetchMissingMetadata metadataApi newDatasetIds
      existingDatasets in
  Map_wf metadataMap
  /\ (In id newDatasetIds -> Map_has existingDatasets id = false ->
      Map_get metadataMap id = metadataApi id)
  /\ (~ In id newDatasetIds \/ Map_has existingDatasets id = true ->
      Map_get metadataMap id = None).
Proof.
  cbv zeta. unfold SyncIncremental.fetchMissingMetadata.
  unfold SyncIncremental.fetchDatasetMetadata.
  split; [apply (fold_record_wf (fun x : string => x)), Map_wf_nil | ].
  rewrite (Map_get_fold_record (fun x : string => x)).
  destruct (existsb _ (filter _ newDatasetIds)) eqn:Hex.
  - apply existsb_eqb_In in Hex. apply filter_In in Hex.
    destruct Hex as [Hin Hhas]. apply negb_true_iff in Hhas.
    split; [intros _ _; now destruct (metadataApi id) | ].
    intros [Hnot | Htrue]; [contradiction | congruence].
  - split; [ | reflexivity].
    intros Hin Hhas.
    assert (Htrue :
      existsb (fun x => (x =? id)%string)
        (filter (fun i => negb (Map_has existingDatasets i)) newDatasetIds)
      = true).
    { apply existsb_eqb_In. apply filter_In.
      split; [exact Hin | now rewrite Hhas]. }
    congruence.
Qed.

End MetadataMapFacts.

Module DetailsFacts.
Import JS Spec More JSFacts SumFacts FetchFacts GlobalFacts.
Import SyncStats SyncStatsFacts.

Lemma firstMonthOf_head (series : list MonthlyStats.t) :
  firstMonthOf series
  = match series with
    | first :: _ => MonthlyStats.month first
    | [] => ""%string
    end.
Proof.
  destruct series; simpl; [reflexivity | ].
  unfold str_or. now destruct (String.eqb_spec (MonthlyStats.month t) "").
Qed.

Lemma lastMonthOf_last (series : list MonthlyStats.t)
  (last : MonthlyStats.t) :
  lastMonthOf (series ++ [last]) = MonthlyStats.month last.
Proof.
  unfold lastMonthOf. rewrite rev_app_distr. simpl.
  unfold str_or. now destruct (String.eqb_spec (MonthlyStats.month last) "").
Qed.

Section WithCollation.
Variable localeCompare : option string -> string -> string -> Z.

(** X26: the per-dataset record that the full run makes from fetched
    metrics has the id of the metrics, a series with one record per month
    of the metrics and the same counts, totals that are the sums of the
    series, and first and last months that are those of the first and the
    last record; for a consistent collation the series is in ascending
    order.  Its url is the page of the metadata, or the default url of the
    slug when the page is empty. *)
Theorem createDatasetStats_of_fetched_metrics
  (datasetId : string)
  (responses : list (option MetricApiDatasetResponse.t))
  (metrics : DatasetMetrics.t) (metadata : DatagouvDataset.t) :
  fetchDatasetMetrics datasetId responses = Some metrics ->
  let stats := createDatasetStats localeCompare metrics metadata in
  let series := DatasetStats.monthlyStats stats in
  DatasetStats.id stats = datasetId
  /\ Permutation series
       (map toMonthlyStats (DatasetMetrics.monthlyStats metrics))
  /\ NoDup (map MonthlyStats.month series)
  /\ DatasetStats.totalVisits stats = seriesVisits series
  /\ DatasetStats.totalDownloads stats = seriesDownloads series
  /\ (series = [] ->
      DatasetStats.firstMonth stats = ""%string
      /\ DatasetStats.lastMonth stats = ""%string)
  /\ (forall first rest,
        series = first :: rest ->
        DatasetStats.firstMonth stats = MonthlyStats.month first)
  /\ (forall rest last,
        series = rest ++ [last] ->
        DatasetStats.lastMonth stats = MonthlyStats.month last)
  /\ (consistent (byMonth localeCompare) ->
      StronglySorted
        (fun a b =>
           localeCompare None (MonthlyStats.month a) (MonthlyStats.month b)
           <= 0)
        series)
  /\ DatasetStats.url stats
     = (if (DatagouvDataset.page metadata =? "")%string
        then String.append "https://www.data.gouv.fr/fr/datasets/"
               (String.append (DatagouvDataset.slug metadata) "/")
        else DatagouvDataset.page metadata).
Proof.
  intros Hfetch stats series.
  pose proof (fetchDatasetMetrics_wf _ _ _ Hfetch) as Hwf.
  pose proof (fetchDatasetMetrics_eq _ _ _ Hfetch) as Heq.
  assert (Hseries :
    series
    = map toMonthlyStats
        (sort (byMonth localeCompare) (DatasetMetrics.monthlyStats metrics)))
    by reflexivity.
  assert (Hperm :
    Permutation (sort (byMonth localeCompare)
                   (DatasetMetrics.monthlyStats metrics))
      (DatasetMetrics.monthlyStats metrics)) by apply sort_perm.
  assert (Hfirst : DatasetStats.firstMonth stats = firstMonthOf series)
    by reflexivity.
  assert (Hlast : DatasetStats.lastMonth stats = lastMonthOf series)
    by reflexivity.
  split.
  { change (DatasetStats.id stats) with (DatasetMetrics.datasetId metrics).
    rewrite Heq. reflexivity. }
  split; [rewrite Hseries; now apply Permutation_map | ].
  split.
  { rewrite Hseries, map_map.
    change (map (fun x => MonthlyStats.month (toMonthlyStats x)))
      with (@Map_keys Counts.t).
    apply (Map_wf_perm (DatasetMetrics.monthlyStats metrics));
      [now apply Permutation_sym | exact Hwf]. }
  split.
  { change (DatasetStats.totalVisits stats)
      with (DatasetMetrics.totalVisits metrics).
    unfold seriesVisits. rewrite Hseries, map_map.
    rewrite (Zsum_perm _ _ (Permutation_map _ Hperm)).
    rewrite Heq. cbn [DatasetMetrics.totalVisits DatasetMetrics.monthlyStats].
    unfold sumVisits, Map_values. rewrite fold_left_total, map_map.
    simpl. reflexivity. }
  split.
  { change (DatasetStats.totalDownloads stats)
      with (DatasetMetrics.totalDownloads metrics).
    unfold seriesDownloads. rewrite Hseries, map_map.
    rewrite (Zsum_perm _ _ (Permutation_map _ Hperm)).
    rewrite Heq.
    cbn [DatasetMetrics.totalDownloads DatasetMetrics.monthlyStats].
    unfold sumDownloads, Map_values. rewrite fold_left_total, map_map.
    simpl. reflexivity. }
  rewrite Hfirst, Hlast.
  split; [intros ->; auto | ].
  split; [intros first rest ->; apply firstMonthOf_head | ].
  split; [intros rest last ->; apply lastMonthOf_last | ].
  split.
  { intros Hcons. rewrite Hseries. apply StronglySorted_map.
    apply (sort_sorted _ Hcons). }
  unfold stats, createDatasetStats. cbn [DatasetStats.url].
  unfold datasetUrl, str_or. reflexivity.
Qed.

End WithCollation.
End DetailsFacts.


(* ================================================================== *)
(** * The further properties on the sample data *)
(* ================================================================== *)

Module MoreWitnesses.
Import JS Spec More Collation Sample MoreSample.

Ltac distinct :=
  simpl;
  repeat (apply NoDup_cons; [simpl; intuition discriminate | ]);
  apply NoDup_nil.

Ltac in_order :=
  repeat (apply SSorted_cons;
          [ | repeat (apply Forall_cons; [vm_compute; discriminate | ]);
              apply Forall_nil ]);
  apply SSorted_nil.

(** A request that succeeds at its third attempt has waited 1 s, then
    2 s. *)
Lemma fetchWithRetry_first_success_witness :
  flaky 2 = Some "body"%string
  /\ Retry.fetchWithRetry flaky 3
     = (Retry.Returned "body"%string, [1000; 2000]).
Proof.
  split; [reflexivity | ].
  apply (RetryFacts.fetchWithRetry_first_success flaky 3 2 "body"%string).
  - lia.
  - intros j Hj. unfold flaky.
    destruct (Z.eqb_spec j 2); [lia | reflexivity].
  - reflexivity.
Defined.

(** A request that fails three times is given up after 3 s of waiting. *)
Lemma fetchWithRetry_all_fail_witness :
  Retry.fetchWithRetry down 3 = (Retry.Rethrown, [1000; 2000])
  /\ Zsum [1000; 2000] = 500 * 3 * (3 - 1).
Proof.
  apply (proj1 (RetryFacts.fetchWithRetry_all_fail down 3)).
  - lia.
  - intros j Hj. reflexivity.
Defined.

(** The listing of the sample, where E is met twice, gives three ids. *)
Lemma fetchAllDatasetIds_distinct_and_complete_witness :
  SyncStats.fetchAllDatasetIds options listing
  = Some ["E"; "F"; "G"]%string
  /\ NoDup ["E"; "F"; "G"]%string.
Proof.
  assert (H : SyncStats.fetchAllDatasetIds options listing
              = Some ["E"; "F"; "G"]%string) by reflexivity.
  split; [exact H | ].
  exact (proj1 (FetchFacts.fetchAllDatasetIds_distinct_and_complete options
                  listing _ H)).
Defined.

(** The metrics of E: three months, 60 visits. *)
Lemma fetchDatasetMetrics_series_and_totals_witness :
  SyncStats.fetchDatasetMetrics "E" responsesE = Some metricsE
  /\ NoDup (map MetricApiDatasetEntry.metric_month (entriesRead responsesE))
  /\ SyncStats.DatasetMetrics.totalVisits metricsE
     = Zsum (map MetricApiDatasetEntry.monthly_visit
               (entriesRead responsesE))
  /\ SyncStats.DatasetMetrics.totalDownloads metricsE
     = Zsum (map downloadsOfEntry (entriesRead responsesE)).
Proof.
  assert (H : SyncStats.fetchDatasetMetrics "E" responsesE = Some metricsE)
    by reflexivity.
  assert (Hnd : NoDup (map MetricApiDatasetEntry.metric_month
                         (entriesRead responsesE))) by distinct.
  split; [exact H | ]. split; [exact Hnd | ].
  pose proof (FetchFacts.fetchDatasetMetrics_series_and_totals "E"
                responsesE metricsE H) as Hspec.
  cbv zeta in Hspec. destruct Hspec as (_ & _ & _ & _ & _ & Hdistinct).
  exact (proj2 (Hdistinct Hnd)).
Defined.

(** G, whose requests fail, is skipped. *)
Lemma failed_datasets_are_skipped_witness :
  map SyncStats.DatasetMetrics.datasetId
    (SyncStats.fetchAllMetrics metricApi ["E"; "G"; "F"]%string)
  = ["E"; "F"]%string
  /\ SyncStats.fetchDatasetMetrics "G" ([] ++ None :: []) = None.
Proof.
  pose proof (FetchFacts.failed_datasets_are_skipped metricApi
                ["E"; "G"; "F"]%string) as H.
  cbv zeta in H. destruct H as (Hids & _ & Hfail).
  split.
  - rewrite Hids. reflexivity.
  - exact (proj1 (Hfail "G"%string [] [] (Forall_nil _))).
Defined.

(** The global series of the sample starts in January 2024. *)
Lemma global_series_sorted_and_start_witness :
  consistent (SyncStats.byMonth codeUnits)
  /\ GlobalStats.startDate
       (SyncStats.calculateGlobalStats codeUnits lastUpdate allMetrics)
     = "2024-01"%string.
Proof.
  assert (Hcons : consistent (SyncStats.byMonth codeUnits))
    by apply (CollationFacts.by_key_consistent (@fst string Counts.t)).
  split; [exact Hcons | ].
  pose proof (GlobalFacts.global_series_sorted_and_start codeUnits
                lastUpdate allMetrics Hcons) as H.
  cbv zeta in H. destruct H as (_ & _ & _ & Hfirst & _).
  refine (proj1 (Hfirst (MonthlyStats.mk "2024-01" 10 0) _ eq_refl _)).
  simpl. discriminate.
Defined.

(** The totals of the sample are the sums of its global series. *)
Lemma global_totals_are_sums_of_the_series_witness :
  let g := SyncStats.calculateGlobalStats codeUnits lastUpdate allMetrics in
  GlobalStats.totalVisits g = seriesVisits (GlobalStats.monthlyStats g)
  /\ GlobalStats.totalDownloads g
     = seriesDownloads (GlobalStats.monthlyStats g).
Proof.
  apply (GlobalFacts.global_totals_are_sums_of_the_series codeUnits
           lastUpdate allMetrics).
  repeat (apply Forall_cons; [split; reflexivity | ]). apply Forall_nil.
Defined.

(** The batch of April adds 50 visits to the global total. *)
Lemma updateGlobalStats_totals_witness :
  NoDup (map MonthlyStats.month (GlobalStats.monthlyStats globalStats))
  /\ GlobalStats.totalVisits
       (SyncIncremental.updateGlobalStats codeUnits lastUpdate globalStats
          april 3)
     = seriesVisits (GlobalStats.monthlyStats globalStats) + 50.
Proof.
  assert (Hnd : NoDup (map MonthlyStats.month
                         (GlobalStats.monthlyStats globalStats)))
    by distinct.
  split; [exact Hnd | ].
  pose proof (MergeMoreFacts.updateGlobalStats_totals codeUnits lastUpdate
                globalStats april 3 Hnd) as H.
  cbv zeta in H. destruct H as (_ & [Hv _] & _).
  exact Hv.
Defined.

(** A merge of nothing leaves the global series of the sample as it is. *)
Lemma mergeMonthlyData_nothing_new_witness :
  SyncIncremental.mergeMonthlyData codeUnits
    (GlobalStats.monthlyStats globalStats) []
  = GlobalStats.monthlyStats globalStats.
Proof.
  apply MergeMoreFacts.mergeMonthlyData_nothing_new.
  - distinct.
  - simpl. in_order.
Defined.

(** April is added to the three months of the sample. *)
Lemma mergeMonthlyData_months_and_values_witness :
  let merged :=
    SyncIncremental.mergeMonthlyData codeUnits
      (GlobalStats.monthlyStats globalStats) april in
  consistent (SyncIncremental.byMonth codeUnits)
  /\ NoDup (map MonthlyStats.month merged)
  /\ visitsIn merged "2024-04"
     = visitsIn (GlobalStats.monthlyStats globalStats) "2024-04"
       + Zsum (map SyncIncremental.DatasetMonthlyUpdate.visits
                 (updatesOfMonth "2024-04" april))
  /\ StronglySorted
       (fun a b =>
          codeUnits None (MonthlyStats.month a) (MonthlyStats.month b) <= 0)
       merged.
Proof.
  intros merged.
  assert (Hcons : consistent (SyncIncremental.byMonth codeUnits))
    by apply (CollationFacts.by_key_consistent (@fst string Counts.t)).
  pose proof (MergeMoreFacts.mergeMonthlyData_months_and_values codeUnits
                (GlobalStats.monthlyStats globalStats) april) as H.
  cbv zeta in H. destruct H as (Hnd & _ & Hvalues & Hsorted).
  split; [exact Hcons | ]. split; [exact Hnd | ].
  split; [exact (proj1 (Hvalues "2024-04"%string)) | exact (Hsorted Hcons)].
Defined.

(** The record of E after the batch of April: 42 more visits, from
    January to April 2024. *)
Lemma updateDatasetStats_totals_and_bounds_witness :
  let stats :=
    SyncIncremental.updateDatasetStats codeUnits (Some statsE) "E" april
      datasetE in
  NoDup (map MonthlyStats.month (seriesOf (Some statsE)))
  /\ DatasetStats.totalVisits stats
     = seriesVisits (seriesOf (Some statsE)) + Zsum [40; 2]
  /\ DatasetStats.firstMonth stats = "2024-01"%string.
Proof.
  intros stats.
  assert (Hnd : NoDup (map MonthlyStats.month (seriesOf (Some statsE))))
    by distinct.
  pose proof (MergeMoreFacts.updateDatasetStats_totals_and_bounds codeUnits
                (Some statsE) "E" april datasetE) as H.
  cbv zeta in H. destruct H as (_ & _ & Hsum & _ & Hfirst & _).
  split; [exact Hnd | ]. split; [exact (proj1 (Hsum Hnd)) | ].
  exact (Hfirst (MonthlyStats.mk "2024-01" 10 0) _ eq_refl).
Defined.

(** The directory of E updated with the metadata of F lists both. *)
Lemma updateDatasetsIndex_additive_witness :
  let existing := Some (DatasetsIndex.mk lastUpdate [summaryE]) in
  let datasets :=
    DatasetsIndex.datasets
      (SyncIncremental.updateDatasetsIndex codeUnits lastUpdate existing
         [("F"%string, datasetF)]) in
  NoDup (map DatasetSummary.id (existingEntries existing))
  /\ In summaryE datasets
  /\ In (SyncIncremental.summaryOf ("F"%string, datasetF)) datasets.
Proof.
  intros existing datasets.
  assert (Hnd : NoDup (map DatasetSummary.id (existingEntries existing)))
    by distinct.
  pose proof (DirectoryMoreFacts.updateDatasetsIndex_additive codeUnits
                lastUpdate existing [("F"%string, datasetF)]) as H.
  cbv zeta in H. destruct H as (_ & _ & Hnew & Hold & _).
  split; [exact Hnd | ]. split.
  - apply (Hold Hnd summaryE); simpl; intuition discriminate.
  - apply Hnew; [unfold Map_wf; distinct | simpl; auto].
Defined.

(** The rankings recomputed from the file of E have one entry. *)
Lemma recalculated_rankings_witness :
  let ranking :=
    rankingsOf
      (SyncIncremental.recalculateTopDatasets now lastUpdate
         (Files.datasets_dir files))
      Period.week Metric.visits in
  Z.of_nat (List.length (Files.datasets_dir files)) <= 100
  /\ Permutation (map DatasetRanking.id ranking) ["E"%string].
Proof.
  intros ranking.
  assert (Hle : Z.of_nat (List.length (Files.datasets_dir files)) <= 100)
    by (simpl; lia).
  pose proof (RecalculateFacts.recalculated_rankings now lastUpdate
                (Files.datasets_dir files) Period.week Metric.visits) as H.
  cbv zeta in H. destruct H as (_ & _ & _ & _ & Hperm).
  split; [exact Hle | exact (Hperm Hle)].
Defined.

(** The week ranking of the sample lists E and F, the datasets with
    metadata. *)
Lemma rankings_list_every_dataset_with_metadata_witness :
  let ranking :=
    rankingsOf
      (SyncStats.calculateTopDatasets now lastUpdate allMetrics metadataMap)
      Period.week Metric.visits in
  Z.of_nat (List.length (filter (hasMetadata metadataMap) allMetrics)) <= 100
  /\ Permutation (map DatasetRanking.id ranking) ["E"; "F"]%string.
Proof.
  intros ranking.
  assert (Hle :
    Z.of_nat (List.length (filter (hasMetadata metadataMap) allMetrics))
    <= 100) by (vm_compute; discriminate).
  pose proof (RankingMoreFacts.rankings_list_every_dataset_with_metadata now
                lastUpdate allMetrics metadataMap Period.week Metric.visits)
    as H.
  cbv zeta in H. destruct H as [_ Hperm].
  split; [exact Hle | exact (Hperm Hle)].
Defined.

(** The first entry of the week ranking by downloads of the sample. *)
Lemma ranking_entries_are_window_sums_witness :
  let top :=
    SyncStats.calculateTopDatasets now lastUpdate allMetrics metadataMap in
  let first :=
    SyncStats.rankingOf Metric.downloads
      (SyncStats.WithStats.mk metricsE datasetE (Counts.mk 30 7)
         (Counts.mk 20 5)) 0 in
  In first (rankingsOf top Period.week Metric.downloads)
  /\ exists m metadata,
       In m allMetrics
       /\ DatasetRanking.id first = SyncStats.DatasetMetrics.datasetId m
       /\ Map_get metadataMap (DatasetRanking.id first) = Some metadata.
Proof.
  intros top first.
  assert (Hin : In first (rankingsOf top Period.week Metric.downloads))
    by (vm_compute; auto).
  split; [exact Hin | ].
  destruct (RankingMoreFacts.ranking_entries_are_window_sums now lastUpdate
              allMetrics metadataMap Period.week Metric.downloads first Hin)
    as (m & metadata & Hm & Hid & Hget & _).
  exists m, metadata. auto.
Defined.

(** At noon UTC on the 31st of March 2024, in UTC, one month ago is March
    2024, February having 29 days. *)
Lemma getMonthsAgo_on_any_day_witness :
  validDate (Zoned.dateOf noonEndOfMarch)
  /\ 0 <= Zoned.timeWithinDay noonEndOfMarch + 0 < Zoned.msPerDay
  /\ Zoned.getMonthsAgo noonEndOfMarch 0 0 1 = "2024-03"%string
  /\ SyncStats.getMonthsAgo endOfMarch 1 = "2024-03"%string
  /\ SyncIncremental.getMonthsAgo endOfMarch 1 = "2024-03"%string.
Proof.
  assert (Hvalid : validDate (Zoned.dateOf noonEndOfMarch))
    by (vm_compute; intuition discriminate).
  assert (Hnow : 0 <= Zoned.timeWithinDay noonEndOfMarch + 0
                 < Zoned.msPerDay)
    by (vm_compute; intuition discriminate).
  assert (Hthen : 0 <= Zoned.timeWithinDay noonEndOfMarch + 0 - 0
                  < Zoned.msPerDay)
    by (vm_compute; intuition discriminate).
  pose proof (MonthsAgoFacts.getMonthsAgo_on_any_day noonEndOfMarch 0 0 1
                Hvalid Hnow Hthen) as H.
  cbv zeta in H.
  assert (H0 : 0 <= indexOfDate (Zoned.dateOf noonEndOfMarch) - 1)
    by (vm_compute; discriminate).
  assert (H1 : indexOfDate (Zoned.dateOf noonEndOfMarch) - 1 + 1 < 120000)
    by reflexivity.
  destruct (H H0 H1) as (Hzoned & Hfull & Hincr & _).
  split; [exact Hvalid | ]. split; [exact Hnow | ].
  assert (Hvalue : Zoned.getMonthsAgo noonEndOfMarch 0 0 1
                   = "2024-03"%string)
    by (rewrite Hzoned; reflexivity).
  split; [exact Hvalue | ]. split.
  - change endOfMarch with (Zoned.dateOf noonEndOfMarch).
    now rewrite Hfull.
  - change endOfMarch with (Zoned.dateOf noonEndOfMarch).
    now rewrite Hincr.
Defined.

(** A dry run of the full synchronisation leaves the sample files as they
    are. *)
Lemma full_run_fatal_and_dry_run_witness :
  SyncOptions.dryRun dryOptions = true
  /\ SyncStats.main codeUnits dryOptions now lastUpdate listing metricApi
       metadataApi files
     = Some files.
Proof.
  split; [reflexivity | ].
  destruct (SyncStats.main codeUnits dryOptions now lastUpdate listing
              metricApi metadataApi files) as [fs' | ] eqn:Hmain.
  - f_equal.
    exact (proj2 (FullRunFacts.full_run_fatal_and_dry_run codeUnits
                    dryOptions now lastUpdate listing metricApi metadataApi
                    files) eq_refl fs' Hmain).
  - apply (proj1 (FullRunFacts.full_run_fatal_and_dry_run codeUnits
                    dryOptions now lastUpdate listing metricApi metadataApi
                    files)) in Hmain.
    discriminate Hmain.
Defined.

(** The full run on the sample writes the rankings of E and F and the
    file of E. *)
Lemma full_run_files_witness :
  exists fs',
    SyncStats.main codeUnits options now lastUpdate listing metricApi
      metadataApi Files.empty
    = Some fs'
    /\ Files.top_datasets fs'
       = Some (SyncStats.calculateTopDatasets now lastUpdate
                 [metricsE; metricsF] metadataMap)
    /\ Map_get (Files.datasets_dir fs') "G" = None.
Proof.
  eexists. split; [vm_compute; reflexivity | ].
  match goal with
  | |- Files.top_datasets ?fs = _ /\ _ =>
      destruct (FullRunFacts.full_run_files codeUnits options now lastUpdate
                  listing metricApi metadataApi Files.empty fs eq_refl)
        as (datasetIds & Hids & H);
        [vm_compute; reflexivity | ]
  end.
  assert (datasetIds = ["E"; "F"; "G"]%string) as ->
    by (vm_compute in Hids; congruence).
  cbv zeta in H. destruct H as (_ & Htop & _ & _ & Hother).
  split.
  - rewrite Htop. reflexivity.
  - rewrite Hother; [reflexivity | ].
    intros [ | | | ] [ | ]; vm_compute; intuition discriminate.
Defined.

(** The record of E, updated from its own file, keeps its title and its
    organization, and gets the default url.  The record of H, which has an
    organization id and no organization, keeps its url and loses the id. *)
Lemma updateDatasetStats_keeps_display_fields_witness :
  let stats :=
    SyncIncremental.updateDatasetStats codeUnits (Some statsE) "E" april
      (SyncIncremental.metadataOfExisting statsE) in
  let statsH' :=
    SyncIncremental.updateDatasetStats codeUnits (Some statsH) "H" april
      (SyncIncremental.metadataOfExisting statsH) in
  DatasetStats.organization statsE <> ""%string
  /\ DatasetStats.url statsE = ""%string
  /\ DatasetStats.title stats = DatasetStats.title statsE
  /\ DatasetStats.organization stats = "Inconnu"%string
  /\ DatasetStats.organizationId stats = DatasetStats.organizationId statsE
  /\ DatasetStats.url stats
     = "https://www.data.gouv.fr/fr/datasets/E/"%string
  /\ DatasetStats.organization statsH = ""%string
  /\ DatasetStats.organizationId statsH = "o1"%string
  /\ DatasetStats.organization statsH' = "Inconnu"%string
  /\ DatasetStats.organizationId statsH' = ""%string
  /\ DatasetStats.url statsH' = DatasetStats.url statsH.
Proof.
  intros stats statsH'.
  assert (Horg : DatasetStats.organization statsE <> ""%string)
    by (simpl; discriminate).
  assert (Hurl : DatasetStats.url statsE = ""%string) by reflexivity.
  assert (HorgH : DatasetStats.organization statsH = ""%string)
    by reflexivity.
  assert (HurlH : DatasetStats.url statsH <> ""%string)
    by (simpl; discriminate).
  pose proof (IncrementalRunFacts.updateDatasetStats_keeps_display_fields
                codeUnits statsE "E" april) as H.
  cbv zeta in H. destruct H as (Ht & _ & Hkeep & _ & _ & Hdefault).
  pose proof (IncrementalRunFacts.updateDatasetStats_keeps_display_fields
                codeUnits statsH "H" april) as HH.
  cbv zeta in HH. destruct HH as (_ & _ & _ & Hlost & Hkept & _).
  split; [exact Horg | ]. split; [exact Hurl | ].
  split; [exact Ht | ].
  split; [exact (proj1 (Hkeep Horg)) | ].
  split; [exact (proj2 (Hkeep Horg)) | ].
  split; [exact (Hdefault Hurl) | ].
  split; [exact HorgH | ]. split; [reflexivity | ].
  split; [exact (proj1 (Hlost HorgH)) | ].
  split; [exact (proj2 (Hlost HorgH)) | exact (Hkept HurlH)].
Defined.

(** Step 7 on the sample: the file of E is merged with the batch of April,
    and F, which has no metadata anywhere, gets no file. *)
Lemma step7_files_witness :
  let unknown (id : string) : option DatagouvDataset.t := None in
  let fs7 :=
    fold_left
      (SyncIncremental.updateOneDataset codeUnits options unknown [] april)
      (SyncIncremental.datasetsToUpdateOf april) files in
  SyncOptions.dryRun options = false
  /\ metadataFor unknown [] files "E"
     = Some (SyncIncremental.metadataOfExisting statsE)
  /\ SyncIncremental.loadDatasetStats fs7 "E"
     = Some (SyncIncremental.updateDatasetStats codeUnits (Some statsE) "E"
               april (SyncIncremental.metadataOfExisting statsE))
  /\ SyncIncremental.loadDatasetStats fs7 "F" = None.
Proof.
  intros unknown fs7.
  pose proof (IncrementalRunFacts.step7_files codeUnits options unknown []
                april files) as H.
  cbv zeta in H. destruct H as (_ & _ & Hskip & Hmerge).
  split; [reflexivity | ]. split; [reflexivity | ]. split.
  - apply (Hmerge "E"%string); [reflexivity | simpl; auto | reflexivity].
  - apply (Hskip "F"%string); [simpl; auto | reflexivity .. ].
Defined.

(** April 2024 fetched for the sample: one update, of E, already known. *)
Lemma fetchAllUpdates_in_order_witness :
  SyncIncremental.fetchAllUpdates monthApi ["2024-04"%string]
    ([], ["E"%string])
  = Some ([aprilE], ["E"%string])
  /\ [aprilE]
     = map SyncIncremental.updateOfEntry
         (List.concat
            (map (fun month => entriesRead (monthApi month))
               ["2024-04"%string])).
Proof.
  assert (H : SyncIncremental.fetchAllUpdates monthApi ["2024-04"%string]
                ([], ["E"%string])
              = Some ([aprilE], ["E"%string])) by reflexivity.
  split; [exact H | ].
  exact (proj1 (IncrementalRunFacts.fetchAllUpdates_in_order monthApi
                  ["2024-04"%string] ["E"%string] [aprilE] ["E"%string] H)).
Defined.

(** A dry run of the incremental synchronisation in April 2024 fetches
    April and leaves the sample files as they are. *)
Lemma incremental_run_without_effect_witness :
  SyncOptions.dryRun dryOptions = true
  /\ SyncIncremental.main codeUnits dryOptions midApril lastUpdate monthApi
       metadataApi files
     = SyncIncremental.Done (SyncIncremental.synchronised, files).
Proof.
  split; [reflexivity | ].
  assert (H : exists fs',
            SyncIncremental.main codeUnits dryOptions midApril lastUpdate
              monthApi metadataApi files
            = SyncIncremental.Done (SyncIncremental.synchronised, fs'))
    by (eexists; vm_compute; reflexivity).
  destruct H as [fs' H]. rewrite H. do 2 f_equal.
  apply (IncrementalMainFacts.incremental_run_without_effect codeUnits
           dryOptions midApril lastUpdate monthApi metadataApi files fs'
           SyncIncremental.synchronised H).
  left. reflexivity.
Defined.

(** The incremental run of April 2024 on the files of E and Z, in which a
    new dataset A appears: the file of A is written after those of E and Z,
    and the week ranking, in which the three datasets have 40 visits each,
    has them in the order of the file names. *)
Lemma synchronise_writes_consistent_files_witness :
  SyncOptions.dryRun options = false
  /\ Map_wf (Files.datasets_dir filesEZ)
  /\ SyncIncremental.fetchAllUpdates monthApiAEZ ["2024-04"%string]
       ([], SyncIncremental.existingDatasetIdsOf
              (Files.datasets_index filesEZ))
     = Some (aprilAEZ, ["A"; "E"; "Z"]%string)
  /\ exists fs',
       SyncIncremental.synchronise codeUnits options midApril lastUpdate
         monthApiAEZ metadataApiA filesEZ globalStats ["2024-04"%string]
       = (SyncIncremental.synchronised, fs')
       /\ Map_keys (Files.datasets_dir fs') = ["E"; "Z"; "A"]%string
       /\ Map_keys (Files.readdir fs') = ["A"; "E"; "Z"]%string
       /\ Files.top_datasets fs'
          = Some (SyncIncremental.recalculateTopDatasets midApril lastUpdate
                    (Files.readdir fs'))
       /\ map DatasetRanking.id
            (rankingsOf
               (SyncIncremental.recalculateTopDatasets midApril lastUpdate
                  (Files.readdir fs'))
               Period.week Metric.visits)
          = ["A"; "E"; "Z"]%string.
Proof.
  assert (Hwf : Map_wf (Files.datasets_dir filesEZ))
    by (unfold Map_wf; distinct).
  assert (Hfetch :
    SyncIncremental.fetchAllUpdates monthApiAEZ ["2024-04"%string]
      ([], SyncIncremental.existingDatasetIdsOf
             (Files.datasets_index filesEZ))
    = Some (aprilAEZ, ["A"; "E"; "Z"]%string)) by reflexivity.
  split; [reflexivity | ]. split; [exact Hwf | ]. split; [exact Hfetch | ].
  pose proof (IncrementalMainFacts.synchronise_writes_consistent_files
                codeUnits options midApril lastUpdate monthApiAEZ
                metadataApiA filesEZ globalStats ["2024-04"%string] aprilAEZ
                ["A"; "E"; "Z"]%string eq_refl Hwf Hfetch) as H.
  cbv zeta in H. destruct H as (fs' & Hrun & _ & _ & Hdir & Htop & _).
  exists fs'. split; [exact Hrun | ].
  assert (Hkeys : Map_keys (Files.datasets_dir fs') = ["E"; "Z"; "A"]%string)
    by (rewrite Hdir; reflexivity).
  assert (Hlist : Map_keys (Files.readdir fs') = ["A"; "E"; "Z"]%string)
    by (unfold Files.readdir; rewrite Hdir; reflexivity).
  split; [exact Hkeys | ]. split; [exact Hlist | ].
  split; [exact Htop | ].
  unfold Files.readdir. rewrite Hdir. reflexivity.
Defined.

(** The metadata map of the sample binds E and leaves G out. *)
Lemma fetchAllMetadata_lookup_witness :
  Map_get (SyncStats.fetchAllMetadata metadataApi allMetrics) "E"
  = Some datasetE
  /\ Map_get (SyncStats.fetchAllMetadata metadataApi allMetrics) "G" = None.
Proof.
  split.
  - destruct (MetadataMapFacts.fetchAllMetadata_lookup metadataApi
                allMetrics "E") as (_ & Hin & _).
    rewrite Hin; [reflexivity | simpl; auto].
  - destruct (MetadataMapFacts.fetchAllMetadata_lookup metadataApi
                allMetrics "G") as (_ & Hin & _).
    rewrite Hin; [reflexivity | simpl; auto].
Defined.

(** Of the ids E and F, only F, which the directory does not list, has
    its metadata fetched. *)
Lemma fetchMissingMetadata_lookup_witness :
  let metadataMap :=
    SyncIncremental.fetchMissingMetadata metadataApi ["E"; "F"]%string
      directory in
  Map_has directory "F" = false
  /\ Map_get metadataMap "F" = Some datasetF
  /\ Map_get metadataMap "E" = None.
Proof.
  intros metadataMap. split; [reflexivity | ]. split.
  - destruct (MetadataMapFacts.fetchMissingMetadata_lookup metadataApi
                ["E"; "F"]%string directory "F") as (_ & Hin & _).
    cbv zeta in Hin. unfold metadataMap.
    rewrite Hin; [reflexivity | simpl; auto | reflexivity].
  - destruct (MetadataMapFacts.fetchMissingMetadata_lookup metadataApi
                ["E"; "F"]%string directory "E") as (_ & _ & Hout).
    apply Hout. right. reflexivity.
Defined.

(** The record made of the fetched metrics of E. *)
Lemma createDatasetStats_of_fetched_metrics_witness :
  let stats := SyncStats.createDatasetStats codeUnits metricsE datasetE in
  SyncStats.fetchDatasetMetrics "E" responsesE = Some metricsE
  /\ DatasetStats.totalVisits stats
     = seriesVisits (DatasetStats.monthlyStats stats)
  /\ DatasetStats.lastMonth stats = "2024-03"%string.
Proof.
  intros stats.
  assert (H : SyncStats.fetchDatasetMetrics "E" responsesE = Some metricsE)
    by reflexivity.
  pose proof (DetailsFacts.createDatasetStats_of_fetched_metrics codeUnits
                "E" responsesE metricsE datasetE H) as Hspec.
  cbv zeta in Hspec.
  destruct Hspec as (_ & _ & _ & Hv & _ & _ & _ & Hlast & _).
  split; [exact H | ]. split; [exact Hv | ].
  exact (Hlast [MonthlyStats.mk "2024-01" 10 0; MonthlyStats.mk "2024-02" 20 5]
           (MonthlyStats.mk "2024-03" 30 7) eq_refl).
Defined.

End MoreWitnesses.

